(** * The deployment job pipeline of the X token deployer

    A shallow embedding of the backend's deployment pipeline (command parser,
    wallet resolver, deployment store, rate limiter, blockchain deployer,
    deployment worker and wallet service) and the properties the
    specification states about it; then of the code around it: the wallet
    link router, the direct-message commands and the polling of the listener,
    and the token contract.

    Conventions.
    - A JavaScript string is a [string], a sequence of code units below 256;
      the case mappings and the character classes are the ASCII ones.
    - [null] and [undefined] are [None]; the truthiness tests of the code
      ([if (x)], [x || y]) are written out with [Js.truthy], [Js.or_else] and
      [Js.or_null].
    - An [async] function is a computation in the monad [Async]: it reads the
      environment of one run (the clock, the behaviour of the connection pool,
      of the launch API and of the chain), threads the stores, and either
      returns or throws. Both branches of every store operation are modelled:
      the in-memory maps used under [MOCK_DB] and the tables of schema.sql.
    - Jobs run one at a time, each to its end ([Pipeline.deliver]).
    - [trace] is ghost state: it records the store calls of the worker, its
      calls of [deploy], the steps [deploy] takes and the replies.
    - A handler of the router returns its response and the pending
      challenges; a handler of direct messages returns the messages it has
      sent. What a library or a remote service does in one run (siwe, ethers,
      the X APIs, the queue) is part of the environment of that run.
    - A [uint256] is an integer, with the wrap-around of unchecked
      arithmetic written out; a Solidity mapping is a finite map that reads
      [0] where nothing was written. *)

From Stdlib Require Import ZArith String Ascii List Bool Lia Sorted.
From stdpp Require Import gmap strings list.

Import ListNotations.
Local Open Scope string_scope.
Local Open Scope Z_scope.

(* ===================================================================== *)
(** ** JavaScript strings *)
(* ===================================================================== *)

Module Js.

Definition is_upper (c : ascii) : bool :=
  let n := nat_of_ascii c in ((65 <=? n) && (n <=? 90))%nat.

Definition is_lower (c : ascii) : bool :=
  let n := nat_of_ascii c in ((97 <=? n) && (n <=? 122))%nat.

Definition is_digit (c : ascii) : bool :=
  let n := nat_of_ascii c in ((48 <=? n) && (n <=? 57))%nat.

(** The capital letters above the ASCII ones: U+00C0 to U+00DE but the
    multiplication sign U+00D7. *)
Definition is_upper_latin1 (c : ascii) : bool :=
  let n := nat_of_ascii c in
  ((192 <=? n) && (n <=? 222) && negb (n =? 215))%nat.

Definition lower_char (c : ascii) : ascii :=
  if is_upper c || is_upper_latin1 c then ascii_of_nat (nat_of_ascii c + 32)
  else c.

(** The small letters above the ASCII ones that have a capital 32 places
    below: U+00E0 to U+00FE but the division sign U+00F7. *)
Definition is_lower_latin1 (c : ascii) : bool :=
  let n := nat_of_ascii c in
  ((224 <=? n) && (n <=? 254) && negb (n =? 247))%nat.

(** The capital of a character, when it is one character of the model. The
    capitals of U+00B5 and U+00FF are U+039C and U+0178, which lie above the
    code units of the model; the two characters are left as they are. *)
Definition upper_char (c : ascii) : ascii :=
  if is_lower c || is_lower_latin1 c then ascii_of_nat (nat_of_ascii c - 32)
  else c.

(** [String.prototype.toLowerCase] *)
Fixpoint toLowerCase (s : string) : string :=
  match s with
  | EmptyString => EmptyString
  | String c r => String (lower_char c) (toLowerCase r)
  end.

(** [String.prototype.toUpperCase]; the capital of the sharp s, U+00DF, is
    the two letters SS. *)
Fixpoint toUpperCase (s : string) : string :=
  match s with
  | EmptyString => EmptyString
  | String c r =>
      if (nat_of_ascii c =? 223)%nat then String "S" (String "S" (toUpperCase r))
      else String (upper_char c) (toUpperCase r)
  end.

(** White space and line terminators, the class [\s]. *)
Definition is_space (c : ascii) : bool :=
  let n := nat_of_ascii c in
  ((n =? 32) || ((9 <=? n) && (n <=? 13)) || (n =? 160))%nat.

(** Line terminators, the complement of [.] *)
Definition is_line_terminator (c : ascii) : bool :=
  let n := nat_of_ascii c in ((n =? 10) || (n =? 13))%nat.

(** The class [\w]. *)
Definition is_word (c : ascii) : bool :=
  is_upper c || is_lower c || is_digit c || (nat_of_ascii c =? 95)%nat.

Fixpoint trimStart (s : string) : string :=
  match s with
  | EmptyString => EmptyString
  | String c r => if is_space c then trimStart r else s
  end.

Fixpoint trimEnd (s : string) : string :=
  match s with
  | EmptyString => EmptyString
  | String c r =>
      match trimEnd r with
      | EmptyString => if is_space c then EmptyString else String c EmptyString
      | r' => String c r'
      end
  end.

(** [String.prototype.trim] *)
Definition trim (s : string) : string := trimEnd (trimStart s).

Fixpoint startsWith (s p : string) : bool :=
  match p, s with
  | EmptyString, _ => true
  | String _ _, EmptyString => false
  | String b p', String a s' => Ascii.eqb a b && startsWith s' p'
  end.

(** [String.prototype.includes] *)
Fixpoint includes (s p : string) : bool :=
  startsWith s p ||
  match s with
  | EmptyString => false
  | String _ r => includes r p
  end.

(** Truthiness of a [string | null | undefined]. *)
Definition truthy (o : option string) : bool :=
  match o with
  | Some s => negb (String.eqb s "")
  | None => false
  end.

(** [o || d] on strings. *)
Definition or_else (o : option string) (d : string) : string :=
  match o with
  | Some s => if String.eqb s "" then d else s
  | None => d
  end.

(** [o || null] *)
Definition or_null (o : option string) : option string :=
  if truthy o then o else None.

Definition quote : string := String (ascii_of_nat 34) EmptyString.

End Js.

(* ===================================================================== *)
(** ** types/index.ts (src/unnamed/part_002) *)
(* ===================================================================== *)

Inductive DeploymentStatus : Type :=
| pending
| processing
| deployed
| failed
| wallet_missing.

#[global] Instance DeploymentStatus_eq_dec : EqDecision DeploymentStatus.
Proof. solve_decision. Defined.

Record User : Type := mkUser {
  twitter_id : string;
  wallet_address : string;
  private_key_encrypted : option string;
  verified_at : Z
}.

(** A row of [deployments]. The columns that the in-memory store never sets
    ([token_name], [token_symbol], [error_message], [updated_at],
    [deployed_at]) are optional. *)
Record Deployment : Type := mkDeployment {
  id : nat;
  deploy_tweet_id : string;
  parent_tweet_id : string;
  deployer_twitter_id : string;
  fee_recipient_twitter_id : string;
  fee_recipient_wallet : string;
  token_name : option string;
  token_symbol : option string;
  token_address : option string;
  pool_id : option string;
  tx_hash : option string;
  status : DeploymentStatus;
  error_message : option string;
  created_at : Z;
  updated_at : option Z;
  deployed_at : option Z
}.

Record DeployCommand : Type := mkDeployCommand {
  ticker : string;
  name : string
}.

Module TweetMention.
Record t : Type := mk {
  tweet_id : string;
  author_id : string;
  author_username : string;
  text : string;
  in_reply_to_tweet_id : option string;
  created_at : string
}.
End TweetMention.

Module ParentTweetInfo.
Record t : Type := mk {
  tweet_id : string;
  author_id : string;
  author_username : string
}.
End ParentTweetInfo.

Record DeploymentJob : Type := mkDeploymentJob {
  mention : TweetMention.t;
  command : DeployCommand;
  parentTweet : ParentTweetInfo.t
}.

Module DeploymentResult.
Record t : Type := mk {
  success : bool;
  tokenAddress : option string;
  poolId : option string;
  txHash : option string;
  error : option string
}.
End DeploymentResult.

(* ===================================================================== *)
(** ** config/index.ts (src/unnamed/part_003): the development flags *)
(* ===================================================================== *)

Record Config : Type := mkConfig {
  MOCK_X_API : bool;
  MOCK_QUEUE : bool;
  MOCK_DB : bool;
  MOCK_CHAIN : bool
}.

(* ===================================================================== *)
(** ** Thrown values, the environment of a run and the [Async] monad *)
(* ===================================================================== *)

(** A thrown JavaScript value: whether it is an [Error] instance, and its
    [message] property. *)
Record JsError : Type := mkError {
  instanceofError : bool;
  message : option string
}.

(** What a call that leaves the process does. *)
Inductive Outcome (A : Type) : Type :=
| Returns (a : A)
| Throws (e : JsError).

Arguments Returns {A} a.
Arguments Throws {A} e.

(** The launch API and the chain, as seen by one call of [deploy]. *)
Record Chain : Type := mkChain {
  login : Outcome unit;
  getTokenCreatePayload : Outcome (string * string);
  createToken : Outcome string;
  wait : Outcome unit
}.

(** The environment of one run. [faults] is the behaviour of the connection
    pool: its k-th element, when it is [Some msg], makes the k-th
    [pool.query] of the run reject with that message, for a reason the model
    does not compute (connection loss, timeout, a column width exceeded). *)
Record Env : Type := mkEnv {
  now : Z;
  faults : list (option string);
  chain : Chain
}.

(** The ghost trace. The store events are logged by the worker when the
    call has returned; [EvDeploy] when it calls [deploy]; the four step events
    by [deploy] when it makes the call; the reply events when the worker hands
    the reply to the publisher. *)
Inductive Event : Type :=
| EvCreated (tweet : string)
| EvStatus (tweet : string) (s : DeploymentStatus)
| EvAttempt (user : string)
| EvDeploy (tweet : string)
| EvLogin
| EvGetPayload
| EvCreateToken
| EvWait
| EvReplySuccess (tweet : string)
| EvReplyWalletRequired (tweet : string)
| EvReplyFailure (tweet : string) (reason : string).

#[global] Instance Event_eq_dec : EqDecision Event.
Proof. solve_decision. Defined.

Record RateLimitRow : Type := mkRateLimitRow {
  rl_twitter_id : string;
  last_deploy_at : Z;
  deploy_count_24h : Z
}.

Record UserRow : Type := mkUserRow {
  user : User;
  user_created_at : Z
}.

(** The state of [class Database]: the three in-memory maps of the mock
    store, and the three tables of schema.sql with the sequence behind
    [deployments.id]. *)
Record Database : Type := mkDatabase {
  mockUsers : gmap string User;
  mockDeployments : gmap string Deployment;
  mockRateLimits : gmap string Z;
  users : list UserRow;
  deployments : list Deployment;
  rate_limits : list RateLimitRow;
  deployments_id_seq : nat
}.

Record St : Type := mkSt {
  db : Database;
  queries : nat;
  trace : list Event
}.

Inductive Res (A : Type) : Type :=
| Ok (a : A)
| Thrown (e : JsError).

Arguments Ok {A} a.
Arguments Thrown {A} e.

Definition Async (A : Type) : Type := Env -> St -> Res A * St.

Definition ret {A} (a : A) : Async A := fun _ s => (Ok a, s).

Definition throw {A} (e : JsError) : Async A := fun _ s => (Thrown e, s).

Definition bind {A B} (m : Async A) (k : A -> Async B) : Async B :=
  fun e s =>
    match m e s with
    | (Ok a, s') => k a e s'
    | (Thrown x, s') => (Thrown x, s')
    end.

(** [try { m } catch (error) { h error }] *)
Definition try_catch {A} (m : Async A) (h : JsError -> Async A) : Async A :=
  fun e s =>
    match m e s with
    | (Ok a, s') => (Ok a, s')
    | (Thrown x, s') => h x e s'
    end.

Declare Scope async_scope.
Delimit Scope async_scope with async.
Notation "x <- m ;; k" := (bind m (fun x => k))
  (at level 100, m at next level, right associativity) : async_scope.
Notation "m ;;; k" := (bind m (fun _ => k))
  (at level 100, right associativity) : async_scope.
Local Open Scope async_scope.

Definition get_env : Async Env := fun e s => (Ok e, s).

Definition get_db : Async Database := fun _ s => (Ok (db s), s).

Definition put_db (d : Database) : Async unit :=
  fun _ s => (Ok tt, mkSt d (queries s) (trace s)).

Definition emit (ev : Event) : Async unit :=
  fun _ s => (Ok tt, mkSt (db s) (queries s) (trace s ++ [ev])).

(** One [pool.query]: it is sent, and rejects when the pool says so. *)
Definition pool_query : Async unit :=
  fun e s =>
    let s' := mkSt (db s) (S (queries s)) (trace s) in
    match nth (queries s) (faults e) None with
    | Some msg => (Thrown (mkError true (Some msg)), s')
    | None => (Ok tt, s')
    end.

(** A call that leaves the process. *)
Definition external {A} (o : Outcome A) : Async A :=
  match o with
  | Returns a => ret a
  | Throws e => throw e
  end.

(** Runs a computation from the beginning of a run. *)
Definition run {A} (m : Async A) (e : Env) (d : Database) (t : list Event)
  : Res A * St :=
  m e (mkSt d 0 t).

(* ===================================================================== *)
(** ** db/schema.sql and [class Database] (second part of
       src/backend/src/db/index.ts, imported as db/client.js) *)
(* ===================================================================== *)

Module Database.

Definition is_hex (c : ascii) : bool :=
  let n := nat_of_ascii c in
  (Js.is_digit c || ((97 <=? n) && (n <=? 102)) || ((65 <=? n) && (n <=? 70)))%nat.

Fixpoint all_chars (p : ascii -> bool) (s : string) : bool :=
  match s with
  | EmptyString => true
  | String c r => p c && all_chars p r
  end.

(** [CONSTRAINT valid_wallet CHECK (wallet_address ~ '^0x[a-fA-F0-9]{40}$')] *)
Definition valid_wallet (a : string) : bool :=
  match a with
  | String c0 (String c1 r) =>
      Ascii.eqb c0 "0"%char && Ascii.eqb c1 "x"%char &&
      (String.length r =? 40)%nat && all_chars is_hex r
  | _ => false
  end.

Definition constraint_error (kind cname : string) : JsError :=
  mkError true (Some (kind ++ Js.quote ++ cname ++ Js.quote)).

Definition unique_violation (cname : string) : JsError :=
  constraint_error "duplicate key value violates unique constraint " cname.

Definition check_violation (relation cname : string) : JsError :=
  constraint_error
    ("new row for relation " ++ Js.quote ++ relation ++ Js.quote
       ++ " violates check constraint ") cname.

Definition set_mockUsers (m : gmap string User) (d : Database) : Database :=
  mkDatabase m (mockDeployments d) (mockRateLimits d)
             (users d) (deployments d) (rate_limits d) (deployments_id_seq d).

Definition set_mockDeployments (m : gmap string Deployment) (d : Database)
  : Database :=
  mkDatabase (mockUsers d) m (mockRateLimits d)
             (users d) (deployments d) (rate_limits d) (deployments_id_seq d).

Definition set_mockRateLimits (m : gmap string Z) (d : Database) : Database :=
  mkDatabase (mockUsers d) (mockDeployments d) m
             (users d) (deployments d) (rate_limits d) (deployments_id_seq d).

Definition set_users (l : list UserRow) (d : Database) : Database :=
  mkDatabase (mockUsers d) (mockDeployments d) (mockRateLimits d)
             l (deployments d) (rate_limits d) (deployments_id_seq d).

Definition set_deployments (l : list Deployment) (n : nat) (d : Database)
  : Database :=
  mkDatabase (mockUsers d) (mockDeployments d) (mockRateLimits d)
             (users d) l (rate_limits d) n.

Definition set_rate_limits (l : list RateLimitRow) (d : Database) : Database :=
  mkDatabase (mockUsers d) (mockDeployments d) (mockRateLimits d)
             (users d) (deployments d) l (deployments_id_seq d).

(** [SELECT ... FROM users WHERE twitter_id = $1], [rows[0]] *)
Definition select_user (twitterId : string) (d : Database) : option User :=
  user <$> find (fun r => String.eqb (twitter_id (user r)) twitterId) (users d).

(** [SELECT * FROM deployments WHERE deploy_tweet_id = $1], [rows[0]] *)
Definition select_deployment (deployTweetId : string) (d : Database)
  : option Deployment :=
  find (fun r => String.eqb (deploy_tweet_id r) deployTweetId) (deployments d).

Definition select_rate_limit (twitterId : string) (d : Database)
  : option RateLimitRow :=
  find (fun r => String.eqb (rl_twitter_id r) twitterId) (rate_limits d).

Definition getUserByTwitterId (cfg : Config) (twitterId : string)
  : Async (option User) :=
  if MOCK_DB cfg then
    d <- get_db ;; ret (mockUsers d !! twitterId)
  else
    pool_query ;;;
    d <- get_db ;; ret (select_user twitterId d).

Definition getWalletByTwitterId (cfg : Config) (twitterId : string)
  : Async (option string) :=
  if MOCK_DB cfg then
    d <- get_db ;;
    ret (Js.or_null (wallet_address <$> mockUsers d !! twitterId))
  else
    pool_query ;;;
    d <- get_db ;;
    ret (Js.or_null (wallet_address <$> select_user twitterId d)).

(** [INSERT INTO users ... ON CONFLICT (twitter_id) DO UPDATE SET ...] *)
Definition upsert_row (u : User) (t : Z) (rows : list UserRow) : list UserRow :=
  if existsb (fun r => String.eqb (twitter_id (user r)) (twitter_id u)) rows
  then map (fun r => if String.eqb (twitter_id (user r)) (twitter_id u)
                     then mkUserRow u (user_created_at r) else r) rows
  else rows ++ [mkUserRow u t].

Definition upsertUser (cfg : Config) (twitterId walletAddress : string)
  (encryptedKey : option string) : Async User :=
  e <- get_env ;;
  let u := mkUser twitterId (Js.toLowerCase walletAddress) encryptedKey (now e) in
  if MOCK_DB cfg then
    d <- get_db ;;
    put_db (set_mockUsers (<[twitterId := u]> (mockUsers d)) d) ;;;
    ret u
  else
    pool_query ;;;
    d <- get_db ;;
    if valid_wallet (wallet_address u) then
      put_db (set_users (upsert_row u (now e) (users d)) d) ;;;
      ret u
    else throw (check_violation "users" "valid_wallet").

Record CreateParams : Type := mkCreateParams {
  deployTweetId : string;
  parentTweetId : string;
  deployerTwitterId : string;
  feeRecipientTwitterId : string;
  feeRecipientWallet : string;
  tokenName : string;
  tokenSymbol : string
}.

Definition createDeployment (cfg : Config) (params : CreateParams)
  : Async Deployment :=
  e <- get_env ;;
  if MOCK_DB cfg then
    d <- get_db ;;
    let deployment :=
      mkDeployment (size (mockDeployments d) + 1)%nat
        (deployTweetId params) (parentTweetId params)
        (deployerTwitterId params) (feeRecipientTwitterId params)
        (feeRecipientWallet params)
        None None None None None pending None (now e) None None in
    put_db (set_mockDeployments
              (<[deployTweetId params := deployment]> (mockDeployments d)) d) ;;;
    ret deployment
  else
    pool_query ;;;
    d <- get_db ;;
    let n := S (deployments_id_seq d) in
    let row :=
      mkDeployment n
        (deployTweetId params) (parentTweetId params)
        (deployerTwitterId params) (feeRecipientTwitterId params)
        (feeRecipientWallet params)
        (Some (tokenName params)) (Some (tokenSymbol params))
        None None None pending None (now e) (Some (now e)) None in
    if existsb (fun r => String.eqb (deploy_tweet_id r) (deployTweetId params))
               (deployments d)
    then
      put_db (set_deployments (deployments d) n d) ;;;
      throw (unique_violation "unique_deploy_tweet")
    else
      put_db (set_deployments (deployments d ++ [row]) n d) ;;;
      ret row.

Module StatusData.
Record t : Type := mk {
  tokenAddress : option string;
  poolId : option string;
  txHash : option string;
  errorMessage : option string
}.
End StatusData.

(** [data?.field], and the column it leaves when it is falsy. *)
Definition supplied (data : option StatusData.t)
  (f : StatusData.t -> option string) (old : option string) : option string :=
  if Js.truthy (data ≫= f) then data ≫= f else old.

(** The assignments of the in-memory branch. *)
Definition mock_update (st : DeploymentStatus) (data : option StatusData.t)
  (r : Deployment) : Deployment :=
  mkDeployment (id r) (deploy_tweet_id r) (parent_tweet_id r)
    (deployer_twitter_id r) (fee_recipient_twitter_id r) (fee_recipient_wallet r)
    (token_name r) (token_symbol r)
    (supplied data StatusData.tokenAddress (token_address r))
    (supplied data StatusData.poolId (pool_id r))
    (supplied data StatusData.txHash (tx_hash r))
    st (error_message r) (created_at r) (updated_at r) (deployed_at r).

(** The [SET] list of the [UPDATE], and the [updated_at] trigger. *)
Definition sql_update (t : Z) (st : DeploymentStatus)
  (data : option StatusData.t) (r : Deployment) : Deployment :=
  mkDeployment (id r) (deploy_tweet_id r) (parent_tweet_id r)
    (deployer_twitter_id r) (fee_recipient_twitter_id r) (fee_recipient_wallet r)
    (token_name r) (token_symbol r)
    (supplied data StatusData.tokenAddress (token_address r))
    (supplied data StatusData.poolId (pool_id r))
    (supplied data StatusData.txHash (tx_hash r))
    st
    (supplied data StatusData.errorMessage (error_message r))
    (created_at r) (Some t)
    (if decide (st = deployed) then Some t else deployed_at r).

(** schema.sql gives the three columns the update may assign a width:
    [token_address VARCHAR(42)], [pool_id VARCHAR(66)], [tx_hash
    VARCHAR(66)]. Postgres rejects a statement that assigns a longer value.
    Like every rejection of a query, this one reaches the code through the
    pool: in the model it is one of the rejections of [faults], and what is
    stated of the SQL store for answered queries is stated of values that
    fit. *)
Definition fits (width : nat) (value : option string) : bool :=
  match value with
  | Some v => (String.length v <=? width)%nat
  | None => true
  end.

Definition columns_fit (data : option StatusData.t) : bool :=
  fits 42 (data ≫= StatusData.tokenAddress) &&
  fits 66 (data ≫= StatusData.poolId) &&
  fits 66 (data ≫= StatusData.txHash).

Definition updateDeploymentStatus (cfg : Config) (deployTweetId : string)
  (st : DeploymentStatus) (data : option StatusData.t) : Async unit :=
  e <- get_env ;;
  if MOCK_DB cfg then
    d <- get_db ;;
    match mockDeployments d !! deployTweetId with
    | Some deployment =>
        put_db (set_mockDeployments
                  (<[deployTweetId := mock_update st data deployment]>
                     (mockDeployments d)) d)
    | None => ret tt
    end
  else
    pool_query ;;;
    d <- get_db ;;
    put_db (set_deployments
              (map (fun r => if String.eqb (deploy_tweet_id r) deployTweetId
                             then sql_update (now e) st data r else r)
                   (deployments d))
              (deployments_id_seq d) d).

Definition getDeploymentByTweetId (cfg : Config) (deployTweetId : string)
  : Async (option Deployment) :=
  if MOCK_DB cfg then
    d <- get_db ;; ret (mockDeployments d !! deployTweetId)
  else
    pool_query ;;;
    d <- get_db ;; ret (select_deployment deployTweetId d).

Definition deploymentExists (cfg : Config) (deployTweetId : string)
  : Async bool :=
  if MOCK_DB cfg then
    d <- get_db ;; ret (bool_decide (is_Some (mockDeployments d !! deployTweetId)))
  else
    pool_query ;;;
    d <- get_db ;;
    ret (existsb (fun r => String.eqb (deploy_tweet_id r) deployTweetId)
                 (deployments d)).

Definition checkRateLimit (cfg : Config) (twitterId : string) (cooldownMs : Z)
  : Async bool :=
  e <- get_env ;;
  if MOCK_DB cfg then
    d <- get_db ;;
    match mockRateLimits d !! twitterId with
    | None => ret true
    | Some lastDeploy => ret (cooldownMs <=? now e - lastDeploy)
    end
  else
    pool_query ;;;
    d <- get_db ;;
    match select_rate_limit twitterId d with
    | None => ret true
    | Some row => ret (cooldownMs <=? now e - last_deploy_at row)
    end.

(** [INSERT INTO rate_limits ... ON CONFLICT (twitter_id) DO UPDATE SET ...] *)
Definition upsert_rate_limit (twitterId : string) (t : Z)
  (rows : list RateLimitRow) : list RateLimitRow :=
  if existsb (fun r => String.eqb (rl_twitter_id r) twitterId) rows
  then map (fun r => if String.eqb (rl_twitter_id r) twitterId
                     then mkRateLimitRow twitterId t (deploy_count_24h r + 1)
                     else r) rows
  else rows ++ [mkRateLimitRow twitterId t 1].

Definition recordDeployAttempt (cfg : Config) (twitterId : string)
  : Async unit :=
  e <- get_env ;;
  if MOCK_DB cfg then
    d <- get_db ;;
    put_db (set_mockRateLimits (<[twitterId := now e]> (mockRateLimits d)) d)
  else
    pool_query ;;;
    d <- get_db ;;
    put_db (set_rate_limits (upsert_rate_limit twitterId (now e) (rate_limits d)) d).

End Database.

(* ===================================================================== *)
(** ** services/WalletResolver.ts (src/unnamed/part_005) *)
(* ===================================================================== *)

Module WalletResolver.

Definition resolve (cfg : Config) (twitterId : string) : Async (option string) :=
  Database.getWalletByTwitterId cfg twitterId.

Definition hasWallet (cfg : Config) (twitterId : string) : Async bool :=
  wallet <- resolve cfg twitterId ;;
  ret (bool_decide (wallet <> None)).

(** [db.upsertUser(twitterId, walletAddress)]: the third parameter takes its
    default, [null]. *)
Definition link (cfg : Config) (twitterId walletAddress : string) : Async unit :=
  Database.upsertUser cfg twitterId walletAddress None ;;;
  ret tt.

End WalletResolver.

(* ===================================================================== *)
(** ** services/ReplyPublisher.ts (second part of
       src/backend/src/services/WalletService.ts) *)
(* ===================================================================== *)

(** The three operations format a text and hand it to the platform client;
    every failure of the send is caught inside them, so none of them throws.
    Their result is not used by the worker; the model keeps the attempt. *)
Module ReplyPublisher.

Definition postSuccess (replyToTweetId : string) : Async unit :=
  emit (EvReplySuccess replyToTweetId).

Definition postWalletRequired (replyToTweetId : string) : Async unit :=
  emit (EvReplyWalletRequired replyToTweetId).

Definition postFailure (replyToTweetId reason : string) : Async unit :=
  emit (EvReplyFailure replyToTweetId reason).

End ReplyPublisher.

(* ===================================================================== *)
(** ** services/BlockchainDeployer.ts (src/unnamed/part_007) *)
(* ===================================================================== *)

Module BlockchainDeployer.

(** [ethers.Wallet], as far as [deploy] reads it. *)
Record Signer : Type := mkSigner { address : string }.

(** The object literal handed to [deploy]. The declared type makes
    [description] and [image] mandatory; the worker's literal leaves them out
    and adds [deployerTwitterId]. *)
Record Params : Type := mkParams {
  name : string;
  symbol : string;
  description : option string;
  image : option string;
  twitter : option string;
  telegram : option string;
  website : option string;
  feeRecipient : option string;
  deployerTwitterId : option string
}.

Definition mock_result : DeploymentResult.t :=
  DeploymentResult.mk true
    (Some "0xMockTokenAddress12345678901234567890123456")
    (Some "0xMockPoolId12345678901234567890123456789012")
    (Some "0xMockTxHash12345678901234567890123456789012")
    None.

(** Reading [signer.address] when no signer was passed. *)
Definition undefined_signer : JsError :=
  mkError true (Some "Cannot read properties of undefined (reading 'address')").

Definition deploy (cfg : Config) (params : Params) (signer : option Signer)
  : Async DeploymentResult.t :=
  if MOCK_CHAIN cfg then ret mock_result
  else
    try_catch
      (e <- get_env ;;
       _ <- match signer with
            | Some sg => ret (address sg)
            | None => throw undefined_signer
            end ;;
       (* 1. Authenticate with Four.Meme *)
       emit EvLogin ;;;
       external (login (chain e)) ;;;
       (* 2. Get Payload *)
       emit EvGetPayload ;;;
       payload <- external (getTokenCreatePayload (chain e)) ;;
       (* 3. Execute Transaction *)
       emit EvCreateToken ;;;
       tx_hash <- external (createToken (chain e)) ;;
       (* 4. Wait for receipt *)
       emit EvWait ;;;
       external (wait (chain e)) ;;;
       (* 5. Success *)
       ret (DeploymentResult.mk true (Some "0xPENDING_LOG_PARSE") (Some "0x0")
              (Some tx_hash) None))
      (fun error =>
         ret (DeploymentResult.mk false None None None
                (Some (Js.or_else (message error) "Unknown error")))).

End BlockchainDeployer.

(* ===================================================================== *)
(** ** workers/deploymentWorker.ts (third part of
       src/backend/src/db/index.ts) *)
(* ===================================================================== *)

Module Worker.

Definition RATE_LIMIT_COOLDOWN_MS : Z := 60 * 60 * 1000.

(** The objects [processDeploymentJob] returns, by their [status]. *)
Inductive JobResult : Type :=
| skipped (reason : string)
| job_wallet_missing
| rate_limited
| job_failed (error : option string)
| job_deployed (tokenAddress poolId txHash : option string).

Definition create_params (data : DeploymentJob) (wallet : string)
  : Database.CreateParams :=
  Database.mkCreateParams
    (TweetMention.tweet_id (mention data))
    (ParentTweetInfo.tweet_id (parentTweet data))
    (TweetMention.author_id (mention data))
    (ParentTweetInfo.author_id (parentTweet data))
    wallet
    (name (command data))
    (ticker (command data)).

Definition processDeploymentJob (cfg : Config) (data : DeploymentJob)
  : Async JobResult :=
  let mention := mention data in
  let command := command data in
  let parentTweet := parentTweet data in
  let tweet := TweetMention.tweet_id mention in
  try_catch
    ((* 1. Check if deployment already exists (idempotency) *)
     dup <- Database.deploymentExists cfg tweet ;;
     if (dup : bool) then ret (skipped "duplicate")
     else
       (* 2. Resolve fee recipient wallet *)
       feeRecipientWallet <-
         WalletResolver.resolve cfg (ParentTweetInfo.author_id parentTweet) ;;
       (* [!feeRecipientWallet]: [resolve] answers [null] for an empty
          address (lemma [resolve_is_never_empty]), so the test is the test
          for [null]. *)
       match feeRecipientWallet with
       | None =>
           Database.createDeployment cfg (create_params data "") ;;;
           emit (EvCreated tweet) ;;;
           Database.updateDeploymentStatus cfg tweet wallet_missing None ;;;
           emit (EvStatus tweet wallet_missing) ;;;
           ReplyPublisher.postWalletRequired tweet ;;;
           ret job_wallet_missing
       | Some wallet =>
           (* 3. Check rate limits *)
           canDeploy <- Database.checkRateLimit cfg
                          (TweetMention.author_id mention)
                          RATE_LIMIT_COOLDOWN_MS ;;
           if negb canDeploy then
             ReplyPublisher.postFailure tweet
               "Rate limited. Please wait before deploying again." ;;;
             ret rate_limited
           else
             (* 4. Create deployment record *)
             Database.createDeployment cfg (create_params data wallet) ;;;
             emit (EvCreated tweet) ;;;
             Database.updateDeploymentStatus cfg tweet processing None ;;;
             emit (EvStatus tweet processing) ;;;
             Database.recordDeployAttempt cfg (TweetMention.author_id mention) ;;;
             emit (EvAttempt (TweetMention.author_id mention)) ;;;
             (* 5. Execute on-chain deployment *)
             emit (EvDeploy tweet) ;;;
             result <- BlockchainDeployer.deploy cfg
                         (BlockchainDeployer.mkParams
                            (name command) (ticker command)
                            None None None None None
                            (Some wallet)
                            (Some (TweetMention.author_id mention)))
                         None ;;
             if negb (DeploymentResult.success result) then
               Database.updateDeploymentStatus cfg tweet failed
                 (Some (Database.StatusData.mk None None
                          (DeploymentResult.txHash result)
                          (DeploymentResult.error result))) ;;;
               emit (EvStatus tweet failed) ;;;
               ReplyPublisher.postFailure tweet
                 "On-chain deployment failed. Please try again." ;;;
               ret (job_failed (DeploymentResult.error result))
             else
               (* 6. Update deployment record with success *)
               Database.updateDeploymentStatus cfg tweet deployed
                 (Some (Database.StatusData.mk
                          (DeploymentResult.tokenAddress result)
                          (DeploymentResult.poolId result)
                          (DeploymentResult.txHash result)
                          None)) ;;;
               emit (EvStatus tweet deployed) ;;;
               (* 7. Post success reply *)
               ReplyPublisher.postSuccess tweet ;;;
               ret (job_deployed (DeploymentResult.tokenAddress result)
                                 (DeploymentResult.poolId result)
                                 (DeploymentResult.txHash result))
       end)
    (fun error =>
       (* Update database if we have a deployment record *)
       try_catch
         (Database.updateDeploymentStatus cfg tweet failed
            (Some (Database.StatusData.mk None None None
                     (if instanceofError error then message error
                      else Some "Unknown error"))) ;;;
          emit (EvStatus tweet failed))
         (fun dbError => ret tt) ;;;
       throw error).

(** The options of the BullMQ worker that drains the queue. *)
Record WorkerOptions : Type := mkWorkerOptions {
  concurrency : nat;
  limiter_max : nat;
  limiter_duration : Z
}.

Definition deploymentWorker_options : WorkerOptions :=
  mkWorkerOptions 1 10 60000.

End Worker.

(* ===================================================================== *)
(** ** Regular expressions, as [String.prototype.match] runs them *)
(* ===================================================================== *)

Module Regex.

Inductive re : Type :=
| Eps
| Chr (p : ascii -> bool)
| Seq (a b : re)
| Alt (a b : re)
| Star (greedy : bool) (a : re)
| Group (i : nat) (a : re)
| Eos.

Definition caps : Type := list (nat * string).

(** The part of [s] consumed when [s'] is what remains of it. *)
Definition taken (s s' : string) : string :=
  String.substring 0 (String.length s - String.length s') s.

(** Backtracking matcher in continuation-passing style: [k] is what has to
    match after [r]. Alternatives are tried in priority order, a greedy
    quantifier tries one more iteration first, a lazy one tries to stop
    first. *)
Fixpoint run_re (r : re) (s : string) (c : caps)
  (k : string -> caps -> option caps) {struct r} : option caps :=
  match r with
  | Eps => k s c
  | Chr p =>
      match s with
      | String a s' => if p a then k s' c else None
      | EmptyString => None
      end
  | Seq a b => run_re a s c (fun s' c' => run_re b s' c' k)
  | Alt a b =>
      match run_re a s c k with
      | Some x => Some x
      | None => run_re b s c k
      end
  | Star greedy a =>
      (fix star (n : nat) (s : string) (c : caps) {struct n} : option caps :=
         match n with
         | O => k s c
         | S n' =>
             let more :=
               run_re a s c
                 (fun s' c' =>
                    if (String.length s' <? String.length s)%nat
                    then star n' s' c' else None) in
             if greedy then
               match more with Some x => Some x | None => k s c end
             else
               match k s c with Some x => Some x | None => more end
         end) (String.length s) s c
  | Group i a => run_re a s c (fun s' c' => k s' ((i, taken s s') :: c'))
  | Eos =>
      match s with
      | EmptyString => k s c
      | String _ _ => None
      end
  end.

Definition match_here (r : re) (s : string) : option caps :=
  run_re r s [] (fun _ c => Some c).

(** [s.match(r)] for a pattern without the [g] flag: the leftmost match. *)
Fixpoint exec (r : re) (s : string) : option caps :=
  match match_here r s with
  | Some c => Some c
  | None =>
      match s with
      | EmptyString => None
      | String _ s' => exec r s'
      end
  end.

(** [m[i]] of a successful match. *)
Fixpoint group (i : nat) (c : caps) : string :=
  match c with
  | [] => ""
  | (j, v) :: c' => if (i =? j)%nat then v else group i c'
  end.

Definition Plus (greedy : bool) (a : re) : re := Seq a (Star greedy a).

(** A literal character under the [i] flag. *)
Definition chr_i (x : ascii) : re :=
  Chr (fun c => Ascii.eqb (Js.lower_char c) (Js.lower_char x)).

(** A literal under the [i] flag. *)
Fixpoint lit_i (s : string) : re :=
  match s with
  | EmptyString => Eps
  | String x r => Seq (chr_i x) (lit_i r)
  end.

Definition is_char (x : ascii) (c : ascii) : bool := Ascii.eqb c x.

Definition space : re := Chr Js.is_space.
Definition non_space : re := Chr (fun c => negb (Js.is_space c)).
Definition word : re := Chr Js.is_word.
Definition dot : re := Chr (fun c => negb (Js.is_line_terminator c)).

End Regex.

(* ===================================================================== *)
(** ** services/CommandParser.ts *)
(* ===================================================================== *)

Module CommandParser.

Import Regex.

Definition is_alnum (c : ascii) : bool :=
  Js.is_upper c || Js.is_lower c || Js.is_digit c.

(** The class [[A-Za-z0-9\s\-_.]] *)
Definition is_name_char (c : ascii) : bool :=
  is_alnum c || Js.is_space c ||
  is_char "-" c || is_char "_" c || is_char "." c.

(** [z.string().min(1).max(10).regex(/^[A-Z0-9]+$/i)] *)
Definition tickerSchema (s : string) : bool :=
  (1 <=? String.length s)%nat && (String.length s <=? 10)%nat &&
  bool_decide (is_Some (match_here (Seq (Plus true (Chr is_alnum)) Eos) s)).

(** [z.string().min(1).max(50).regex(/^[a-zA-Z0-9\s\-_.]+$/)] *)
Definition nameSchema (s : string) : bool :=
  (1 <=? String.length s)%nat && (String.length s <=? 50)%nat &&
  bool_decide (is_Some (match_here (Seq (Plus true (Chr is_name_char)) Eos) s)).

(** [/ticker\s*:\s*(\S+)/i] *)
Definition ticker_re : re :=
  Seq (lit_i "ticker")
    (Seq (Star true space)
       (Seq (Chr (is_char ":"))
          (Seq (Star true space)
             (Group 1 (Plus true non_space))))).

(** [/name\s*:\s*([A-Za-z0-9\s\-_.]+?)(?:\n|$)/i] *)
Definition name_re : re :=
  Seq (lit_i "name")
    (Seq (Star true space)
       (Seq (Chr (is_char ":"))
          (Seq (Star true space)
             (Seq (Group 1 (Plus false (Chr is_name_char)))
                (Alt (Chr (is_char (ascii_of_nat 10))) Eos))))).

(** [/@\w+\s+deploy\s+(\S+)\s+(.+)/i] *)
Definition simple_re : re :=
  Seq (Chr (is_char "@"))
    (Seq (Plus true word)
       (Seq (Plus true space)
          (Seq (lit_i "deploy")
             (Seq (Plus true space)
                (Seq (Group 1 (Plus true non_space))
                   (Seq (Plus true space)
                      (Group 2 (Plus true dot)))))))).

Record t : Type := mk { botUsername : string }.

(** [constructor(botUsername)] *)
Definition new (botUsername : string) : t := mk (Js.toLowerCase botUsername).

Definition nonempty (s : string) : bool := negb (String.eqb s "").

Definition parse (this : t) (text : string) : option DeployCommand :=
  (* Normalize text *)
  let normalized := Js.toLowerCase (Js.trim text) in
  (* Check for bot mention and deploy keyword *)
  if negb (Js.includes normalized ("@" ++ botUsername this))
     || negb (Js.includes normalized "deploy")
  then None
  else
    let tickerMatch := exec ticker_re text in
    let nameMatch := exec name_re text in
    let found : option (string * string) :=
      match tickerMatch, nameMatch with
      | Some tm, Some nm =>
          Some (Js.toUpperCase (Js.trim (group 1 tm)), Js.trim (group 1 nm))
      | _, _ =>
          match exec simple_re text with
          | Some sm =>
              Some (Js.toUpperCase (Js.trim (group 1 sm)), Js.trim (group 2 sm))
          | None => None
          end
      end in
    match found with
    | None => None
    | Some (ticker, name) =>
        if negb (nonempty ticker) then None
        else if negb (nonempty name) then None
        else if negb (tickerSchema ticker) then None
        else if negb (nameSchema name) then None
        else Some (mkDeployCommand ticker name)
    end.

(** [validate(command)] *)
Definition validate (command : DeployCommand) : bool :=
  tickerSchema (ticker command) && nameSchema (name command).

End CommandParser.

(* ===================================================================== *)
(** ** services/WalletService.ts *)
(* ===================================================================== *)

Module WalletService.

Import Byte.

Definition Buffer : Type := list byte.

Definition code (b : byte) : nat := nat_of_ascii (ascii_of_byte b).

Definition of_code (n : nat) : byte := byte_of_ascii (ascii_of_nat n).

Definition hex_digit (n : nat) : ascii :=
  nth n (list_ascii_of_string "0123456789abcdef") "0"%char.

Definition hex_value (c : ascii) : option nat :=
  let n := nat_of_ascii c in
  if Js.is_digit c then Some (n - 48)%nat
  else if ((97 <=? n) && (n <=? 102))%nat then Some (n - 87)%nat
  else if ((65 <=? n) && (n <=? 70))%nat then Some (n - 55)%nat
  else None.

(** [buf.toString('hex')] *)
Fixpoint toString_hex (buf : Buffer) : string :=
  match buf with
  | [] => ""
  | b :: r =>
      String (hex_digit (code b / 16))
        (String (hex_digit (code b mod 16)) (toString_hex r))
  end.

(** [Buffer.from(s, 'hex')]: decoding stops at the first pair that is not
    two hexadecimal digits. *)
Fixpoint from_hex (s : string) : Buffer :=
  match s with
  | String a (String b r) =>
      match hex_value a, hex_value b with
      | Some x, Some y => of_code (16 * x + y) :: from_hex r
      | _, _ => []
      end
  | _ => []
  end.

(** UTF-8 of a string whose code units are below 256. *)
Fixpoint utf8_encode (s : string) : Buffer :=
  match s with
  | EmptyString => []
  | String c r =>
      let n := nat_of_ascii c in
      if (n <? 128)%nat then of_code n :: utf8_encode r
      else of_code (192 + n / 64) :: of_code (128 + n mod 64) :: utf8_encode r
  end.

(** The decoder; a sequence that is ill-formed, or encodes a code point the
    model has no character for, is shown as [?]. *)
Fixpoint utf8_decode (buf : Buffer) : string :=
  match buf with
  | [] => ""
  | b :: r =>
      let n := code b in
      if (n <? 128)%nat then String (ascii_of_nat n) (utf8_decode r)
      else
        match r with
        | b2 :: r' =>
            let m := code b2 in
            if ((194 <=? n) && (n <=? 195) && (128 <=? m) && (m <? 192))%nat
            then String (ascii_of_nat ((n - 192) * 64 + (m - 128))) (utf8_decode r')
            else String "?"%char (utf8_decode r)
        | [] => "?"
        end
  end.

(** [s.split(c)] *)
Fixpoint split (c : ascii) (s : string) : list string :=
  match s with
  | EmptyString => [""]
  | String a r =>
      if Ascii.eqb a c then "" :: split c r
      else
        match split c r with
        | x :: xs => String a x :: xs
        | [] => [String a ""]
        end
  end.

(** [c] does not occur in [s]. *)
Fixpoint avoids (c : ascii) (s : string) : bool :=
  match s with
  | EmptyString => true
  | String a r => negb (Ascii.eqb a c) && avoids c r
  end.

Record t : Type := mk { encryptionKey : Buffer }.

(** [constructor()], reading [config.ENCRYPTION_KEY] *)
Definition new (ENCRYPTION_KEY : option string) : Res t :=
  if negb (Js.truthy ENCRYPTION_KEY) then
    Thrown (mkError true (Some "ENCRYPTION_KEY not set in environment"))
  else
    let key := from_hex (Js.or_else ENCRYPTION_KEY "") in
    if negb (length key =? 32)%nat then
      Thrown (mkError true
                (Some "ENCRYPTION_KEY must be 32 bytes (64 hex characters)"))
    else Ok (mk key).

Section Cipher.

(** Node's [crypto] with the algorithm ['aes-256-cbc']: what [update]
    followed by [final] produce from the whole input, for a key of 32 bytes
    and an initialisation vector of 16; [None] when [final] throws. *)
Variable aes_256_cbc_encrypt : Buffer -> Buffer -> Buffer -> Buffer.
Variable aes_256_cbc_decrypt : Buffer -> Buffer -> Buffer -> option Buffer.

(** [encrypt(text)]; [iv] is what [crypto.randomBytes(16)] returns. *)
Definition encrypt (this : t) (iv : Buffer) (text : string) : string :=
  let encrypted :=
    toString_hex (aes_256_cbc_encrypt (encryptionKey this) iv (utf8_encode text)) in
  toString_hex iv ++ ":" ++ encrypted.

Definition decrypt_failed : JsError :=
  mkError true (Some "Failed to decrypt data. Check ENCRYPTION_KEY.").

(** [decrypt(encryptedData)]: whatever is thrown inside is replaced by
    [decrypt_failed]. [createDecipheriv] throws for an initialisation
    vector that is not of 16 bytes, [update] for hexadecimal input of odd
    length, [final] as the cipher says. *)
Definition decrypt (this : t) (encryptedData : string) : Res string :=
  let parts := split ":" encryptedData in
  let ivHex := parts !! 0%nat in
  let encryptedText := parts !! 1%nat in
  if negb (Js.truthy ivHex) || negb (Js.truthy encryptedText) then
    Thrown decrypt_failed
  else
    let iv := from_hex (Js.or_else ivHex "") in
    if negb (length iv =? 16)%nat then Thrown decrypt_failed
    else if Nat.odd (String.length (Js.or_else encryptedText "")) then
      Thrown decrypt_failed
    else
      match aes_256_cbc_decrypt (encryptionKey this) iv
              (from_hex (Js.or_else encryptedText "")) with
      | Some plain => Ok (utf8_decode plain)
      | None => Thrown decrypt_failed
      end.

End Cipher.

(** *** Every text

    A JavaScript string is a sequence of UTF-16 code units. [encrypt] and
    [decrypt] above have the texts whose code units are below 256, which
    is what the listener gives them (a private key in hexadecimal). [Utf16]
    has every string, and [Unicode.encrypt] and [Unicode.decrypt] are the
    same two methods on them; they agree with [encrypt] and [decrypt] on the
    texts these have (lemmas [encrypt_of_string] and [decrypt_latin1]). *)
Module Utf16.

(** The code units of a string, each from 0 to 65535 ([code_units]). *)
Definition t : Type := list Z.

Definition code_units (s : t) : bool :=
  forallb (fun u => (0 <=? u) && (u <? 0x10000)) s.

(** The first and the second code unit of a surrogate pair. *)
Definition is_high (u : Z) : bool := (0xD800 <=? u) && (u <=? 0xDBFF).

Definition is_low (u : Z) : bool := (0xDC00 <=? u) && (u <=? 0xDFFF).

(** [String.prototype.isWellFormed]: no surrogate is alone. *)
Fixpoint isWellFormed (s : t) : bool :=
  match s with
  | [] => true
  | u :: r =>
      if is_high u then
        match r with
        | v :: r' => is_low v && isWellFormed r'
        | [] => false
        end
      else negb (is_low u) && isWellFormed r
  end.

(** A text of code units below 256, as a string. *)
Definition of_string (s : string) : t :=
  map (fun c => Z.of_nat (nat_of_ascii c)) (list_ascii_of_string s).

(** The UTF-8 bytes of a code point. *)
Definition scalar (cp : Z) : list Z :=
  if cp <? 0x80 then [cp]
  else if cp <? 0x800 then [0xC0 + cp / 64; 0x80 + cp mod 64]
  else if cp <? 0x10000 then
    [0xE0 + cp / 4096; 0x80 + (cp / 64) mod 64; 0x80 + cp mod 64]
  else
    [0xF0 + cp / 262144; 0x80 + (cp / 4096) mod 64;
     0x80 + (cp / 64) mod 64; 0x80 + cp mod 64].

(** The bytes Node writes for a string with the encoding ['utf8']: a
    surrogate pair is one code point, and a surrogate that is alone is
    written as U+FFFD. *)
Fixpoint bytes_of (s : t) : list Z :=
  match s with
  | [] => []
  | u :: r =>
      if is_high u then
        match r with
        | v :: r' =>
            if is_low v then
              (scalar (0x10000 + (u - 0xD800) * 1024 + (v - 0xDC00))
                 ++ bytes_of r')%list
            else (scalar 0xFFFD ++ bytes_of r)%list
        | [] => scalar 0xFFFD
        end
      else if is_low u then (scalar 0xFFFD ++ bytes_of r)%list
      else (scalar u ++ bytes_of r)%list
  end.

(** [Buffer.from(s, 'utf8')], and what [cipher.update(s, 'utf8')] reads. *)
Definition utf8_encode (s : t) : Buffer :=
  map (fun b => of_code (Z.to_nat b)) (bytes_of s).

(** The code units of a code point. *)
Definition units (cp : Z) : list Z :=
  if cp <? 0x10000 then [cp]
  else [0xD800 + (cp - 0x10000) / 1024; 0xDC00 + (cp - 0x10000) mod 1024].

Definition between (lo hi b : Z) : bool := (lo <=? b) && (b <=? hi).

(** The decoder at a first byte [b] followed by [r]; [rest] decodes what
    follows the sequence. A byte that cannot start a sequence, and a
    sequence that another byte or the end cuts short, give U+FFFD, and
    decoding goes on at the byte that did not fit. *)
Definition sequence (rest : list Z -> t) (b : Z) (r : list Z) : t :=
  if b <? 0x80 then b :: rest r
  else if between 0xC2 0xDF b then
    match r with
    | c :: r1 =>
        if between 0x80 0xBF c then
          (units ((b - 0xC0) * 64 + (c - 0x80)) ++ rest r1)%list
        else 0xFFFD :: rest r
    | [] => [0xFFFD]
    end
  else if between 0xE0 0xEF b then
    match r with
    | c :: r1 =>
        if between (if b =? 0xE0 then 0xA0 else 0x80)
                   (if b =? 0xED then 0x9F else 0xBF) c then
          match r1 with
          | c2 :: r2 =>
              if between 0x80 0xBF c2 then
                (units ((b - 0xE0) * 4096 + (c - 0x80) * 64 + (c2 - 0x80))
                   ++ rest r2)%list
              else 0xFFFD :: rest r1
          | [] => [0xFFFD]
          end
        else 0xFFFD :: rest r
    | [] => [0xFFFD]
    end
  else if between 0xF0 0xF4 b then
    match r with
    | c :: r1 =>
        if between (if b =? 0xF0 then 0x90 else 0x80)
                   (if b =? 0xF4 then 0x8F else 0xBF) c then
          match r1 with
          | c2 :: r2 =>
              if between 0x80 0xBF c2 then
                match r2 with
                | c3 :: r3 =>
                    if between 0x80 0xBF c3 then
                      (units ((b - 0xF0) * 262144 + (c - 0x80) * 4096
                              + (c2 - 0x80) * 64 + (c3 - 0x80))
                         ++ rest r3)%list
                    else 0xFFFD :: rest r2
                | [] => [0xFFFD]
                end
              else 0xFFFD :: rest r1
          | [] => [0xFFFD]
          end
        else 0xFFFD :: rest r
    | [] => [0xFFFD]
    end
  else 0xFFFD :: rest r.

Fixpoint units_of (bs : list Z) : t :=
  match bs with
  | [] => []
  | b :: r => sequence units_of b r
  end.

(** [buf.toString('utf8')], and what [decipher.update(..., 'utf8')] followed
    by [decipher.final('utf8')] write. *)
Definition utf8_decode (buf : Buffer) : t :=
  units_of (map (fun b => Z.of_nat (code b)) buf).

(** The strings whose code units are below 256, and their texts. *)
Definition latin1 (s : t) : bool := forallb (fun u => u <? 256) s.

Definition to_string (s : t) : string :=
  string_of_list_ascii (map (fun u => ascii_of_nat (Z.to_nat u)) s).

End Utf16.

Module Unicode.

Section Cipher.

Variable aes_256_cbc_encrypt : Buffer -> Buffer -> Buffer -> Buffer.
Variable aes_256_cbc_decrypt : Buffer -> Buffer -> Buffer -> option Buffer.

(** [encrypt(text)] *)
Definition encrypt (this : t) (iv : Buffer) (text : Utf16.t) : string :=
  let encrypted :=
    toString_hex (aes_256_cbc_encrypt (encryptionKey this) iv
                    (Utf16.utf8_encode text)) in
  toString_hex iv ++ ":" ++ encrypted.

(** [decrypt(encryptedData)] *)
Definition decrypt (this : t) (encryptedData : string) : Res Utf16.t :=
  let parts := split ":" encryptedData in
  let ivHex := parts !! 0%nat in
  let encryptedText := parts !! 1%nat in
  if negb (Js.truthy ivHex) || negb (Js.truthy encryptedText) then
    Thrown decrypt_failed
  else
    let iv := from_hex (Js.or_else ivHex "") in
    if negb (length iv =? 16)%nat then Thrown decrypt_failed
    else if Nat.odd (String.length (Js.or_else encryptedText "")) then
      Thrown decrypt_failed
    else
      match aes_256_cbc_decrypt (encryptionKey this) iv
              (from_hex (Js.or_else encryptedText "")) with
      | Some plain => Ok (Utf16.utf8_decode plain)
      | None => Thrown decrypt_failed
      end.

End Cipher.

End Unicode.

End WalletService.

(* ===================================================================== *)
(** ** What the store operations compute, mode by mode *)
(* ===================================================================== *)

(** Pure readings of [class Database]: what each operation answers and
    leaves behind when its query, if it sends one, is not rejected. The
    lemmas [Database_*_eq] below relate them to the operations. *)
Module Store.

(** The state once the operation has sent its query. *)
Definition sent (cfg : Config) (s : St) : St :=
  if MOCK_DB cfg then s else mkSt (db s) (S (queries s)) (trace s).

(** Whether the pool rejects the query the operation sends. *)
Definition rejection (cfg : Config) (e : Env) (s : St) : option string :=
  if MOCK_DB cfg then None else nth (queries s) (faults e) None.

Definition with_db (d : Database) (s : St) : St :=
  mkSt d (queries s) (trace s).

Definition logged (ev : Event) (s : St) : St :=
  mkSt (db s) (queries s) (trace s ++ [ev]).

Definition pg_error (msg : string) : JsError := mkError true (Some msg).

Definition exists_row (cfg : Config) (d : Database) (deployTweetId : string)
  : bool :=
  if MOCK_DB cfg then bool_decide (is_Some (mockDeployments d !! deployTweetId))
  else existsb (fun r => String.eqb (deploy_tweet_id r) deployTweetId)
               (deployments d).

Definition stored_user (cfg : Config) (d : Database) (twitterId : string)
  : option User :=
  if MOCK_DB cfg then mockUsers d !! twitterId
  else Database.select_user twitterId d.

Definition linked_wallet (cfg : Config) (d : Database) (twitterId : string)
  : option string :=
  Js.or_null (wallet_address <$> stored_user cfg d twitterId).

Definition last_attempt (cfg : Config) (d : Database) (twitterId : string)
  : option Z :=
  if MOCK_DB cfg then mockRateLimits d !! twitterId
  else last_deploy_at <$> Database.select_rate_limit twitterId d.

Definition can_deploy (cfg : Config) (d : Database) (t : Z)
  (twitterId : string) (cooldownMs : Z) : bool :=
  match last_attempt cfg d twitterId with
  | None => true
  | Some lastDeploy => cooldownMs <=? t - lastDeploy
  end.

Definition mock_row (t : Z) (p : Database.CreateParams) (d : Database)
  : Deployment :=
  mkDeployment (size (mockDeployments d) + 1)%nat
    (Database.deployTweetId p) (Database.parentTweetId p)
    (Database.deployerTwitterId p) (Database.feeRecipientTwitterId p)
    (Database.feeRecipientWallet p)
    None None None None None pending None t None None.

Definition sql_row (t : Z) (p : Database.CreateParams) (d : Database)
  : Deployment :=
  mkDeployment (S (deployments_id_seq d))
    (Database.deployTweetId p) (Database.parentTweetId p)
    (Database.deployerTwitterId p) (Database.feeRecipientTwitterId p)
    (Database.feeRecipientWallet p)
    (Some (Database.tokenName p)) (Some (Database.tokenSymbol p))
    None None None pending None t (Some t) None.

Definition created (cfg : Config) (t : Z) (p : Database.CreateParams)
  (d : Database) : Res Deployment * Database :=
  if MOCK_DB cfg then
    (Ok (mock_row t p d),
     Database.set_mockDeployments
       (<[Database.deployTweetId p := mock_row t p d]> (mockDeployments d)) d)
  else if exists_row cfg d (Database.deployTweetId p) then
    (Thrown (Database.unique_violation "unique_deploy_tweet"),
     Database.set_deployments (deployments d) (S (deployments_id_seq d)) d)
  else
    (Ok (sql_row t p d),
     Database.set_deployments (deployments d ++ [sql_row t p d])
       (S (deployments_id_seq d)) d).

Definition updated (cfg : Config) (t : Z) (deployTweetId : string)
  (st : DeploymentStatus) (data : option Database.StatusData.t)
  (d : Database) : Database :=
  if MOCK_DB cfg then
    match mockDeployments d !! deployTweetId with
    | Some r =>
        Database.set_mockDeployments
          (<[deployTweetId := Database.mock_update st data r]>
             (mockDeployments d)) d
    | None => d
    end
  else
    Database.set_deployments
      (map (fun r => if String.eqb (deploy_tweet_id r) deployTweetId
                     then Database.sql_update t st data r else r)
           (deployments d))
      (deployments_id_seq d) d.

Definition attempted (cfg : Config) (t : Z) (twitterId : string)
  (d : Database) : Database :=
  if MOCK_DB cfg then
    Database.set_mockRateLimits (<[twitterId := t]> (mockRateLimits d)) d
  else
    Database.set_rate_limits
      (Database.upsert_rate_limit twitterId t (rate_limits d)) d.

Definition upserted (cfg : Config) (u : User) (t : Z) (d : Database)
  : Res User * Database :=
  if MOCK_DB cfg then
    (Ok u, Database.set_mockUsers (<[twitter_id u := u]> (mockUsers d)) d)
  else if Database.valid_wallet (wallet_address u) then
    (Ok u, Database.set_users (Database.upsert_row u t (users d)) d)
  else (Thrown (Database.check_violation "users" "valid_wallet"), d).

Definition same_tweet (deployTweetId : string) (r : Deployment) : bool :=
  String.eqb (deploy_tweet_id r) deployTweetId.

(** The update the configured store applies to a row. *)
Definition row_update (cfg : Config) (t : Z) (st : DeploymentStatus)
  (data : option Database.StatusData.t) (r : Deployment) : Deployment :=
  if MOCK_DB cfg then Database.mock_update st data r
  else Database.sql_update t st data r.

(** The row a successful [create] stores. *)
Definition new_row (cfg : Config) (t : Z) (p : Database.CreateParams)
  (d : Database) : Deployment :=
  if MOCK_DB cfg then mock_row t p d else sql_row t p d.

(** What [deploy] answers when it is called without a signer, as the worker
    calls it. *)
Definition unsigned_result (cfg : Config) : DeploymentResult.t :=
  if MOCK_CHAIN cfg then BlockchainDeployer.mock_result
  else DeploymentResult.mk false None None None
         (Some "Cannot read properties of undefined (reading 'address')").

(** What the rate limiter has recorded, in both stores. *)
Definition rate_store (d : Database) : gmap string Z * list RateLimitRow :=
  (mockRateLimits d, rate_limits d).

(** The number of times an event occurs in a trace. *)
Definition occurrences (ev : Event) (l : list Event) : nat :=
  length (filter (fun x => x = ev) l).

End Store.

(* ===================================================================== *)
(** ** The queue's view: jobs run one after the other *)
(* ===================================================================== *)

Module Pipeline.

(** What is stored and logged between two runs. *)
Definition World : Type := (Database * list Event)%type.

(** One delivery: the job runs to its end in its own environment; what it
    returns or throws goes to the queue layer. *)
Definition deliver (cfg : Config) (w : World) (x : Env * DeploymentJob) : World :=
  let s := snd (run (Worker.processDeploymentJob cfg (snd x)) (fst x) (fst w) (snd w)) in
  (db s, trace s).

Definition deliver_all (cfg : Config) (xs : list (Env * DeploymentJob))
  (w : World) : World :=
  fold_left (deliver cfg) xs w.

(** The row stored for a source message, in whichever store is configured. *)
Definition stored (cfg : Config) (d : Database) (deployTweetId : string)
  : option Deployment :=
  if MOCK_DB cfg then mockDeployments d !! deployTweetId
  else Database.select_deployment deployTweetId d.

(** The number of rows stored for a source message. *)
Definition rows_for (cfg : Config) (d : Database) (deployTweetId : string) : nat :=
  if MOCK_DB cfg then
    match mockDeployments d !! deployTweetId with
    | Some _ => 1%nat
    | None => 0%nat
    end
  else
    length (filter (fun r => deploy_tweet_id r = deployTweetId) (deployments d)).

(** The statuses of the specification's lifecycle that no transition
    leaves. *)
Definition terminal (s : DeploymentStatus) : bool :=
  match s with
  | deployed | failed | wallet_missing => true
  | pending | processing => false
  end.

(** Every deployment the trace records was preceded by the creation of
    its row. *)
Definition sound (cfg : Config) (w : World) : Prop :=
  forall id, In (EvDeploy id) (snd w) -> Store.exists_row cfg (fst w) id = true.

(** [CONSTRAINT unique_deploy_tweet] holds of the table. *)
Definition unique_rows (d : Database) : Prop :=
  NoDup (map deploy_tweet_id (deployments d)).

(** What the pool answers to the first query of a run. *)
Definition first_rejection (cfg : Config) (e : Env) : option string :=
  if MOCK_DB cfg then None else nth 0 (faults e) None.

End Pipeline.

(* ===================================================================== *)
(** ** The specification's words for the command parser *)
(* ===================================================================== *)

Module ParserSpec.

(** [p] is a prefix of [s], letter case aside. *)
Fixpoint prefix_ci (p s : string) : bool :=
  match p, s with
  | EmptyString, _ => true
  | String _ _, EmptyString => false
  | String a p', String b s' =>
      Ascii.eqb (Js.lower_char a) (Js.lower_char b) && prefix_ci p' s'
  end.

(** [s] contains [p] somewhere, letter case aside. *)
Fixpoint contains_ci (s p : string) : bool :=
  prefix_ci p s ||
  match s with
  | EmptyString => false
  | String _ r => contains_ci r p
  end.

(** The text mentions the bot and carries the word [deploy]. *)
Definition has_trigger (botUsername text : string) : bool :=
  contains_ci text ("@" ++ botUsername) && contains_ci text "deploy".

End ParserSpec.

(* ===================================================================== *)
(** ** The specification's words for the wallet resolver *)
(* ===================================================================== *)

Module ResolverSpec.

(** [link(identity, address)] overwrites the stored address of the identity
    and leaves its custodial key as it was. *)
Definition link_keeps_the_custodial_key : Prop :=
  forall cfg e d t twitterId walletAddress u k s',
    Store.stored_user cfg d twitterId = Some u ->
    private_key_encrypted u = Some k ->
    run (WalletResolver.link cfg twitterId walletAddress) e d t = (Ok tt, s') ->
    exists u',
      Store.stored_user cfg (db s') twitterId = Some u' /\
      wallet_address u' = Js.toLowerCase walletAddress /\
      private_key_encrypted u' = Some k.

End ResolverSpec.

(* ===================================================================== *)
(** ** Concrete runs *)
(* ===================================================================== *)

(** The mention the mock stream of the listener simulates, and the
    configurations and environments the examples run it in. *)
Module Scenario.

(** Every development flag set. *)
Definition mocked : Config := mkConfig true true true true.

(** No development flag set. *)
Definition live : Config := mkConfig false false false false.

Definition empty : Database := mkDatabase ∅ ∅ ∅ [] [] [] 0.

Definition recipient_wallet : string :=
  "0x829bcd939a5cff23553edbb31776566e9f557fba".

(** The stores once the parent author has linked a wallet. *)
Definition linked : Database :=
  mkDatabase
    {[ "987654321" := mkUser "987654321" recipient_wallet None 0 ]} ∅ ∅
    [mkUserRow (mkUser "987654321" recipient_wallet None 0) 0] [] [] 0.

(** The same, after an attempt of the requester at time 1000. *)
Definition cooling : Database :=
  mkDatabase
    {[ "987654321" := mkUser "987654321" recipient_wallet None 0 ]} ∅
    {[ "123456789" := 1000 ]}
    [mkUserRow (mkUser "987654321" recipient_wallet None 0) 0] []
    [mkRateLimitRow "123456789" 1000 1] 0.

(** The stores when the requester holds a custodial wallet. *)
Definition custodial : Database :=
  mkDatabase
    {[ "123456789" := mkUser "123456789" recipient_wallet (Some "iv:key") 0 ]}
    ∅ ∅
    [mkUserRow (mkUser "123456789" recipient_wallet (Some "iv:key") 0) 0]
    [] [] 0.

Definition other_wallet : string :=
  "0x5C952063C7FC8610FFDB798152D69F0B9550762B".

(** A launch API and a chain on which every call succeeds. *)
Definition quiet : Chain :=
  mkChain (Returns tt) (Returns ("createArg", "signature"))
          (Returns "0xabc") (Returns tt).

(** The transaction is submitted, and waiting for its receipt times out. *)
Definition receipt_times_out : Chain :=
  mkChain (Returns tt) (Returns ("createArg", "signature"))
          (Returns "0xabc") (Throws (mkError true (Some "timeout"))).

(** At time [t] the pool answers every query. *)
Definition calm (t : Z) : Env := mkEnv t [] quiet.

(** At time [t] the pool rejects the first query of the run and answers the
    following ones. *)
Definition blip (t : Z) : Env :=
  mkEnv t [Some "Connection terminated unexpectedly"] quiet.

Definition tweet : string := "1234567890".

Definition job : DeploymentJob :=
  mkDeploymentJob
    (TweetMention.mk tweet "123456789" "testuser"
       "@mybot deploy ticker: OJAS name: Ojas Narang" (Some "987654321")
       "2026-01-01T00:00:00.000Z")
    (mkDeployCommand "OJAS" "Ojas Narang")
    (ParentTweetInfo.mk "987654321" "987654321" "original_author").

Definition params : Database.CreateParams :=
  Worker.create_params job recipient_wallet.

Definition deploy_params : BlockchainDeployer.Params :=
  BlockchainDeployer.mkParams "Ojas Narang" "OJAS" (Some "") (Some "https://i")
    None None None None None.

Definition signer : BlockchainDeployer.Signer :=
  BlockchainDeployer.mkSigner recipient_wallet.

(** A stand-in for the cipher that obeys the laws assumed of AES-256-CBC (it
    frames the input with one byte), a key of 32 bytes and an initialisation
    vector of 16. *)
Definition framing_encrypt (key iv plain : WalletService.Buffer)
  : WalletService.Buffer :=
  Byte.x00 :: plain.

Definition framing_decrypt (key iv data : WalletService.Buffer)
  : option WalletService.Buffer :=
  match data with
  | [] => None
  | _ :: plain => Some plain
  end.

Definition wallet_service : WalletService.t :=
  WalletService.mk (repeat Byte.x2a 32).

Definition some_iv : WalletService.Buffer := repeat Byte.xc3 16.

End Scenario.

(* ===================================================================== *)
(** ** Invariants and observations of the stores and the trace *)
(* ===================================================================== *)

Module Invariants.

(** An address as the users table holds it: it passes [valid_wallet] and is
    in lower case. *)
Definition well_formed_address (a : string) : Prop :=
  Database.valid_wallet a = true /\ Js.toLowerCase a = a.

Definition well_formed_users (d : Database) : Prop :=
  Forall (fun r => well_formed_address (wallet_address (user r))) (users d).

(** The replies of the worker. *)
Definition is_reply (ev : Event) : bool :=
  match ev with
  | EvReplySuccess _ | EvReplyWalletRequired _ | EvReplyFailure _ _ => true
  | _ => false
  end.

(** The calls [deploy] makes to the launch API and to the chain. *)
Definition is_step (ev : Event) : bool :=
  match ev with
  | EvLogin | EvGetPayload | EvCreateToken | EvWait => true
  | _ => false
  end.

(** The columns of a row that identify the request. *)
Definition request_of (r : Deployment)
  : nat * string * string * string * string * string :=
  (id r, deploy_tweet_id r, parent_tweet_id r, deployer_twitter_id r,
   fee_recipient_twitter_id r, fee_recipient_wallet r).

(** The source message an event of the trace is about, when it is about
    one. *)
Definition subject (ev : Event) : option string :=
  match ev with
  | EvCreated tweet | EvStatus tweet _ | EvDeploy tweet
  | EvReplySuccess tweet | EvReplyWalletRequired tweet
  | EvReplyFailure tweet _ => Some tweet
  | EvAttempt _ | EvLogin | EvGetPayload | EvCreateToken | EvWait => None
  end.

End Invariants.

(* ===================================================================== *)
(** ** Further scenarios *)
(* ===================================================================== *)

Module Replay.

(** A second request of the same requester, for another source message. *)
Definition second_job : DeploymentJob :=
  mkDeploymentJob
    (TweetMention.mk "1234567899" "123456789" "testuser"
       "@mybot deploy ticker: MOON name: Moon Shot" (Some "987654321")
       "2026-01-01T00:10:00.000Z")
    (mkDeployCommand "MOON" "Moon Shot")
    (ParentTweetInfo.mk "987654321" "987654321" "original_author").

(** At time [t] the pool answers the first three queries of the run,
    rejects the fourth and answers the fifth. *)
Definition write_rejected (t : Z) : Env :=
  mkEnv t [None; None; None; Some "Connection terminated unexpectedly"; None]
    Scenario.quiet.

(** The stores once the row of [Scenario.job] has been created at time 5. *)
Definition with_row : Database :=
  snd (Store.created Scenario.live 5 Scenario.params Scenario.empty).

(** [Scenario.job] redelivered, a job for another message whose first query
    the pool rejects, and [Scenario.job] once more. *)
Definition deliveries : list (Env * DeploymentJob) :=
  [(Scenario.calm 9, Scenario.job); (Scenario.blip 10, second_job);
   (Scenario.calm 11, Scenario.job)].

End Replay.


(* ===================================================================== *)
(** ** api/walletLink.ts (second part of src/backend/scripts/push-schema.ts) *)
(* ===================================================================== *)

Module WalletLink.

(** A value of [nonceStore], the map of the pending challenges; its key is
    [`${twitterId}:${address}`]. *)
Record NonceEntry : Type := mkNonceEntry {
  nonce : string;
  expiresAt : Z
}.

Definition NonceStore : Type := gmap string NonceEntry.

(** The fields of a verified message the handler reads. *)
Record SiweData : Type := mkSiweData {
  address : string;
  data_nonce : string
}.

(** What [siweMessage.verify] resolves to; [error] is whether the [error]
    field is truthy. *)
Record SiweResponse : Type := mkSiweResponse {
  success : bool;
  data : SiweData;
  error : bool
}.

(** The siwe library, as seen by one request: the nonce [generateNonce]
    draws, what constructing and preparing the challenge message does, what
    parsing the submitted message does, and what verifying the signature
    does. *)
Record Siwe : Type := mkSiwe {
  generateNonce : string;
  prepareMessage : Outcome string;
  parseMessage : Outcome unit;
  verifySignature : Outcome SiweResponse
}.

(** The responses of the router: the status code and the body. *)
Inductive Response : Type :=
| Json400 (error : string)
| Json401 (error : string)
| Json500 (error : string)
| JsonChallenge (message nonce : string)
| JsonLinked (twitterId walletAddress : string)
| JsonStatus (walletAddress : option string) (verifiedAt : option Z).

Definition key_of (twitterId address : string) : string :=
  twitterId ++ ":" ++ address.

Definition challenge_lifetime : Z := 5 * 60 * 1000.

(** [POST /challenge]; the body fields are strings or absent. The handler
    makes no asynchronous call; [now] is what [Date.now()] returns. *)
Definition challenge (siwe : Siwe) (now : Z) (twitterId address : option string)
  (nonceStore : NonceStore) : Response * NonceStore :=
  if negb (Js.truthy twitterId) || negb (Js.truthy address) then
    (Json400 "Missing twitterId or address", nonceStore)
  else
    let twitterId := Js.or_else twitterId "" in
    let address := Js.or_else address "" in
    (* Validate address format: the pattern is the one of [valid_wallet] *)
    if negb (Database.valid_wallet address) then
      (Json400 "Invalid address format", nonceStore)
    else
      let nonce := generateNonce siwe in
      let expiresAt := now + challenge_lifetime in
      (* Store nonce *)
      let nonceStore :=
        <[key_of twitterId address := mkNonceEntry nonce expiresAt]> nonceStore in
      (* Create SIWE message *)
      match prepareMessage siwe with
      | Returns message => (JsonChallenge message nonce, nonceStore)
      | Throws _ => (Json500 "Internal server error", nonceStore)
      end.

(** [POST /verify] *)
Definition verify (cfg : Config) (siwe : Siwe)
  (message signature twitterId : option string) (nonceStore : NonceStore)
  : Async (Response * NonceStore) :=
  if negb (Js.truthy message) || negb (Js.truthy signature)
     || negb (Js.truthy twitterId)
  then ret (Json400 "Missing required fields", nonceStore)
  else
    let twitterId := Js.or_else twitterId "" in
    try_catch
      ((* Parse and verify the message *)
       external (parseMessage siwe) ;;;
       r <- external (verifySignature siwe) ;;
       if negb (success r) || error r then
         ret (Json401 "Invalid signature", nonceStore)
       else
         let address := address (data r) in
         match nonceStore !! key_of twitterId address with
         | None => ret (Json401 "Invalid or expired nonce", nonceStore)
         | Some storedNonce =>
             (* Verify nonce *)
             if negb (String.eqb (nonce storedNonce) (data_nonce (data r))) then
               ret (Json401 "Invalid or expired nonce", nonceStore)
             else
               e <- get_env ;;
               (* Check expiration *)
               if expiresAt storedNonce <? now e then
                 ret (Json401 "Challenge expired",
                      delete (key_of twitterId address) nonceStore)
               else
                 (* Link wallet to Twitter ID *)
                 user <- Database.upsertUser cfg twitterId address None ;;
                 (* Clean up nonce *)
                 ret (JsonLinked (twitter_id user) (wallet_address user),
                      delete (key_of twitterId address) nonceStore)
         end)
      (fun _ =>
         (* What was deleted before the throw stays deleted; nothing is
            deleted before a call that can throw. *)
         ret (Json500 "Internal server error", nonceStore)).

(** [GET /status/:twitterId] *)
Definition status (cfg : Config) (twitterId : string) : Async Response :=
  try_catch
    (user <- Database.getUserByTwitterId cfg twitterId ;;
     match user with
     | None => ret (JsonStatus None None)
     | Some u => ret (JsonStatus (Some (wallet_address u)) (Some (verified_at u)))
     end)
    (fun _ => ret (Json500 "Internal server error")).

End WalletLink.


(** Requests to the wallet link router. *)
Module LinkExamples.

Import WalletLink.

(** A request in which the library draws the nonce [n] and accepts the
    signature of a message for the address [a] that carries the nonce [m]. *)
Definition siwe (n a m : string) : Siwe :=
  mkSiwe n (Returns "xdeploybot.com wants you to sign in")
    (Returns tt) (Returns (mkSiweResponse true (mkSiweData a m) false)).

Definition pending : NonceStore :=
  snd (challenge (siwe "n1" "" "") 1000 (Some "987654321")
         (Some Scenario.other_wallet) ∅).

End LinkExamples.


(* ===================================================================== *)
(** ** services/XListener.ts (src/unnamed/part_006): direct messages *)
(* ===================================================================== *)

Module XListener.

Import Regex.


(** The direct messages the listener sends, by their template. *)
Inductive Dm : Type :=
| DmAlreadyHasWallet (address : string)
| DmWalletGenerated (address : string)
| DmStartFailed
| DmMissingFields
| DmNoWallet
| DmInsufficientFunds (balance : Z)
| DmDeploying (symbol : string)
| DmDeploySuccess (tokenAddress txHash : option string)
| DmDeployFailed (error : option string)
| DmError (message : option string)
| DmLinked (walletAddress : string)
| DmLinkFailed.

(** [sendDM] hands the text to the client, which never throws, or logs it
    when there is no client: the listener's handlers return the messages
    they have sent, with their recipients, in order. *)
Definition Sent : Type := list (string * Dm).

(** ethers and the RPC provider, as seen by one run: the wallet
    [ethers.Wallet.createRandom()] draws (its address and private key), the
    bytes [crypto.randomBytes(16)] draws, what [new ethers.Wallet(privateKey,
    provider)] does, and what [provider.getBalance(address)] answers, in
    wei. *)
Record Ethers : Type := mkEthers {
  createRandom : string * string;
  randomBytes : WalletService.Buffer;
  newWallet : string -> Outcome BlockchainDeployer.Signer;
  getBalance : string -> Outcome Z
}.

Definition newline : ascii := ascii_of_nat 10.

(** [parts.join(sep)] *)
Fixpoint join (sep : string) (parts : list string) : string :=
  match parts with
  | [] => ""
  | [x] => x
  | x :: rest => x ++ sep ++ join sep rest
  end.

(** [params[key] = value] on an object created by [{}], whose fields are
    strings: the map holds the object's own fields. The key [__proto__] names
    the accessor of [Object.prototype]; its setter ignores a value that is
    neither an object nor [null], so the assignment sets no field. Every
    other key names a field of the object itself. *)
Definition assign (key value : string) (params : gmap string string)
  : gmap string string :=
  if String.eqb key "__proto__" then params else <[key := value]> params.

(** The body of the loop over the lines of a deploy message: [params] is a
    plain object, assigned by key. *)
Definition parse_line (params : gmap string string) (line : string)
  : gmap string string :=
  match WalletService.split ":" line with
  | key :: parts =>
      if negb (String.eqb key "") && (0 <? length parts)%nat then
        assign (Js.toLowerCase (Js.trim key)) (Js.trim (join ":" parts)) params
      else params
  | [] => params
  end.

(** Parse params from text *)
Definition parse_params (text : string) : gmap string string :=
  fold_left parse_line (WalletService.split newline text) ∅.

(** [ethers.parseEther('0.015')] *)
Definition required_balance : Z := 15 * 10 ^ 15.



Section Handlers.

Variable aes_256_cbc_encrypt
  : WalletService.Buffer -> WalletService.Buffer -> WalletService.Buffer
    -> WalletService.Buffer.
Variable aes_256_cbc_decrypt
  : WalletService.Buffer -> WalletService.Buffer -> WalletService.Buffer
    -> option WalletService.Buffer.

Variable cfg : Config.
(** The [walletService] instance of the module. *)
Variable walletService : WalletService.t.
Variable ethers : Ethers.

Definition handleStartCommand (senderId : string) : Async Sent :=
  let generate : Async Sent :=
    let address := fst (createRandom ethers) in
    let privateKey := snd (createRandom ethers) in
    let encryptedKey :=
      WalletService.encrypt aes_256_cbc_encrypt walletService
        (randomBytes ethers) privateKey in
    Database.upsertUser cfg senderId address (Some encryptedKey) ;;;
    ret [(senderId, DmWalletGenerated address)] in
  try_catch
    (user <- Database.getUserByTwitterId cfg senderId ;;
     (* [user?.private_key_encrypted] *)
     match user with
     | Some u =>
         if Js.truthy (private_key_encrypted u) then
           ret [(senderId, DmAlreadyHasWallet (wallet_address u))]
         else generate
     | None => generate
     end)
    (fun _ => ret [(senderId, DmStartFailed)]).

(** [walletService.getWallet(encryptedPrivateKey, provider)] *)
Definition getWallet (encryptedPrivateKey : string)
  : Async BlockchainDeployer.Signer :=
  match WalletService.decrypt aes_256_cbc_decrypt walletService
          encryptedPrivateKey with
  | Ok privateKey => external (newWallet ethers privateKey)
  | Thrown x => throw x
  end.

Definition handleDeployCommand (senderId text : string) : Async Sent :=
  let params := parse_params text in
  if negb (Js.truthy (params !! "name")) || negb (Js.truthy (params !! "symbol"))
     || negb (Js.truthy (params !! "image"))
  then ret [(senderId, DmMissingFields)]
  else
    try_catch
      (user <- Database.getUserByTwitterId cfg senderId ;;
       match user with
       | None => ret [(senderId, DmNoWallet)]
       | Some u =>
           if negb (Js.truthy (private_key_encrypted u)) then
             ret [(senderId, DmNoWallet)]
           else
             wallet <- getWallet (Js.or_else (private_key_encrypted u) "") ;;
             (* Check balance *)
             balance <- external (getBalance ethers
                                    (BlockchainDeployer.address wallet)) ;;
             if balance <? required_balance then
               ret [(senderId, DmInsufficientFunds balance)]
             else
               let deploying :=
                 (senderId, DmDeploying (Js.or_else (params !! "symbol") "")) in
               result <- BlockchainDeployer.deploy cfg
                           (BlockchainDeployer.mkParams
                              (Js.or_else (params !! "name") "")
                              (Js.or_else (params !! "symbol") "")
                              (Some (Js.or_else (params !! "desc") ""))
                              (params !! "image")
                              (params !! "twitter")
                              (params !! "telegram")
                              (params !! "website")
                              None None)
                           (Some wallet) ;;
               if DeploymentResult.success result then
                 ret [deploying;
                      (senderId, DmDeploySuccess
                                   (DeploymentResult.tokenAddress result)
                                   (DeploymentResult.txHash result))]
               else
                 ret [deploying;
                      (senderId, DmDeployFailed (DeploymentResult.error result))]
       end)
      (fun error => ret [(senderId, DmError (message error))]).


End Handlers.

End XListener.


(* ===================================================================== *)
(** ** services/ParentTweetResolver.ts and the polling of
       services/XListener.ts (src/unnamed/part_006) *)
(* ===================================================================== *)

Module Polling.

(** A tweet as twitterapi.io lists it. *)
Record TwitterApiIoTweet : Type := mkTweet {
  id : string;
  text : string;
  author_id : string;
  author_userName : string;
  inReplyToId : option string;
  createdAt : string
}.

(** What [client.v2.singleTweet] resolves to, as far as the resolver reads
    it: whether [data] is there and its [author_id], and the [id] and
    [username] of the users of [includes]. *)
Record TweetLookup : Type := mkTweetLookup {
  data_author_id : option (option string);
  includes_users : list (string * option string)
}.

(** The X APIs and the queue, as seen by one run. *)
Record Api : Type := mkApi {
  getTweets : Outcome (list TwitterApiIoTweet);
  singleTweet : string -> Outcome TweetLookup;
  queue_add : DeploymentJob -> Outcome unit
}.

(** [ParentTweetResolver.resolve]: it never throws, and touches no store. *)
Definition resolve (cfg : Config) (api : Api) (tweetId : string)
  : option ParentTweetInfo.t :=
  if MOCK_X_API cfg then
    Some (ParentTweetInfo.mk tweetId "987654321" "original_author")
  else
    match singleTweet api tweetId with
    | Returns tweet =>
        match data_author_id tweet with
        | None => None
        | Some authorId =>
            if negb (Js.truthy authorId) then None
            else
              let authorId := Js.or_else authorId "" in
              let user :=
                find (fun u => String.eqb (fst u) authorId)
                     (includes_users tweet) in
              Some (ParentTweetInfo.mk tweetId authorId
                      (Js.or_else (user ≫= snd) "unknown"))
        end
    | Throws _ => None
    end.

(** The fields of the listener the polling reads and writes. *)
Record t : Type := mk {
  botUsername : string;
  commandParser : CommandParser.t;
  twitterApiIoClient : bool;
  lastSeenTweetId : option string
}.

(** [constructor()], with [config.X_BOT_USERNAME] and whether
    [config.TWITTERAPI_IO_KEY] is set. *)
Definition new (X_BOT_USERNAME : string) (TWITTERAPI_IO_KEY : bool) : t :=
  mk X_BOT_USERNAME (CommandParser.new X_BOT_USERNAME) TWITTERAPI_IO_KEY None.

Definition set_lastSeenTweetId (v : option string) (this : t) : t :=
  mk (botUsername this) (commandParser this) (twitterApiIoClient this) v.

(** Handle a tweet from twitterapi.io *)
Definition handleTwitterApiIoTweet (cfg : Config) (api : Api) (this : t)
  (tweet : TwitterApiIoTweet) : Async unit :=
  try_catch
    (let mention :=
       TweetMention.mk (id tweet) (author_id tweet) (author_userName tweet)
         (text tweet) (Js.or_null (inReplyToId tweet)) (createdAt tweet) in
     (* Parse deploy command *)
     match CommandParser.parse (commandParser this) (TweetMention.text mention) with
     | None => ret tt
     | Some command =>
         (* Determine fee recipient *)
         let self := (author_id tweet, author_userName tweet) in
         let feeRecipient :=
           match TweetMention.in_reply_to_tweet_id mention with
           | Some parent =>
               match resolve cfg api parent with
               | None => self
               | Some parentTweet =>
                   (ParentTweetInfo.author_id parentTweet,
                    ParentTweetInfo.author_username parentTweet)
               end
           | None => self
           end in
         (* Create a parentTweet-like object for the queue *)
         let parentTweet :=
           ParentTweetInfo.mk
             (Js.or_else (TweetMention.in_reply_to_tweet_id mention)
                (TweetMention.tweet_id mention))
             (fst feeRecipient) (snd feeRecipient) in
         let job := mkDeploymentJob mention command parentTweet in
         (* Queue or process directly *)
         if MOCK_QUEUE cfg then
           Worker.processDeploymentJob cfg job ;;; ret tt
         else
           external (queue_add api job)
     end)
    (fun _ => ret tt).

(** The loop of [pollTwitterApiIo] over the tweets; [lastSeen] is
    [this.lastSeenTweetId]. The comparison [tweet.id <= lastSeen] is the
    comparison of two strings. *)
Fixpoint poll_tweets (cfg : Config) (api : Api) (this : t)
  (tweets : list TwitterApiIoTweet) (lastSeen : option string)
  : Async (option string) :=
  match tweets with
  | [] => ret lastSeen
  | tweet :: rest =>
      (* Skip if we've already seen this tweet *)
      if Js.truthy lastSeen && String.leb (id tweet) (Js.or_else lastSeen "")
      then poll_tweets cfg api this rest lastSeen
      (* Must contain our bot mention *)
      else if negb (Js.includes (Js.toLowerCase (text tweet))
                      ("@" ++ Js.toLowerCase (botUsername this)))
      then poll_tweets cfg api this rest lastSeen
      else
        handleTwitterApiIoTweet cfg api this tweet ;;;
        poll_tweets cfg api this rest (Some (id tweet))
  end.

(** Poll for new tweets from twitterapi.io; it returns the listener as the
    poll leaves it. *)
Definition pollTwitterApiIo (cfg : Config) (api : Api) (this : t) : Async t :=
  if negb (twitterApiIoClient this) then ret this
  else
    tweets <- external (getTweets api) ;;
    if (length tweets =? 0)%nat then ret this
    else
      lastSeen <- poll_tweets cfg api this tweets (lastSeenTweetId this) ;;
      ret (set_lastSeenTweetId lastSeen this).

(** The tweets a poll hands to [handleTwitterApiIoTweet], in order. *)
Fixpoint handled (this : t) (tweets : list TwitterApiIoTweet)
  (lastSeen : option string) : list TwitterApiIoTweet :=
  match tweets with
  | [] => []
  | tweet :: rest =>
      if Js.truthy lastSeen && String.leb (id tweet) (Js.or_else lastSeen "")
      then handled this rest lastSeen
      else if negb (Js.includes (Js.toLowerCase (text tweet))
                      ("@" ++ Js.toLowerCase (botUsername this)))
      then handled this rest lastSeen
      else tweet :: handled this rest (Some (id tweet))
  end.

(** One call after the other. *)
Fixpoint for_each {A} (f : A -> Async unit) (l : list A) : Async unit :=
  match l with
  | [] => ret tt
  | x :: r => f x ;;; for_each f r
  end.

(** [this.lastSeenTweetId] once the tweets of [hs] have been handled. *)
Definition seen (lastSeen : option string) (hs : list TwitterApiIoTweet)
  : option string :=
  List.last (map (fun tw => Some (id tw)) hs) lastSeen.

(** The tweet mentions the bot. *)
Definition mentions_bot (this : t) (tweet : TwitterApiIoTweet) : Prop :=
  Js.includes (Js.toLowerCase (text tweet))
    ("@" ++ Js.toLowerCase (botUsername this)) = true.

End Polling.

Module PollExamples.

Import Polling.

(** A listing, newest first but for the first tweet: a deploy command, an
    older tweet, a newer command of the same author, and a tweet that does
    not mention the bot. *)
Definition listing : list TwitterApiIoTweet :=
  [mkTweet "1234567890" "@MyBot deploy ticker: OJAS
name: Ojas Narang" "123456789" "testuser" (Some "987654321")
     "2026-01-01T00:00:00.000Z";
   mkTweet "1234567880" "@mybot deploy ticker: OLD
name: Older" "123456789" "testuser" None "2025-12-31T00:00:00.000Z";
   mkTweet "1234567899" "@mybot deploy ticker: MOON
name: Moon Shot" "123456789" "testuser" None "2026-01-01T00:10:00.000Z";
   mkTweet "1234567999" "deploy ticker: NONE
name: No Mention" "555" "someone" None "2026-01-01T00:20:00.000Z"].

Definition api : Api :=
  mkApi (Returns listing)
        (fun _ => Returns (mkTweetLookup None []))
        (fun _ => Returns tt).

End PollExamples.


(* ===================================================================== *)
(** ** contracts/src/SimpleToken.sol *)
(* ===================================================================== *)

Module SimpleToken.

(** An [address] is the number it encodes; [address(0)] is [0]. *)
Definition address : Type := Z.

Definition MAX_UINT256 : Z := 2 ^ 256 - 1.

(** The values of [uint256]. *)
Definition uint256 (x : Z) : Prop := 0 <= x <= MAX_UINT256.

(** Arithmetic in an [unchecked] block. *)
Definition wrap (x : Z) : Z := x mod 2 ^ 256.

(** The storage of the contract; a mapping reads [0] where nothing was
    written. *)
Record t : Type := mk {
  name : string;
  symbol : string;
  totalSupply : Z;
  balanceOf : gmap address Z;
  allowance : gmap (address * address) Z
}.

Inductive Log : Type :=
| Transfer (from to : address) (value : Z)
| Approval (owner spender : address) (value : Z).

(** What a call does: it reverts, leaving the storage as it was, or it
    returns with the new storage and the events it emitted. *)
Inductive Result : Type :=
| Reverted (reason : string)
| Returned (value : bool) (st : t) (logs : list Log).

Definition balance (st : t) (a : address) : Z :=
  default 0 (balanceOf st !! a).

Definition allowed (st : t) (owner spender : address) : Z :=
  default 0 (allowance st !! (owner, spender)).

Definition set_balanceOf (b : gmap address Z) (st : t) : t :=
  mk (name st) (symbol st) (totalSupply st) b (allowance st).

Definition set_allowance (a : gmap (address * address) Z) (st : t) : t :=
  mk (name st) (symbol st) (totalSupply st) (balanceOf st) a.

Definition constructor (_name _symbol : string) (_totalSupply : Z)
  (_recipient : address) : t * list Log :=
  (mk _name _symbol _totalSupply {[ _recipient := _totalSupply ]} ∅,
   [Transfer 0 _recipient _totalSupply]).

Definition _transfer (st : t) (from to : address) (amount : Z) : Result :=
  if from =? 0 then Reverted "ERC20: transfer from zero address"
  else if to =? 0 then Reverted "ERC20: transfer to zero address"
  else if balance st from <? amount then Reverted "ERC20: insufficient balance"
  else
    (* unchecked *)
    let st := set_balanceOf
                (<[from := wrap (balance st from - amount)]> (balanceOf st)) st in
    let st := set_balanceOf
                (<[to := wrap (balance st to + amount)]> (balanceOf st)) st in
    Returned true st [Transfer from to amount].

Definition transfer (st : t) (sender to : address) (amount : Z) : Result :=
  _transfer st sender to amount.

Definition approve (st : t) (sender spender : address) (amount : Z) : Result :=
  Returned true
    (set_allowance (<[(sender, spender) := amount]> (allowance st)) st)
    [Approval sender spender amount].

Definition transferFrom (st : t) (sender from to : address) (amount : Z)
  : Result :=
  let currentAllowance := allowed st from sender in
  if negb (currentAllowance =? MAX_UINT256) then
    if currentAllowance <? amount then Reverted "ERC20: insufficient allowance"
    else
      (* unchecked *)
      let st := set_allowance
                  (<[(from, sender) := wrap (currentAllowance - amount)]>
                     (allowance st)) st in
      _transfer st from to amount
  else _transfer st from to amount.

(** The external functions that write, with their arguments. *)
Inductive Call : Type :=
| CallTransfer (to : address) (amount : Z)
| CallApprove (spender : address) (amount : Z)
| CallTransferFrom (from to : address) (amount : Z).

(** A message call of [sender]. *)
Definition call (st : t) (sender : address) (c : Call) : Result :=
  match c with
  | CallTransfer to amount => transfer st sender to amount
  | CallApprove spender amount => approve st sender spender amount
  | CallTransferFrom from to amount => transferFrom st sender from to amount
  end.

(** The amount of a call is a [uint256]. *)
Definition well_typed (c : Call) : Prop :=
  match c with
  | CallTransfer _ amount | CallApprove _ amount
  | CallTransferFrom _ _ amount => uint256 amount
  end.

(** The storage after a sequence of message calls; a call that reverts
    leaves it as it was. *)
Definition after (st : t) (calls : list (address * Call)) : t :=
  fold_left (fun st c =>
               match call st (fst c) (snd c) with
               | Returned _ st' _ => st'
               | Reverted _ => st
               end) calls st.

(** The sum of the values of a mapping. *)
Definition sum_of (m : gmap address Z) : Z :=
  map_fold (fun _ v acc => v + acc) 0 m.

(** The sum of all balances. *)
Definition circulating (st : t) : Z := sum_of (balanceOf st).

(** No balance is negative, and the balances add up to the total supply,
    which is a [uint256]; the allowances are [uint256] values. *)
Definition conserved (st : t) : Prop :=
  uint256 (totalSupply st) /\
  map_Forall (fun _ v => 0 <= v) (balanceOf st) /\
  circulating st = totalSupply st /\
  map_Forall (fun _ v => uint256 v) (allowance st).

End SimpleToken.


(* ===================================================================== *)
(** * Properties *)
(* ===================================================================== *)

(** ** The monad *)

Lemma bind_ok {A B} (m : Async A) (k : A -> Async B) e s a s' :
  m e s = (Ok a, s') -> bind m k e s = k a e s'.
Proof. intros H. unfold bind. now rewrite H. Qed.

Lemma bind_thrown {A B} (m : Async A) (k : A -> Async B) e s x s' :
  m e s = (Thrown x, s') -> bind m k e s = (Thrown x, s').
Proof. intros H. unfold bind. now rewrite H. Qed.

Lemma try_catch_ok {A} (m : Async A) h e s a s' :
  m e s = (Ok a, s') -> try_catch m h e s = (Ok a, s').
Proof. intros H. unfold try_catch. now rewrite H. Qed.

Lemma try_catch_thrown {A} (m : Async A) h e s x s' :
  m e s = (Thrown x, s') -> try_catch m h e s = h x e s'.
Proof. intros H. unfold try_catch. now rewrite H. Qed.

Lemma St_eta (s : St) : mkSt (db s) (queries s) (trace s) = s.
Proof. now destruct s. Qed.

Lemma Database_eta (d : Database) :
  mkDatabase (mockUsers d) (mockDeployments d) (mockRateLimits d)
             (users d) (deployments d) (rate_limits d) (deployments_id_seq d) = d.
Proof. now destruct d. Qed.

(** ** The store operations, as the readings of [Store] *)

Section StoreFacts.

Import Store.

Ltac store_eq cfg s :=
  destruct cfg as [? ? [|] ?]; destruct s as [d q t];
  unfold rejection, sent, with_db, bind, ret, get_db, get_env, put_db,
    pool_query, throw; simpl;
  try (destruct (nth q _ None)); simpl; try reflexivity.

Lemma Database_deploymentExists_eq cfg deployTweetId e s :
  Database.deploymentExists cfg deployTweetId e s =
  match rejection cfg e s with
  | Some msg => (Thrown (pg_error msg), sent cfg s)
  | None => (Ok (exists_row cfg (db s) deployTweetId), sent cfg s)
  end.
Proof. unfold Database.deploymentExists. store_eq cfg s. Qed.

Lemma Database_getWalletByTwitterId_eq cfg twitterId e s :
  Database.getWalletByTwitterId cfg twitterId e s =
  match rejection cfg e s with
  | Some msg => (Thrown (pg_error msg), sent cfg s)
  | None => (Ok (linked_wallet cfg (db s) twitterId), sent cfg s)
  end.
Proof. unfold Database.getWalletByTwitterId. store_eq cfg s. Qed.

Lemma Database_checkRateLimit_eq cfg twitterId cooldownMs e s :
  Database.checkRateLimit cfg twitterId cooldownMs e s =
  match rejection cfg e s with
  | Some msg => (Thrown (pg_error msg), sent cfg s)
  | None => (Ok (can_deploy cfg (db s) (now e) twitterId cooldownMs), sent cfg s)
  end.
Proof.
  unfold Database.checkRateLimit, can_deploy, last_attempt. store_eq cfg s.
  - now destruct (mockRateLimits d !! twitterId).
  - now destruct (Database.select_rate_limit twitterId d).
Qed.

Lemma Database_createDeployment_eq cfg params e s :
  Database.createDeployment cfg params e s =
  match rejection cfg e s with
  | Some msg => (Thrown (pg_error msg), sent cfg s)
  | None =>
      (fst (created cfg (now e) params (db s)),
       with_db (snd (created cfg (now e) params (db s))) (sent cfg s))
  end.
Proof.
  unfold Database.createDeployment, created, exists_row. store_eq cfg s.
  now destruct (existsb _ (deployments d)).
Qed.

Lemma Database_updateDeploymentStatus_eq cfg deployTweetId st data e s :
  Database.updateDeploymentStatus cfg deployTweetId st data e s =
  match rejection cfg e s with
  | Some msg => (Thrown (pg_error msg), sent cfg s)
  | None =>
      (Ok tt, with_db (updated cfg (now e) deployTweetId st data (db s))
                      (sent cfg s))
  end.
Proof.
  unfold Database.updateDeploymentStatus, updated. store_eq cfg s.
  now destruct (mockDeployments d !! deployTweetId).
Qed.

Lemma Database_recordDeployAttempt_eq cfg twitterId e s :
  Database.recordDeployAttempt cfg twitterId e s =
  match rejection cfg e s with
  | Some msg => (Thrown (pg_error msg), sent cfg s)
  | None => (Ok tt, with_db (attempted cfg (now e) twitterId (db s)) (sent cfg s))
  end.
Proof. unfold Database.recordDeployAttempt, attempted. store_eq cfg s. Qed.

Lemma Database_upsertUser_eq cfg twitterId walletAddress encryptedKey e s :
  Database.upsertUser cfg twitterId walletAddress encryptedKey e s =
  match rejection cfg e s with
  | Some msg => (Thrown (pg_error msg), sent cfg s)
  | None =>
      let u := mkUser twitterId (Js.toLowerCase walletAddress) encryptedKey
                      (now e) in
      (fst (upserted cfg u (now e) (db s)),
       with_db (snd (upserted cfg u (now e) (db s))) (sent cfg s))
  end.
Proof.
  unfold Database.upsertUser, upserted. store_eq cfg s.
  now destruct (Database.valid_wallet (Js.toLowerCase walletAddress)).
Qed.

End StoreFacts.

(** ** Reading the state *)

Section StateFacts.

Import Store.

Lemma rejection_nil cfg e s : faults e = [] -> rejection cfg e s = None.
Proof.
  intros H. unfold rejection. rewrite H.
  destruct (MOCK_DB cfg); [reflexivity|]. now destruct (queries s).
Qed.


Lemma db_sent cfg s : db (sent cfg s) = db s.
Proof. unfold sent. now destruct (MOCK_DB cfg). Qed.

Lemma trace_sent cfg s : trace (sent cfg s) = trace s.
Proof. unfold sent. now destruct (MOCK_DB cfg). Qed.

(** [getWalletByTwitterId] answers [null], never the empty string. *)
Lemma resolve_is_never_empty cfg d twitterId :
  linked_wallet cfg d twitterId <> Some "".
Proof.
  unfold linked_wallet, Js.or_null.
  destruct (wallet_address <$> stored_user cfg d twitterId) as [w|];
    cbn [Js.truthy]; [|discriminate].
  destruct (String.eqb_spec w ""); cbn [negb]; congruence.
Qed.

(** [deploy] as the worker calls it: no signer, so outside the mocked chain
    the read of [signer.address] throws inside the [try] and nothing leaves
    the process. *)
Lemma BlockchainDeployer_deploy_unsigned cfg params e s :
  BlockchainDeployer.deploy cfg params None e s = (Ok (unsigned_result cfg), s).
Proof.
  unfold BlockchainDeployer.deploy, unsigned_result.
  destruct (MOCK_CHAIN cfg); reflexivity.
Qed.

(** [deploy] never throws, touches no store, and a failure carries no
    transaction hash. *)
Lemma BlockchainDeployer_deploy_total cfg params signer e s :
  exists r s',
    BlockchainDeployer.deploy cfg params signer e s = (Ok r, s') /\
    db s' = db s /\
    (DeploymentResult.success r = false -> DeploymentResult.txHash r = None).
Proof.
  unfold BlockchainDeployer.deploy.
  destruct (MOCK_CHAIN cfg).
  - eexists _, _. split; [reflexivity|]. split; [reflexivity|]. discriminate.
  - unfold try_catch, bind, ret, throw, emit, get_env, external.
    destruct signer as [sg|]; cbn;
      [|eexists _, _; split; [reflexivity|]; split; reflexivity].
    destruct (login (chain e)) as [[]|x]; cbn;
      [|eexists _, _; split; [reflexivity|]; split; reflexivity].
    destruct (getTokenCreatePayload (chain e)) as [pl|x]; cbn;
      [|eexists _, _; split; [reflexivity|]; split; reflexivity].
    destruct (createToken (chain e)) as [h|x]; cbn;
      [|eexists _, _; split; [reflexivity|]; split; reflexivity].
    destruct (wait (chain e)) as [[]|x]; cbn;
      eexists _, _; (split; [reflexivity|]); (split; [reflexivity|]);
      try reflexivity; discriminate.
Qed.

End StateFacts.

(** ** The deployment store *)

Section DeploymentStoreFacts.

Import Store Pipeline.

Lemma row_update_status cfg t st data r :
  status (row_update cfg t st data r) = st.
Proof. unfold row_update. now destruct (MOCK_DB cfg). Qed.

Lemma row_update_tweet cfg t st data r :
  deploy_tweet_id (row_update cfg t st data r) = deploy_tweet_id r.
Proof. unfold row_update. now destruct (MOCK_DB cfg). Qed.

Lemma find_existsb {A} (p : A -> bool) l :
  existsb p l = bool_decide (is_Some (find p l)).
Proof.
  induction l as [|x l IH]; simpl; [reflexivity|].
  destruct (p x); simpl; [reflexivity|exact IH].
Qed.

Lemma find_app_fresh {A} (p : A -> bool) l x :
  existsb p l = false -> find p (l ++ [x]) = if p x then Some x else None.
Proof.
  induction l as [|y l IH]; simpl; [reflexivity|].
  destruct (p y); simpl; [discriminate|exact IH].
Qed.

Lemma find_map_same id (g : Deployment -> Deployment) l :
  (forall r, deploy_tweet_id (g r) = deploy_tweet_id r) ->
  find (same_tweet id) (map (fun r => if same_tweet id r then g r else r) l) =
  g <$> find (same_tweet id) l.
Proof.
  intros Hg. induction l as [|x l IH]; simpl; [reflexivity|].
  destruct (same_tweet id x) eqn:E.
  - unfold same_tweet at 1. rewrite Hg. fold (same_tweet id x). now rewrite E.
  - now rewrite E.
Qed.

Lemma find_map_other id id' (g : Deployment -> Deployment) l :
  id <> id' ->
  (forall r, deploy_tweet_id (g r) = deploy_tweet_id r) ->
  find (same_tweet id') (map (fun r => if same_tweet id r then g r else r) l) =
  find (same_tweet id') l.
Proof.
  intros Hne Hg. induction l as [|x l IH]; simpl; [reflexivity|].
  destruct (same_tweet id x) eqn:E.
  - apply String.eqb_eq in E.
    assert (N : same_tweet id' x = false).
    { apply String.eqb_neq. congruence. }
    unfold same_tweet at 1. rewrite Hg. fold (same_tweet id' x). now rewrite N.
  - destruct (same_tweet id' x); [reflexivity|exact IH].
Qed.

(** [exists] answers whether a row is stored. *)
Lemma exists_row_stored cfg d id :
  exists_row cfg d id = bool_decide (is_Some (stored cfg d id)).
Proof.
  unfold exists_row, stored, Database.select_deployment.
  destruct (MOCK_DB cfg); [reflexivity|]. apply find_existsb.
Qed.

Lemma exists_row_false cfg d id :
  exists_row cfg d id = false <-> stored cfg d id = None.
Proof.
  rewrite exists_row_stored. rewrite bool_decide_eq_false.
  rewrite <- eq_None_not_Some. reflexivity.
Qed.

Lemma new_row_status cfg t p d : status (new_row cfg t p d) = pending.
Proof. unfold new_row. now destruct (MOCK_DB cfg). Qed.

Lemma new_row_tx_hash cfg t p d : tx_hash (new_row cfg t p d) = None.
Proof. unfold new_row. now destruct (MOCK_DB cfg). Qed.

(** On a fresh source message [create] stores the new row, in both stores. *)
Lemma created_fresh cfg t p d :
  exists_row cfg d (Database.deployTweetId p) = false ->
  fst (created cfg t p d) = Ok (new_row cfg t p d) /\
  stored cfg (snd (created cfg t p d)) (Database.deployTweetId p) =
    Some (new_row cfg t p d).
Proof.
  intros H. unfold created, new_row, stored. rewrite H.
  unfold exists_row in H. destruct (MOCK_DB cfg); simpl.
  - split; [reflexivity|]. apply lookup_insert_eq.
  - split; [reflexivity|]. unfold Database.select_deployment; simpl.
    rewrite find_app_fresh by exact H. simpl. now rewrite String.eqb_refl.
Qed.

(** [updateStatus] rewrites the row of its source message, if there is one. *)
Lemma stored_updated cfg t id st data d :
  stored cfg (updated cfg t id st data d) id =
  row_update cfg t st data <$> stored cfg d id.
Proof.
  unfold stored, updated, row_update, Database.select_deployment.
  destruct (MOCK_DB cfg); simpl.
  - destruct (mockDeployments d !! id) as [r|] eqn:E; simpl.
    + apply lookup_insert_eq.
    + exact E.
  - apply (find_map_same id (Database.sql_update t st data)). reflexivity.
Qed.

(** and leaves the other rows alone. *)
Lemma stored_updated_other cfg t id id' st data d :
  id <> id' ->
  stored cfg (updated cfg t id st data d) id' = stored cfg d id'.
Proof.
  intros Hne. unfold stored, updated, Database.select_deployment.
  destruct (MOCK_DB cfg); simpl.
  - destruct (mockDeployments d !! id) as [r|] eqn:E; simpl; [|reflexivity].
    now apply lookup_insert_ne.
  - apply (find_map_other id id' (Database.sql_update t st data)); [exact Hne|].
    reflexivity.
Qed.

End DeploymentStoreFacts.

(** ** The rate limiter's records *)

Section RateStoreFacts.

Import Store.

Lemma rate_store_updated cfg t id st data d :
  rate_store (updated cfg t id st data d) = rate_store d.
Proof.
  unfold updated. destruct (MOCK_DB cfg); [|reflexivity].
  now destruct (mockDeployments d !! id).
Qed.

Lemma rate_store_created cfg t p d :
  rate_store (snd (created cfg t p d)) = rate_store d.
Proof.
  unfold created. destruct (MOCK_DB cfg); [reflexivity|].
  now destruct (exists_row _ d _).
Qed.

End RateStoreFacts.

Lemma trace_ext_refl (t : list Event) : t = (t ++ [])%list.
Proof. now rewrite app_nil_r. Qed.

Lemma trace_ext_snoc (x t l : list Event) a :
  x = (t ++ l)%list -> (x ++ [a] = t ++ (l ++ [a]))%list.
Proof. intros ->. now rewrite app_assoc. Qed.

(** ** Running one job *)

Ltac job_unfold :=
  cbv beta iota zeta delta
    [Worker.processDeploymentJob WalletResolver.resolve bind ret try_catch emit
     throw ReplyPublisher.postWalletRequired ReplyPublisher.postFailure
     ReplyPublisher.postSuccess run].

Ltac store_step :=
  rewrite ?Database_deploymentExists_eq, ?Database_getWalletByTwitterId_eq,
    ?Database_checkRateLimit_eq, ?Database_createDeployment_eq,
    ?Database_updateDeploymentStatus_eq, ?Database_recordDeployAttempt_eq,
    ?BlockchainDeployer_deploy_unsigned;
  cbv beta iota;
  cbn [db queries trace fst snd Store.with_db Store.logged];
  rewrite ?db_sent, ?trace_sent.

(** Follows every path of a job: each query is rejected or answered, each
    test goes either way. *)
Ltac explore :=
  repeat
    (store_step;
     match goal with
     | |- context [Store.rejection ?c ?e ?s] =>
         let R := fresh "R" in destruct (Store.rejection c e s) eqn:R
     | |- context [if Store.exists_row ?c ?d ?i then _ else _] =>
         let R := fresh "X" in destruct (Store.exists_row c d i) eqn:R
     | |- context [match Store.linked_wallet ?c ?d ?i with _ => _ end] =>
         let R := fresh "W" in destruct (Store.linked_wallet c d i) eqn:R
     | |- context [negb (Store.can_deploy ?c ?d ?t ?i ?m)] =>
         let R := fresh "L" in destruct (Store.can_deploy c d t i m) eqn:R
     | |- context [match fst (Store.created ?c ?t ?p ?d) with _ => _ end] =>
         let R := fresh "C" in destruct (fst (Store.created c t p d)) eqn:R
     | |- context [Store.unsigned_result ?c] =>
         unfold Store.unsigned_result; destruct (MOCK_CHAIN c)
     end;
     cbv beta iota;
     cbn [negb DeploymentResult.success DeploymentResult.error
          DeploymentResult.txHash DeploymentResult.tokenAddress
          DeploymentResult.poolId BlockchainDeployer.mock_result]).

(** Brings the final state of a path to the form [t ++ l]. *)
Ltac settle :=
  repeat (progress (cbn [fst snd trace db Store.with_db Store.logged];
                    rewrite ?db_sent, ?trace_sent)).

Section JobFacts.

Import Store Pipeline.

Variable cfg : Config.
Variable data : DeploymentJob.

Let tweet : string := TweetMention.tweet_id (mention data).
Let requester : string := TweetMention.author_id (mention data).
Let recipient : string := ParentTweetInfo.author_id (parentTweet data).

Lemma run_deploymentExists e d t b :
  faults e = [] ->
  fst (run (Database.deploymentExists cfg tweet) e d t) = Ok b ->
  exists_row cfg d tweet = b.
Proof.
  intros Hf H. unfold run in H.
  rewrite Database_deploymentExists_eq, rejection_nil in H by exact Hf.
  simpl in H. congruence.
Qed.

Lemma run_resolve e d t w :
  faults e = [] ->
  fst (run (WalletResolver.resolve cfg recipient) e d t) = Ok w ->
  linked_wallet cfg d recipient = w.
Proof.
  intros Hf H. unfold run, WalletResolver.resolve in H.
  rewrite Database_getWalletByTwitterId_eq, rejection_nil in H by exact Hf.
  simpl in H. congruence.
Qed.

Lemma run_checkRateLimit e d t b :
  faults e = [] ->
  fst (run (Database.checkRateLimit cfg requester Worker.RATE_LIMIT_COOLDOWN_MS)
           e d t) = Ok b ->
  can_deploy cfg d (now e) requester Worker.RATE_LIMIT_COOLDOWN_MS = b.
Proof.
  intros Hf H. unfold run in H.
  rewrite Database_checkRateLimit_eq, rejection_nil in H by exact Hf.
  simpl in H. congruence.
Qed.


(** C6. A job that reaches the rate-limit check and is blocked by it returns
    the [rate_limited] outcome; the stores are left exactly as they were (no
    row created, none changed, no status written), and the only call made is
    the failure reply. *)
Theorem rate_limited_leaves_the_store_alone e d t w :
  faults e = [] ->
  fst (run (Database.deploymentExists cfg tweet) e d t) = Ok false ->
  fst (run (WalletResolver.resolve cfg recipient) e d t) = Ok (Some w) ->
  fst (run (Database.checkRateLimit cfg requester Worker.RATE_LIMIT_COOLDOWN_MS)
           e d t) = Ok false ->
  exists s,
    run (Worker.processDeploymentJob cfg data) e d t = (Ok Worker.rate_limited, s) /\
    db s = d /\
    trace s = (t ++ [EvReplyFailure tweet
                       "Rate limited. Please wait before deploying again."])%list.
Proof.
  intros Hf H1 H2 H3.
  apply run_deploymentExists in H1; [|exact Hf].
  apply run_resolve in H2; [|exact Hf].
  apply run_checkRateLimit in H3; [|exact Hf].
  job_unfold. fold tweet requester recipient.
  store_step. rewrite rejection_nil by exact Hf. store_step. rewrite H1.
  store_step. rewrite rejection_nil by exact Hf. store_step. rewrite H2.
  store_step. rewrite rejection_nil by exact Hf. store_step. rewrite H3.
  store_step.
  eexists. split; [reflexivity|]. cbn [db trace].
  rewrite ?db_sent, ?trace_sent. split; reflexivity.
Qed.

(** C10. In every run, whatever the pool and the chain do: an attempt is
    recorded for the requester only, only when the fee recipient's wallet
    resolved and the rate-limit check passed, and only after the creation of
    the row and its move to [processing]; a run in which no attempt is
    recorded leaves the rate limiter's records as they were; and the runs that
    end in the [wallet_missing] or the [rate_limited] outcome record none. *)
Theorem attempt_recorded_only_on_the_deploy_path e d t :
  let rs := run (Worker.processDeploymentJob cfg data) e d t in
  exists l,
    trace (snd rs) = (t ++ l)%list /\
    (forall u, In (EvAttempt u) l ->
       u = requester /\
       (exists w, linked_wallet cfg d recipient = Some w) /\
       can_deploy cfg d (now e) requester Worker.RATE_LIMIT_COOLDOWN_MS = true /\
       exists l', l = EvCreated tweet :: EvStatus tweet processing
                      :: EvAttempt requester :: l') /\
    (~ In (EvAttempt requester) l -> rate_store (db (snd rs)) = rate_store d) /\
    (fst rs = Ok Worker.job_wallet_missing \/ fst rs = Ok Worker.rate_limited ->
     ~ In (EvAttempt requester) l).
Proof.
  intros rs. subst rs.
  job_unfold. fold tweet requester recipient.
  explore.
  all: settle.
  all: eexists; split; [repeat apply trace_ext_snoc; apply trace_ext_refl|].
  all: cbn [app]; split; [|split].
  all: try (intros u Hu; cbn [In] in Hu;
            repeat (destruct Hu as [Hu|Hu]; [try discriminate Hu|]);
            first [ contradiction
                  | injection Hu as <-;
                    split; [reflexivity
                           |split; [eauto
                                   |split; [reflexivity|eexists; reflexivity]]] ]).
  all: try (intros Hn; first
         [ rewrite ?rate_store_updated, ?rate_store_created; reflexivity
         | exfalso; apply Hn; cbn [In]; tauto ]).
  all: intros [H|H]; try discriminate H; intros Hu; cbn [In] in Hu;
       repeat (destruct Hu as [Hu|Hu]; [discriminate Hu|]); contradiction.
Qed.

End JobFacts.

Section JobExamples.

Import Store Pipeline Scenario.


Lemma rate_limited_leaves_the_store_alone_witness :
  faults (calm 2000) = [] /\
  fst (run (Database.deploymentExists mocked tweet) (calm 2000) cooling [])
    = Ok false /\
  fst (run (WalletResolver.resolve mocked "987654321") (calm 2000) cooling [])
    = Ok (Some recipient_wallet) /\
  fst (run (Database.checkRateLimit mocked "123456789"
              Worker.RATE_LIMIT_COOLDOWN_MS) (calm 2000) cooling [])
    = Ok false /\
  exists s,
    run (Worker.processDeploymentJob mocked job) (calm 2000) cooling []
      = (Ok Worker.rate_limited, s) /\
    db s = cooling /\
    trace s = [EvReplyFailure tweet
                 "Rate limited. Please wait before deploying again."].
Proof.
  split; [reflexivity|]. split; [reflexivity|]. split; [reflexivity|].
  split; [reflexivity|].
  apply (rate_limited_leaves_the_store_alone
           mocked job (calm 2000) cooling [] recipient_wallet); reflexivity.
Defined.

End JobExamples.

(** ** Concrete runs of the store, the worker and the deployer *)

Section Runs.

Import Store Pipeline Scenario.

(** C1. With the in-memory store, creating the deployment of a source
    message a second time signals nothing: the call returns a row, and the row
    that had reached [deployed] is replaced by a fresh [pending] one. One row
    is stored for the message before and after. *)
Theorem in_memory_create_twice_replaces_the_row :
  let s1 :=
    snd (run (Database.createDeployment mocked params ;;;
              Database.updateDeploymentStatus mocked tweet deployed
                (Some (Database.StatusData.mk (Some "0xt") (Some "0xp")
                         (Some "0xh") None)))
             (calm 1000) empty []) in
  let r2 := run (Database.createDeployment mocked params) (calm 2000) (db s1) [] in
  status <$> stored mocked (db s1) tweet = Some deployed /\
  rows_for mocked (db s1) tweet = 1%nat /\
  (exists row, fst r2 = Ok row /\ status row = pending) /\
  status <$> stored mocked (db (snd r2)) tweet = Some pending /\
  tx_hash <$> stored mocked (db (snd r2)) tweet = Some None /\
  rows_for mocked (db (snd r2)) tweet = 1%nat.
Proof.
  vm_compute. repeat split; eauto.
Qed.

(** C2. A terminal status is overwritten when the job of a stored source
    message is delivered again and the pool rejects the existence check: the
    handler of the worker then writes [failed]. With the SQL store and no
    development flag, the job of a fee recipient without a wallet leaves the
    row at [wallet_missing]; delivered again with the first query rejected,
    it throws the error of the pool and leaves the row at [failed], with the
    message of that error. *)
Theorem rejected_check_overwrites_a_terminal_status :
  let w1 := deliver live (empty, []) (calm 1000, job) in
  let r2 := run (Worker.processDeploymentJob live job) (blip 2000)
              (fst w1) (snd w1) in
  let w2 := deliver live w1 (blip 2000, job) in
  status <$> stored live (fst w1) tweet = Some wallet_missing /\
  terminal wallet_missing = true /\
  fst r2 = Thrown (pg_error "Connection terminated unexpectedly") /\
  status <$> stored live (fst w2) tweet = Some failed /\
  error_message <$> stored live (fst w2) tweet
    = Some (Some "Connection terminated unexpectedly").
Proof.
  vm_compute. repeat split; reflexivity.
Qed.

(** C4. When the transaction has been submitted and waiting for its receipt
    throws, [deploy] returns a failure [r] that carries the message and no
    transaction hash, so what the failure branch of the worker writes from
    [r] ([txHash: result.txHash], [errorMessage: result.error]) leaves
    [tx_hash] empty. The worker itself passes no signer: without the mocked
    chain its job fails before the first step, and the row ends [failed] with
    the message of that failure and no hash. *)
Theorem failure_after_submission_loses_the_hash :
  let rs := run (BlockchainDeployer.deploy live deploy_params (Some signer))
                (mkEnv 1000 [] receipt_times_out) empty [] in
  let r := DeploymentResult.mk false None None None (Some "timeout") in
  let written :=
    db (snd (run (Database.createDeployment live params ;;;
                  Database.updateDeploymentStatus live tweet processing None ;;;
                  Database.updateDeploymentStatus live tweet failed
                    (Some (Database.StatusData.mk None None
                             (DeploymentResult.txHash r)
                             (DeploymentResult.error r))))
                 (calm 1000) empty [])) in
  let w := deliver live (linked, []) (calm 1000, job) in
  fst rs = Ok r /\
  trace (snd rs) = [EvLogin; EvGetPayload; EvCreateToken; EvWait] /\
  status <$> stored live written tweet = Some failed /\
  tx_hash <$> stored live written tweet = Some None /\
  error_message <$> stored live written tweet = Some (Some "timeout") /\
  status <$> stored live (fst w) tweet = Some failed /\
  tx_hash <$> stored live (fst w) tweet = Some None /\
  error_message <$> stored live (fst w) tweet =
    Some (Some "Cannot read properties of undefined (reading 'address')").
Proof.
  vm_compute. repeat split; reflexivity.
Qed.

End Runs.

(** ** The wallet resolver *)

Section ResolverFacts.

Import Store Scenario.

Lemma select_upsert u t rows :
  user <$> find (fun r => String.eqb (twitter_id (user r)) (twitter_id u))
             (Database.upsert_row u t rows) = Some u.
Proof.
  unfold Database.upsert_row.
  destruct (existsb _ rows) eqn:E.
  - induction rows as [|x rows IH]; simpl in *; [discriminate|].
    destruct (String.eqb (twitter_id (user x)) (twitter_id u)) eqn:Ex; simpl.
    + now rewrite String.eqb_refl.
    + rewrite Ex. apply IH. exact E.
  - rewrite find_app_fresh by exact E. simpl. now rewrite String.eqb_refl.
Qed.

(** C5, as the code has it. When [link] returns, the identity is stored with
    the given address in lower case, the time of the call, and no custodial
    key: a key stored before is erased. *)
Theorem link_stores_the_address_and_erases_the_key
  cfg e d t twitterId walletAddress s' :
  run (WalletResolver.link cfg twitterId walletAddress) e d t = (Ok tt, s') ->
  stored_user cfg (db s') twitterId =
    Some (mkUser twitterId (Js.toLowerCase walletAddress) None (now e)).
Proof.
  unfold run, WalletResolver.link, bind, ret.
  rewrite Database_upsertUser_eq.
  destruct (rejection cfg e _); [discriminate|]. cbv zeta.
  unfold upserted, stored_user.
  destruct (MOCK_DB cfg); cbn [fst snd twitter_id wallet_address].
  - intros [= <-]. cbn [db with_db]. unfold Database.set_mockUsers; simpl.
    apply lookup_insert_eq.
  - destruct (Database.valid_wallet _); cbn [fst snd]; [|discriminate].
    intros [= <-]. cbn [db with_db]. unfold Database.select_user; simpl.
    apply (select_upsert (mkUser twitterId (Js.toLowerCase walletAddress)
                            None (now e))).
Qed.

Lemma link_stores_the_address_and_erases_the_key_witness :
  let rs := run (WalletResolver.link live "123456789" other_wallet)
                (calm 1000) custodial [] in
  rs = (Ok tt, snd rs) /\
  stored_user live (db (snd rs)) "123456789" =
    Some (mkUser "123456789" (Js.toLowerCase other_wallet) None 1000).
Proof.
  split; [reflexivity|].
  apply (link_stores_the_address_and_erases_the_key
           live (calm 1000) custodial [] "123456789" other_wallet).
  reflexivity.
Defined.

(** C5, as the specification words it, fails: linking an external address
    to an identity that holds a custodial wallet erases the stored key, in
    the in-memory store and in the SQL store alike. *)
Lemma link_erases_a_stored_custodial_key :
  ~ ResolverSpec.link_keeps_the_custodial_key.
Proof.
  intros H.
  destruct (H mocked (calm 1000) custodial [] "123456789" other_wallet
              (mkUser "123456789" recipient_wallet (Some "iv:key") 0) "iv:key"
              (snd (run (WalletResolver.link mocked "123456789" other_wallet)
                        (calm 1000) custodial [])))
    as (u' & Hu & _ & Hk); [reflexivity|reflexivity|reflexivity|].
  vm_compute in Hu. injection Hu as <-. discriminate Hk.
Qed.

End ResolverFacts.

(** ** The command parser *)

Section ParserFacts.

Import ParserSpec.

Lemma lower_char_idem c : Js.lower_char (Js.lower_char c) = Js.lower_char c.
Proof. destruct c as [[] [] [] [] [] [] [] []]; reflexivity. Qed.

Lemma toLowerCase_idem s : Js.toLowerCase (Js.toLowerCase s) = Js.toLowerCase s.
Proof.
  induction s as [|c s IH]; simpl; [reflexivity|].
  now rewrite lower_char_idem, IH.
Qed.

Lemma startsWith_lower s p :
  Js.startsWith (Js.toLowerCase s) (Js.toLowerCase p) = prefix_ci p s.
Proof.
  revert s. induction p as [|b p IH]; intros [|a s]; simpl; try reflexivity.
  rewrite IH. f_equal. apply Ascii.eqb_sym.
Qed.

Lemma includes_lower s p :
  Js.includes (Js.toLowerCase s) (Js.toLowerCase p) = contains_ci s p.
Proof.
  induction s as [|a s IH]; cbn [Js.toLowerCase Js.includes contains_ci].
  - rewrite <- (startsWith_lower EmptyString p). reflexivity.
  - rewrite <- (startsWith_lower (String a s) p), IH. reflexivity.
Qed.

Lemma prefix_ci_app p a b :
  prefix_ci p a = true -> prefix_ci p (a ++ b) = true.
Proof.
  revert a. induction p as [|x p IH]; intros a H; simpl; [reflexivity|].
  destruct a as [|y a]; simpl in *; [discriminate|].
  apply andb_true_iff in H as [H1 H2]. rewrite H1. simpl. now apply IH.
Qed.

Lemma contains_ci_app_r s w p :
  contains_ci s p = true -> contains_ci (s ++ w) p = true.
Proof.
  induction s as [|a s IH]; simpl; intros H.
  - rewrite orb_false_r in H. destruct p; [|discriminate].
    destruct w; reflexivity.
  - apply orb_true_iff in H as [H|H].
    + change (String a (s ++ w)) with (String a s ++ w).
      rewrite (prefix_ci_app p (String a s) w H). reflexivity.
    + rewrite (IH H). apply orb_true_r.
Qed.

Lemma contains_ci_trimStart s p :
  contains_ci (Js.trimStart s) p = true -> contains_ci s p = true.
Proof.
  induction s as [|a s IH]; simpl; [trivial|].
  destruct (Js.is_space a); [|trivial].
  intros H. rewrite (IH H). apply orb_true_r.
Qed.

Lemma trimEnd_prefix s : exists w, s = Js.trimEnd s ++ w.
Proof.
  induction s as [|a s [w IH]]; simpl; [now exists EmptyString|].
  destruct (Js.trimEnd s) as [|b r] eqn:E.
  - destruct (Js.is_space a).
    + now exists (String a s).
    + exists s. reflexivity.
  - exists w. rewrite IH at 1. reflexivity.
Qed.

Lemma contains_ci_trim s p :
  contains_ci (Js.trim s) p = true -> contains_ci s p = true.
Proof.
  unfold Js.trim. intros H. apply contains_ci_trimStart.
  destruct (trimEnd_prefix (Js.trimStart s)) as [w E].
  rewrite E. now apply contains_ci_app_r.
Qed.

(** What the guard of [parse] tests, in the words of the specification. *)
Lemma parse_guard text p :
  Js.includes (Js.toLowerCase (Js.trim text)) (Js.toLowerCase p) = true ->
  contains_ci text p = true.
Proof. rewrite includes_lower. apply contains_ci_trim. Qed.

(** C8. A text that does not contain both the mention of the bot and the
    word [deploy], letter case aside, is parsed to [null]. *)
Theorem parse_needs_the_mention_and_the_keyword botUsername text :
  has_trigger botUsername text = false ->
  CommandParser.parse (CommandParser.new botUsername) text = None.
Proof.
  intros H. unfold CommandParser.parse, CommandParser.new.
  cbn [CommandParser.botUsername].
  destruct (Js.includes _ ("@" ++ Js.toLowerCase botUsername)) eqn:E1;
    [|reflexivity].
  destruct (Js.includes _ "deploy") eqn:E2; [|reflexivity].
  exfalso.
  assert (T1 : contains_ci text ("@" ++ botUsername) = true).
  { apply parse_guard. cbn [Js.toLowerCase]. exact E1. }
  assert (T2 : contains_ci text "deploy" = true).
  { apply parse_guard. exact E2. }
  unfold has_trigger in H. rewrite T1, T2 in H. discriminate.
Qed.

Lemma parse_needs_the_mention_and_the_keyword_witness :
  has_trigger "MyBot" "@MyBot hello ticker: TEST name: Test Token" = false /\
  CommandParser.parse (CommandParser.new "MyBot")
    "@MyBot hello ticker: TEST name: Test Token" = None.
Proof.
  split; [reflexivity|].
  apply (parse_needs_the_mention_and_the_keyword "MyBot"). reflexivity.
Defined.

End ParserFacts.

(** ** The wallet service *)

Section WalletServiceFacts.

Import WalletService.

Lemma from_hex_byte b r :
  from_hex (String (hex_digit (code b / 16))
              (String (hex_digit (code b mod 16)) r)) = b :: from_hex r.
Proof. destruct b; reflexivity. Qed.

(** Decoding the hexadecimal form of a buffer gives the buffer back. *)
Lemma from_hex_toString_hex buf : from_hex (toString_hex buf) = buf.
Proof.
  induction buf as [|b buf IH]; [reflexivity|].
  cbn [toString_hex]. rewrite from_hex_byte. now rewrite IH.
Qed.

Lemma avoids_colon_byte b r :
  avoids ":" (String (hex_digit (code b / 16))
                (String (hex_digit (code b mod 16)) r)) = avoids ":" r.
Proof. destruct b; reflexivity. Qed.

(** The hexadecimal form of a buffer holds no colon. *)
Lemma toString_hex_avoids_colon buf : avoids ":" (toString_hex buf) = true.
Proof.
  induction buf as [|b buf IH]; [reflexivity|].
  cbn [toString_hex]. now rewrite avoids_colon_byte.
Qed.

Lemma split_avoids c s : avoids c s = true -> split c s = [s].
Proof.
  induction s as [|a s IH]; simpl; [reflexivity|].
  intros H. apply andb_true_iff in H as [H1 H2].
  apply negb_true_iff in H1. rewrite H1. now rewrite (IH H2).
Qed.

Lemma split_at c a b :
  avoids c a = true -> split c (a ++ String c b) = a :: split c b.
Proof.
  induction a as [|x a IH]; simpl; intros H.
  - now rewrite Ascii.eqb_refl.
  - apply andb_true_iff in H as [H1 H2].
    apply negb_true_iff in H1. rewrite H1. now rewrite (IH H2).
Qed.




(** The hexadecimal form of a buffer has two digits for each byte. *)
Lemma toString_hex_even buf : Nat.odd (String.length (toString_hex buf)) = false.
Proof.
  induction buf as [|b buf IH]; [reflexivity|].
  cbn [toString_hex String.length]. now rewrite Nat.odd_succ_succ.
Qed.

Lemma toString_hex_truthy buf : buf <> [] -> Js.truthy (Some (toString_hex buf)) = true.
Proof. destruct buf as [|b buf]; [congruence|reflexivity]. Qed.

Variable aes_256_cbc_encrypt : Buffer -> Buffer -> Buffer -> Buffer.
Variable aes_256_cbc_decrypt : Buffer -> Buffer -> Buffer -> option Buffer.


End WalletServiceFacts.


(** ** The wallet service, for every text *)

Section Utf16Facts.

Import WalletService Utf16.

Local Open Scope list_scope.

Lemma split64 n : n = 64 * (n / 64) + n mod 64 /\ 0 <= n mod 64 < 64.
Proof. split; [apply Z.div_mod; lia|apply Z.mod_pos_bound; lia]. Qed.

Lemma div_4096 n : n / 4096 = n / 64 / 64.
Proof. rewrite Z.div_div by lia. reflexivity. Qed.

Lemma div_262144 n : n / 262144 = n / 64 / 64 / 64.
Proof. rewrite !Z.div_div by lia. reflexivity. Qed.

(** Names the base-64 digits of [n] in the goal and keeps their equations. *)
Ltac digits n :=
  rewrite ?(div_4096 n), ?(div_262144 n);
  let E := fresh "E" in let B := fresh "B" in
  destruct (split64 n) as [E B];
  let E' := fresh "E" in let B' := fresh "B" in
  destruct (split64 (n / 64)) as [E' B'];
  let E'' := fresh "E" in let B'' := fresh "B" in
  destruct (split64 (n / 64 / 64)) as [E'' B''];
  generalize dependent (n mod 64);
  generalize dependent ((n / 64) mod 64);
  generalize dependent ((n / 64 / 64) mod 64);
  generalize dependent (n / 64 / 64 / 64);
  generalize dependent (n / 64 / 64);
  generalize dependent (n / 64);
  intros.

Ltac holds :=
  first [ apply Z.ltb_lt; lia | apply Z.leb_le; lia | apply Z.eqb_eq; lia
        | apply andb_true_intro; split; apply Z.leb_le; lia ].

Ltac fails :=
  first [ apply Z.ltb_ge; lia | apply Z.leb_gt; lia | apply Z.eqb_neq; lia
        | apply andb_false_iff;
          first [left; apply Z.leb_gt; lia | right; apply Z.leb_gt; lia] ].

Ltac decide_test c :=
  first [ replace c with true by (symmetry; unfold between; holds)
        | replace c with false by (symmetry; unfold between; fails) ];
  cbv iota.

(** Decides the test at the head of the left-hand side. *)
Ltac head :=
  match goal with
  | |- (if ?c then _ else _) = _ => decide_test c
  end.

Ltac anywhere :=
  repeat match goal with
  | |- context [if ?c then _ else _] => decide_test c
  end.

Lemma units_of_scalar cp r :
  0 <= cp < 0xD800 \/ 0xE000 <= cp < 0x110000 ->
  units_of (scalar cp ++ r) = units cp ++ units_of r.
Proof.
  intros H. unfold scalar.
  destruct (Z.ltb_spec cp 0x80); [|destruct (Z.ltb_spec cp 0x800);
    [|destruct (Z.ltb_spec cp 0x10000)]].
  all: cbn [app units_of]; unfold sequence, units; digits cp.
  - repeat head. anywhere. reflexivity.
  - repeat head. anywhere. cbn [app]. f_equal. lia.
  - repeat head.
    destruct (Z.eqb_spec (0xE0 + z0) 0xE0);
    destruct (Z.eqb_spec (0xE0 + z0) 0xED); repeat head; anywhere;
      cbn [app]; try lia; f_equal; lia.
  - repeat head.
    destruct (Z.eqb_spec (0xF0 + z1) 0xF0);
    destruct (Z.eqb_spec (0xF0 + z1) 0xF4); repeat head; anywhere; cbn [app].
    all: try lia.
    all: match goal with
         | |- (_ + ?x / 1024 :: _) = _ => replace x with (cp - 65536) by lia
         end; reflexivity.
Qed.

Lemma is_high_spec u : is_high u = true <-> 0xD800 <= u <= 0xDBFF.
Proof. unfold is_high. rewrite andb_true_iff, !Z.leb_le. reflexivity. Qed.

Lemma is_low_spec u : is_low u = true <-> 0xDC00 <= u <= 0xDFFF.
Proof. unfold is_low. rewrite andb_true_iff, !Z.leb_le. reflexivity. Qed.

Lemma is_high_false u : is_high u = false <-> u < 0xD800 \/ 0xDBFF < u.
Proof. unfold is_high. rewrite andb_false_iff, !Z.leb_gt. reflexivity. Qed.

Lemma is_low_false u : is_low u = false <-> u < 0xDC00 \/ 0xDFFF < u.
Proof. unfold is_low. rewrite andb_false_iff, !Z.leb_gt. reflexivity. Qed.

Lemma units_pair u v :
  is_high u = true -> is_low v = true ->
  units (0x10000 + (u - 0xD800) * 1024 + (v - 0xDC00)) = [u; v].
Proof.
  rewrite is_high_spec, is_low_spec. intros Hu Hv. unfold units.
  replace (0x10000 + (u - 0xD800) * 1024 + (v - 0xDC00) <? 0x10000) with false
    by (symmetry; apply Z.ltb_ge; lia).
  replace (0x10000 + (u - 0xD800) * 1024 + (v - 0xDC00) - 0x10000)
    with ((v - 0xDC00) + (u - 0xD800) * 1024) by lia.
  rewrite Z.div_add, Z.mod_add by lia.
  rewrite Z.div_small, Z.mod_small by lia. f_equal; [lia|f_equal; lia].
Qed.

(** Decoding the UTF-8 form of a well-formed string gives the string back. *)
Lemma units_of_bytes_of s :
  code_units s = true -> isWellFormed s = true -> units_of (bytes_of s) = s.
Proof.
  remember (length s) as n eqn:L.
  revert s L. induction (lt_wf n) as [n _ IH]. intros s -> Hc Hw.
  destruct s as [|u r]; [reflexivity|].
  cbn [code_units forallb] in Hc. apply andb_true_iff in Hc as [Hu Hc].
  apply andb_true_iff in Hu as [U1 U2]. apply Z.leb_le in U1. apply Z.ltb_lt in U2.
  cbn [isWellFormed bytes_of] in *.
  destruct (is_high u) eqn:Hh.
  - destruct r as [|v r']; [discriminate|].
    apply andb_true_iff in Hw as [Hl Hw]. rewrite Hl.
    cbn [forallb] in Hc. apply andb_true_iff in Hc as [_ Hc].
    rewrite units_of_scalar, units_pair by
      (try assumption; apply is_high_spec in Hh; apply is_low_spec in Hl; lia).
    cbn [app]. do 2 f_equal.
    apply (IH (length r')); [cbn [length]; lia|reflexivity|exact Hc|exact Hw].
  - apply andb_true_iff in Hw as [Hl Hw]. apply negb_true_iff in Hl. rewrite Hl.
    rewrite units_of_scalar
      by (apply is_high_false in Hh; apply is_low_false in Hl; lia).
    unfold units. replace (u <? 0x10000) with true by (symmetry; apply Z.ltb_lt; lia).
    cbn [app]. f_equal.
    apply (IH (length r)); [cbn [length]; lia|reflexivity|exact Hc|exact Hw].
Qed.

Definition is_byte (b : Z) : Prop := 0 <= b < 256.

Lemma scalar_bytes cp : 0 <= cp < 0x110000 -> Forall is_byte (scalar cp).
Proof.
  intros H. unfold scalar, is_byte.
  destruct (Z.ltb_spec cp 0x80); [|destruct (Z.ltb_spec cp 0x800);
    [|destruct (Z.ltb_spec cp 0x10000)]].
  all: digits cp; repeat constructor; lia.
Qed.

Lemma bytes_of_bytes s : code_units s = true -> Forall is_byte (bytes_of s).
Proof.
  remember (length s) as n eqn:L.
  revert s L. induction (lt_wf n) as [n _ IH]. intros s -> Hc.
  destruct s as [|u r]; [constructor|].
  cbn [code_units forallb] in Hc. apply andb_true_iff in Hc as [Hu Hc].
  apply andb_true_iff in Hu as [U1 U2]. apply Z.leb_le in U1. apply Z.ltb_lt in U2.
  assert (R : Forall is_byte (bytes_of r))
    by (apply (IH (length r)); [cbn [length]; lia|reflexivity|exact Hc]).
  cbn [bytes_of].
  destruct (is_high u) eqn:Hh; [|destruct (is_low u)].
  - destruct r as [|v r']; [apply scalar_bytes; lia|].
    destruct (is_low v) eqn:Hl.
    + cbn [forallb] in Hc. apply andb_true_iff in Hc as [_ Hc].
      apply Forall_app. split.
      * apply scalar_bytes. apply is_high_spec in Hh. apply is_low_spec in Hl. lia.
      * apply (IH (length r')); [cbn [length]; lia|reflexivity|exact Hc].
    + apply Forall_app. split; [apply scalar_bytes; lia|exact R].
  - apply Forall_app. split; [apply scalar_bytes; lia|exact R].
  - apply Forall_app. split; [apply scalar_bytes; lia|exact R].
Qed.

Lemma code_of_code n : (n < 256)%nat -> code (of_code n) = n.
Proof.
  intros H. unfold code, of_code.
  rewrite ascii_of_byte_of_ascii. now apply nat_ascii_embedding.
Qed.

Lemma codes_of_bytes l :
  Forall is_byte l ->
  map (fun b => Z.of_nat (code b)) (map (fun b => of_code (Z.to_nat b)) l) = l.
Proof.
  induction 1 as [|b l Hb _ IH]; [reflexivity|].
  cbn [map]. rewrite IH. f_equal. unfold is_byte in Hb.
  rewrite code_of_code by lia. lia.
Qed.

(** [buf.toString('utf8')] of [Buffer.from(s, 'utf8')] is [s] when no
    surrogate of [s] is alone. *)
Lemma utf8_decode_encode_well_formed s :
  code_units s = true -> isWellFormed s = true ->
  Utf16.utf8_decode (Utf16.utf8_encode s) = s.
Proof.
  intros Hc Hw. unfold Utf16.utf8_decode, Utf16.utf8_encode.
  rewrite codes_of_bytes by now apply bytes_of_bytes.
  now apply units_of_bytes_of.
Qed.

(** On the texts of [WalletService.encrypt], the two encoders agree. *)
Lemma utf8_encode_of_string s :
  Utf16.utf8_encode (of_string s) = WalletService.utf8_encode s.
Proof.
  induction s as [|c s IH]; [reflexivity|].
  unfold Utf16.utf8_encode, of_string in *.
  cbn [list_ascii_of_string map]. cbn [WalletService.utf8_encode].
  rewrite <- IH. clear IH.
  destruct c as [[] [] [] [] [] [] [] []]; reflexivity.
Qed.

Lemma code_lt b : (code b < 256)%nat.
Proof. unfold code. apply nat_ascii_bounded. Qed.

Lemma between_spec lo hi b : between lo hi b = true <-> lo <= b <= hi.
Proof. unfold between. rewrite andb_true_iff, !Z.leb_le. reflexivity. Qed.

Lemma latin1_cons u s : Utf16.latin1 (u :: s) = true <-> u < 256 /\ Utf16.latin1 s = true.
Proof. unfold Utf16.latin1. cbn [forallb]. rewrite andb_true_iff, Z.ltb_lt. reflexivity. Qed.

Lemma latin1_units cp s :
  Utf16.latin1 (units cp ++ s) = true -> cp < 256 /\ Utf16.latin1 s = true.
Proof.
  unfold units. destruct (Z.ltb_spec cp 0x10000) as [U|U]; cbn [app].
  - apply latin1_cons.
  - intros H. apply latin1_cons in H as [H _]. exfalso.
    pose proof (Z.div_pos (cp - 0x10000) 1024). lia.
Qed.

(** A first byte that is not ASCII gives a code unit below 256 only as the
    first of the two bytes of such a unit. *)
Lemma sequence_latin1 rest b r :
  0x80 <= b -> Utf16.latin1 (sequence rest b r) = true ->
  exists c r1, r = c :: r1 /\ 0xC2 <= b <= 0xC3 /\ 0x80 <= c <= 0xBF /\
               sequence rest b r = ((b - 0xC0) * 64 + (c - 0x80)) :: rest r1 /\
               Utf16.latin1 (rest r1) = true.
Proof.
  intros Hb. unfold sequence.
  replace (b <? 0x80) with false by (symmetry; apply Z.ltb_ge; lia).
  destruct (between 0xC2 0xDF b) eqn:B1.
  - apply between_spec in B1.
    destruct r as [|c r1]; [intros H; apply latin1_cons in H; lia|].
    destruct (between 0x80 0xBF c) eqn:B2;
      [|intros H; apply latin1_cons in H; lia].
    apply between_spec in B2. intros H.
    destruct (latin1_units _ _ H) as [H1 H2].
    exists c, r1. unfold units.
    replace ((b - 0xC0) * 64 + (c - 0x80) <? 0x10000) with true
      by (symmetry; apply Z.ltb_lt; lia).
    repeat split; try lia. exact H2.
  - intros H. exfalso.
    repeat match type of H with
    | context [match ?l with [] => _ | _ :: _ => _ end] => destruct l
    | context [if between ?x ?y ?z then _ else _] =>
        let B := fresh "B" in
        destruct (between x y z) eqn:B; [apply between_spec in B|]
    end.
    all: try (apply latin1_cons in H; lia).
    all: apply latin1_units in H as [H _].
    all: repeat match goal with
         | B : context [if ?c =? ?k then _ else _] |- _ =>
             destruct (Z.eqb_spec c k)
         end; lia.
Qed.

Lemma to_string_cons u s :
  Utf16.to_string (u :: s) = String (ascii_of_nat (Z.to_nat u)) (Utf16.to_string s).
Proof. reflexivity. Qed.

(** On a buffer that holds code units below 256 only, the two decoders
    agree. *)
Lemma utf8_decode_latin1 buf :
  Utf16.latin1 (Utf16.utf8_decode buf) = true ->
  WalletService.utf8_decode buf = Utf16.to_string (Utf16.utf8_decode buf).
Proof.
  remember (length buf) as n eqn:L.
  revert buf L. induction (lt_wf n) as [n _ IH]. intros buf ->.
  destruct buf as [|b r]; [reflexivity|].
  unfold Utf16.utf8_decode. cbn [map units_of WalletService.utf8_decode].
  pose proof (code_lt b) as Hb.
  destruct (Nat.ltb_spec (code b) 128) as [A|A].
  - unfold sequence.
    replace (Z.of_nat (code b) <? 0x80) with true
      by (symmetry; apply Z.ltb_lt; lia).
    intros H. apply latin1_cons in H as [_ H].
    rewrite to_string_cons, Nat2Z.id. f_equal.
    apply (IH (length r)); [cbn [length]; lia|reflexivity|exact H].
  - intros H.
    assert (Hge : 0x80 <= Z.of_nat (code b)) by lia.
    destruct (sequence_latin1 _ _ _ Hge H)
      as (c & r1 & E & B1 & B2 & -> & H').
    destruct r as [|b2 r']; [discriminate E|].
    cbn [map] in E. injection E as <- <-.
    replace ((194 <=? code b) && (code b <=? 195) && (128 <=? code b2)
             && (code b2 <? 192))%nat with true.
    2:{ symmetry. rewrite !andb_true_iff, !Nat.leb_le, Nat.ltb_lt. lia. }
    rewrite to_string_cons. f_equal; [f_equal; lia|].
    apply (IH (length r')); [cbn [length]; lia|reflexivity|exact H'].
Qed.


End Utf16Facts.

Section UnicodeFacts.

Import WalletService.

Variable aes_256_cbc_encrypt : Buffer -> Buffer -> Buffer -> Buffer.
Variable aes_256_cbc_decrypt : Buffer -> Buffer -> Buffer -> option Buffer.

(** What [decrypt] makes of what [encrypt] returns, for any text: the text
    as UTF-8 writes and reads it. *)
Lemma decrypt_encrypt_any (this : t) (iv : Buffer) (text : Utf16.t) :
  (forall key iv plain,
     length key = 32%nat -> length iv = 16%nat ->
     aes_256_cbc_decrypt key iv (aes_256_cbc_encrypt key iv plain) = Some plain) ->
  (forall key iv plain, aes_256_cbc_encrypt key iv plain <> []) ->
  length (encryptionKey this) = 32%nat ->
  length iv = 16%nat ->
  Unicode.decrypt aes_256_cbc_decrypt this
    (Unicode.encrypt aes_256_cbc_encrypt this iv text)
  = Ok (Utf16.utf8_decode (Utf16.utf8_encode text)).
Proof.
  intros Hinv Hne Hkey Hiv.
  unfold Unicode.decrypt, Unicode.encrypt.
  set (ct := aes_256_cbc_encrypt (encryptionKey this) iv (Utf16.utf8_encode text)).
  change (toString_hex iv ++ ":" ++ toString_hex ct)
    with (toString_hex iv ++ String ":" (toString_hex ct)).
  rewrite split_at by apply toString_hex_avoids_colon.
  rewrite split_avoids by apply toString_hex_avoids_colon.
  cbn [lookup list_lookup].
  assert (Hiv0 : iv <> []) by (intros ->; discriminate Hiv).
  rewrite (toString_hex_truthy iv Hiv0).
  rewrite (toString_hex_truthy ct (Hne _ _ _)).
  cbn [negb orb].
  assert (O1 : Js.or_else (Some (toString_hex iv)) "" = toString_hex iv).
  { destruct iv; [congruence|reflexivity]. }
  assert (O2 : Js.or_else (Some (toString_hex ct)) "" = toString_hex ct).
  { destruct ct eqn:E; [exfalso; exact (Hne _ _ _ E)|reflexivity]. }
  rewrite O1, O2, !from_hex_toString_hex, Hiv, toString_hex_even.
  cbn [Nat.eqb negb].
  unfold ct. now rewrite (Hinv _ _ _ Hkey Hiv).
Qed.

(** C9. With a key of 32 bytes, whatever 16 bytes are drawn for the
    initialisation vector, [decrypt] gives back the text [encrypt] was given
    when the text is well formed, that is, when none of its surrogates is
    alone: every string of code points. The cipher of Node's [crypto] is
    taken to be what it is documented to be: deciphering undoes enciphering
    under the same key and vector, and the padded output of the cipher is
    never empty. *)
Theorem decrypt_encrypt_well_formed (this : t) (iv : Buffer) (text : Utf16.t) :
  (forall key iv plain,
     length key = 32%nat -> length iv = 16%nat ->
     aes_256_cbc_decrypt key iv (aes_256_cbc_encrypt key iv plain) = Some plain) ->
  (forall key iv plain, aes_256_cbc_encrypt key iv plain <> []) ->
  length (encryptionKey this) = 32%nat ->
  length iv = 16%nat ->
  Utf16.code_units text = true ->
  Utf16.isWellFormed text = true ->
  Unicode.decrypt aes_256_cbc_decrypt this
    (Unicode.encrypt aes_256_cbc_encrypt this iv text)
  = Ok text.
Proof.
  intros Hinv Hne Hkey Hiv Hc Hw.
  rewrite decrypt_encrypt_any by assumption.
  now rewrite utf8_decode_encode_well_formed.
Qed.

(** On a text of code units below 256, [Unicode.encrypt] is [encrypt]. *)
Lemma encrypt_of_string (this : t) (iv : Buffer) (text : string) :
  Unicode.encrypt aes_256_cbc_encrypt this iv (Utf16.of_string text)
  = encrypt aes_256_cbc_encrypt this iv text.
Proof. unfold Unicode.encrypt, encrypt. now rewrite utf8_encode_of_string. Qed.

(** [decrypt] throws when [Unicode.decrypt] does, and returns the text
    [Unicode.decrypt] returns when its code units are below 256. *)
Lemma decrypt_latin1 (this : t) (encryptedData : string) :
  match Unicode.decrypt aes_256_cbc_decrypt this encryptedData with
  | Thrown e => decrypt aes_256_cbc_decrypt this encryptedData = Thrown e
  | Ok text =>
      Utf16.latin1 text = true ->
      decrypt aes_256_cbc_decrypt this encryptedData
      = Ok (Utf16.to_string text)
  end.
Proof.
  unfold Unicode.decrypt, decrypt.
  destruct (negb (Js.truthy _) || negb (Js.truthy _)); [reflexivity|].
  destruct (negb (length _ =? 16)%nat); [reflexivity|].
  destruct (Nat.odd _); [reflexivity|].
  destruct (aes_256_cbc_decrypt _ _ _) as [plain|]; [|reflexivity].
  intros H. now rewrite (utf8_decode_latin1 plain H).
Qed.

End UnicodeFacts.

Lemma decrypt_encrypt_well_formed_witness :
  let text := [0x6B; 0xE9; 0x20AC; 0xD83D; 0xDE00] in
  (forall key iv plain,
     length key = 32%nat -> length iv = 16%nat ->
     Scenario.framing_decrypt key iv (Scenario.framing_encrypt key iv plain)
       = Some plain) /\
  (forall key iv plain, Scenario.framing_encrypt key iv plain <> []) /\
  length (WalletService.encryptionKey Scenario.wallet_service) = 32%nat /\
  length Scenario.some_iv = 16%nat /\
  WalletService.Utf16.code_units text = true /\
  WalletService.Utf16.isWellFormed text = true /\
  WalletService.Unicode.decrypt Scenario.framing_decrypt Scenario.wallet_service
    (WalletService.Unicode.encrypt Scenario.framing_encrypt
       Scenario.wallet_service Scenario.some_iv text)
    = Ok text.
Proof.
  cbv zeta.
  split; [intros; reflexivity|]. split; [intros; discriminate|].
  split; [reflexivity|]. split; [reflexivity|].
  split; [reflexivity|]. split; [reflexivity|].
  apply (decrypt_encrypt_well_formed Scenario.framing_encrypt
           Scenario.framing_decrypt);
    [intros; reflexivity|intros; discriminate|reflexivity..].
Defined.

(** C9, the claim as it was made. A surrogate that is alone does not come
    back: [encrypt] writes it as the three bytes of U+FFFD, and [decrypt]
    returns U+FFFD. With the stand-in cipher of [Scenario], and with every
    cipher that obeys the two laws. *)
Theorem lone_surrogate_is_not_restored :
  let text := [0xD83D] in
  WalletService.Utf16.code_units text = true /\
  WalletService.Utf16.isWellFormed text = false /\
  WalletService.Utf16.utf8_encode text = [Byte.xef; Byte.xbf; Byte.xbd] /\
  WalletService.Unicode.decrypt Scenario.framing_decrypt Scenario.wallet_service
    (WalletService.Unicode.encrypt Scenario.framing_encrypt
       Scenario.wallet_service Scenario.some_iv text)
    = Ok [0xFFFD] /\
  (Ok [0xFFFD] : Res WalletService.Utf16.t) <> Ok text /\
  forall aes_256_cbc_encrypt aes_256_cbc_decrypt this iv,
    (forall key iv plain,
       length key = 32%nat -> length iv = 16%nat ->
       aes_256_cbc_decrypt key iv (aes_256_cbc_encrypt key iv plain)
         = Some plain) ->
    (forall key iv plain, aes_256_cbc_encrypt key iv plain <> []) ->
    length (WalletService.encryptionKey this) = 32%nat ->
    length iv = 16%nat ->
    WalletService.Unicode.decrypt aes_256_cbc_decrypt this
      (WalletService.Unicode.encrypt aes_256_cbc_encrypt this iv text)
    = Ok [0xFFFD].
Proof.
  cbv zeta. split; [reflexivity|]. split; [reflexivity|].
  split; [reflexivity|]. split; [reflexivity|]. split; [discriminate|].
  intros enc dec this iv Hinv Hne Hkey Hiv.
  rewrite (decrypt_encrypt_any enc dec this iv [0xD83D] Hinv Hne Hkey Hiv).
  reflexivity.
Qed.

(** ** What a delivery does to the rows it finds *)

Section DeliveryFacts.

Import Store Pipeline.

Lemma find_app_other {A} (p : A -> bool) l x :
  p x = false -> find p (l ++ [x]) = find p l.
Proof.
  intros H. induction l as [|y l IH]; simpl; [now rewrite H|].
  destruct (p y); [reflexivity|exact IH].
Qed.

Lemma stored_created_other cfg t p d id :
  Database.deployTweetId p <> id ->
  stored cfg (snd (created cfg t p d)) id = stored cfg d id.
Proof.
  intros Hne. unfold stored, created, Database.select_deployment.
  destruct (MOCK_DB cfg) eqn:M; simpl.
  - now apply lookup_insert_ne.
  - unfold exists_row. rewrite M.
    destruct (existsb _ (deployments d)); simpl; [reflexivity|].
    apply find_app_other. simpl. apply String.eqb_neq. exact Hne.
Qed.

Lemma stored_attempted cfg t u d id :
  stored cfg (attempted cfg t u d) id = stored cfg d id.
Proof. unfold stored, attempted. now destruct (MOCK_DB cfg). Qed.

(** With the SQL store, [create] on a stored source message throws the
    violation of [unique_deploy_tweet] and leaves the table as it was. *)
Lemma sql_create_twice_signals cfg t p d r :
  MOCK_DB cfg = false ->
  stored cfg d (Database.deployTweetId p) = Some r ->
  fst (created cfg t p d) = Thrown (Database.unique_violation "unique_deploy_tweet") /\
  deployments (snd (created cfg t p d)) = deployments d.
Proof.
  intros M H. unfold created. rewrite M.
  assert (E : exists_row cfg d (Database.deployTweetId p) = true).
  { rewrite exists_row_stored. apply bool_decide_eq_true_2. rewrite H. eauto. }
  rewrite E. split; reflexivity.
Qed.

Lemma rejection_start cfg e d t :
  rejection cfg e (mkSt d 0 t) = first_rejection cfg e.
Proof. reflexivity. Qed.

(** A delivery leaves a stored row as it is, unless it is a delivery of the
    row's own source message whose existence check the pool rejects. *)
Lemma delivery_keeps_row cfg e d t job id r :
  stored cfg d id = Some r ->
  TweetMention.tweet_id (mention job) <> id \/ first_rejection cfg e = None ->
  stored cfg (db (snd (run (Worker.processDeploymentJob cfg job) e d t))) id
    = Some r.
Proof.
  intros Hs Hc.
  destruct (String.eqb_spec (TweetMention.tweet_id (mention job)) id) as [E|N].
  - destruct Hc as [Hc|Hc]; [contradiction|].
    assert (X : exists_row cfg d (TweetMention.tweet_id (mention job)) = true).
    { rewrite exists_row_stored, E. apply bool_decide_eq_true_2.
      rewrite Hs. eauto. }
    job_unfold. store_step. rewrite rejection_start, Hc. store_step.
    rewrite X. settle. exact Hs.
  - clear Hc. job_unfold. explore. all: settle.
    all: repeat first
           [ rewrite stored_updated_other by exact N
           | rewrite stored_attempted
           | rewrite stored_created_other by exact N ].
    all: exact Hs.
Qed.

(** Over any sequence of deliveries a stored row, and so its status, stays
    as it is as long as no existence check for its source message is
    rejected. *)
Lemma deliveries_keep_row cfg xs w id r :
  stored cfg (fst w) id = Some r ->
  Forall (fun x => TweetMention.tweet_id (mention (snd x)) <> id \/
                   first_rejection cfg (fst x) = None) xs ->
  stored cfg (fst (deliver_all cfg xs w)) id = Some r.
Proof.
  revert w. induction xs as [|[e job] xs IH]; intros [d t] Hs Hx; [exact Hs|].
  apply Forall_cons in Hx as [Hx Hxs].
  cbn [deliver_all fold_left]. apply IH; [|exact Hxs].
  unfold deliver. cbn [fst snd]. now apply delivery_keeps_row.
Qed.

(** With the in-memory store no query is sent, so no delivery ever changes
    a stored row. *)
Lemma in_memory_rows_are_kept cfg xs w id r :
  MOCK_DB cfg = true ->
  stored cfg (fst w) id = Some r ->
  stored cfg (fst (deliver_all cfg xs w)) id = Some r.
Proof.
  intros M Hs. apply deliveries_keep_row; [exact Hs|].
  apply Forall_forall. intros x _. right. unfold first_rejection. now rewrite M.
Qed.

Lemma exists_row_updated cfg t i st data d id :
  exists_row cfg (updated cfg t i st data d) id = exists_row cfg d id.
Proof.
  rewrite !exists_row_stored.
  destruct (String.eqb_spec i id) as [->|N].
  - rewrite stored_updated. now destruct (stored cfg d id).
  - now rewrite stored_updated_other.
Qed.

Lemma exists_row_attempted cfg t u d id :
  exists_row cfg (attempted cfg t u d) id = exists_row cfg d id.
Proof. unfold exists_row, attempted. now destruct (MOCK_DB cfg). Qed.

Lemma exists_row_created_mono cfg t p d id :
  exists_row cfg d id = true ->
  exists_row cfg (snd (created cfg t p d)) id = true.
Proof.
  unfold created. destruct (MOCK_DB cfg) eqn:M.
  - unfold exists_row. rewrite M. simpl. intros H.
    apply bool_decide_eq_true in H. apply bool_decide_eq_true_2.
    destruct (decide (Database.deployTweetId p = id)) as [->|N].
    + rewrite lookup_insert_eq. eauto.
    + now rewrite lookup_insert_ne.
  - destruct (exists_row cfg d (Database.deployTweetId p)) eqn:E; simpl.
    + unfold exists_row. now rewrite M.
    + unfold exists_row. rewrite M. simpl. intros H.
      rewrite existsb_app, H. reflexivity.
Qed.

Lemma exists_row_created_ok cfg t p d row :
  fst (created cfg t p d) = Ok row ->
  exists_row cfg (snd (created cfg t p d)) (Database.deployTweetId p) = true.
Proof.
  unfold created. destruct (MOCK_DB cfg) eqn:M.
  - intros _. unfold exists_row. rewrite M. simpl.
    apply bool_decide_eq_true_2. rewrite lookup_insert_eq. eauto.
  - destruct (exists_row cfg d (Database.deployTweetId p)) eqn:E; simpl;
      [discriminate|].
    intros _. unfold exists_row. rewrite M. simpl. rewrite existsb_app. simpl.
    rewrite String.eqb_refl. now rewrite orb_true_r.
Qed.

Lemma exists_row_created_job cfg t job w d row :
  fst (created cfg t (Worker.create_params job w) d) = Ok row ->
  exists_row cfg (snd (created cfg t (Worker.create_params job w) d))
    (TweetMention.tweet_id (mention job)) = true.
Proof. apply exists_row_created_ok. Qed.

Lemma occurrences_app ev l1 l2 :
  occurrences ev (l1 ++ l2) = (occurrences ev l1 + occurrences ev l2)%nat.
Proof. unfold occurrences. now rewrite filter_app, length_app. Qed.

Lemma occurrences_zero ev l : ~ In ev l -> occurrences ev l = 0%nat.
Proof.
  unfold occurrences. induction l as [|x l IH]; intros H; [reflexivity|].
  rewrite filter_cons. destruct (decide (x = ev)) as [->|N].
  - exfalso. apply H. now left.
  - apply IH. intros Hin. apply H. now right.
Qed.

Lemma occurrences_cons_ne ev x l :
  x <> ev -> occurrences ev (x :: l) = occurrences ev l.
Proof.
  intros N. unfold occurrences. rewrite filter_cons.
  now destruct (decide (x = ev)).
Qed.

Lemma occurrences_cons_eq ev l :
  occurrences ev (ev :: l) = S (occurrences ev l).
Proof.
  unfold occurrences. rewrite filter_cons.
  destruct (decide (ev = ev)); [reflexivity|congruence].
Qed.

(** One run calls [deploy] at most once, for its own source message, only
    when no row was stored for it, and after storing one. *)
Lemma one_delivery cfg e d t job :
  let tweet := TweetMention.tweet_id (mention job) in
  let rs := run (Worker.processDeploymentJob cfg job) e d t in
  exists l,
    trace (snd rs) = (t ++ l)%list /\
    (forall id, In (EvDeploy id) l ->
       id = tweet /\ exists_row cfg d tweet = false /\
       exists_row cfg (db (snd rs)) tweet = true) /\
    (occurrences (EvDeploy tweet) l <= 1)%nat /\
    (forall id, exists_row cfg d id = true ->
                exists_row cfg (db (snd rs)) id = true).
Proof.
  intros tweet rs. subst rs. job_unfold. fold tweet. explore.
  all: settle.
  all: eexists; split; [repeat apply trace_ext_snoc; apply trace_ext_refl|].
  all: cbn [app]; split; [|split].
  all: try (intros id Hu; cbn [In] in Hu;
            repeat (destruct Hu as [Hu|Hu]; [try discriminate Hu|]);
            first [ contradiction
                  | injection Hu as <-;
                    (split; [reflexivity|split; [reflexivity|]]);
                    repeat first [ rewrite exists_row_updated
                                 | rewrite exists_row_attempted ];
                    unfold tweet; eapply exists_row_created_job; eassumption ]).
  all: try (repeat first [ rewrite occurrences_cons_eq
                         | rewrite occurrences_cons_ne by discriminate ];
            unfold occurrences; simpl; lia).
  all: intros id Hid;
       repeat first [ rewrite exists_row_updated | rewrite exists_row_attempted ];
       try apply exists_row_created_mono; exact Hid.
Qed.

Lemma deliver_sound cfg w x id :
  sound cfg w -> (occurrences (EvDeploy id) (snd w) <= 1)%nat ->
  sound cfg (deliver cfg w x) /\
  (occurrences (EvDeploy id) (snd (deliver cfg w x)) <= 1)%nat.
Proof.
  destruct w as [d t], x as [e job]. unfold sound, deliver. cbn [fst snd].
  intros Hs Hc.
  destruct (one_delivery cfg e d t job) as (l & Hl & H1 & H2 & H3).
  cbv zeta in *. rewrite Hl. split.
  - intros i Hi. apply in_app_or in Hi as [Hi|Hi].
    + apply H3. now apply Hs.
    + destruct (H1 i Hi) as (-> & _ & E). exact E.
  - rewrite occurrences_app.
    destruct (in_dec Event_eq_dec (EvDeploy id) l) as [Hi|Hn].
    + destruct (H1 id Hi) as (-> & F & _).
      rewrite (occurrences_zero _ t); [exact H2|].
      intros Ht. apply Hs in Ht. congruence.
    + rewrite (occurrences_zero _ l Hn). lia.
Qed.

(** X14. However often the jobs of a source message are delivered, one after
    the other, and whatever the pool and the chain do, [deploy] is called at
    most once for it. *)
Lemma at_most_one_deploy cfg xs d id :
  (occurrences (EvDeploy id) (snd (deliver_all cfg xs (d, []))) <= 1)%nat.
Proof.
  assert (G : forall w, sound cfg w ->
              (occurrences (EvDeploy id) (snd w) <= 1)%nat ->
              (occurrences (EvDeploy id) (snd (deliver_all cfg xs w)) <= 1)%nat).
  { induction xs as [|x xs IH]; intros w Hs Hc; [exact Hc|].
    cbn [deliver_all fold_left].
    destruct (deliver_sound cfg w x id Hs Hc) as [Hs' Hc'].
    now apply IH. }
  apply G; [intros i []|]. cbn. lia.
Qed.

End DeliveryFacts.

(** ** One row per source message *)

Section UniquenessFacts.

Import Store Pipeline.

Lemma existsb_same_tweet l id :
  existsb (fun r => String.eqb (deploy_tweet_id r) id) l = false ->
  ~ In id (map deploy_tweet_id l).
Proof.
  induction l as [|x l IH]; simpl; [tauto|].
  intros H. apply orb_false_iff in H as [H1 H2].
  apply String.eqb_neq in H1. intros [E|E]; [congruence|now apply IH].
Qed.

Lemma unique_rows_created cfg t p d :
  unique_rows d -> unique_rows (snd (created cfg t p d)).
Proof.
  unfold unique_rows, created. destruct (MOCK_DB cfg) eqn:M; [trivial|].
  destruct (exists_row cfg d (Database.deployTweetId p)) eqn:E; [trivial|].
  cbn [snd Database.set_deployments deployments]. intros H.
  rewrite map_app. cbn [map sql_row deploy_tweet_id].
  apply NoDup_app. split; [exact H|]. split.
  - intros x Hx Hx'. apply list_elem_of_In in Hx, Hx'.
    destruct Hx' as [<-|[]].
    unfold exists_row in E. rewrite M in E.
    exact (existsb_same_tweet _ _ E Hx).
  - apply NoDup_singleton.
Qed.

Lemma unique_rows_updated cfg t id st data d :
  unique_rows d -> unique_rows (updated cfg t id st data d).
Proof.
  unfold unique_rows, updated. destruct (MOCK_DB cfg).
  - now destruct (mockDeployments d !! id).
  - cbn [Database.set_deployments deployments]. intros H.
    rewrite map_map.
    erewrite map_ext; [exact H|].
    intros r. cbn. now destruct (String.eqb (deploy_tweet_id r) id).
Qed.

Lemma unique_rows_attempted cfg t u d :
  unique_rows d -> unique_rows (attempted cfg t u d).
Proof. unfold unique_rows, attempted. now destruct (MOCK_DB cfg). Qed.

Lemma filter_absent id (l : list Deployment) :
  ~ In id (map deploy_tweet_id l) ->
  filter (fun r => deploy_tweet_id r = id) l = [].
Proof.
  induction l as [|x l IH]; intros H; [reflexivity|].
  rewrite filter_cons. destruct (decide (deploy_tweet_id x = id)) as [E|N].
  - exfalso. apply H. now left.
  - apply IH. intros Hin. apply H. now right.
Qed.

(** Under the constraint a source message has at most one row. *)
Lemma unique_rows_one_row cfg d id :
  unique_rows d -> (rows_for cfg d id <= 1)%nat.
Proof.
  unfold unique_rows, rows_for. destruct (MOCK_DB cfg).
  - intros _. destruct (mockDeployments d !! id); lia.
  - induction (deployments d) as [|x l IH]; intros H; [cbn; lia|].
    cbn [map] in H. apply NoDup_cons in H as [Hx Hl].
    rewrite filter_cons. destruct (decide (deploy_tweet_id x = id)) as [E|N].
    + subst id. rewrite (filter_absent _ l); [cbn; lia|].
      intros Hin. apply Hx. now apply list_elem_of_In.
    + now apply IH.
Qed.

Lemma delivery_unique_rows cfg e d t job :
  unique_rows d ->
  unique_rows (db (snd (run (Worker.processDeploymentJob cfg job) e d t))).
Proof.
  intros H. job_unfold. explore. all: settle.
  all: repeat first [ apply unique_rows_updated
                    | apply unique_rows_attempted
                    | apply unique_rows_created ].
  all: exact H.
Qed.

(** X15. However the jobs are delivered, one after the other, no source
    message ever has two rows. *)
Lemma one_row_per_source_message cfg xs d t id :
  unique_rows d ->
  (rows_for cfg (fst (deliver_all cfg xs (d, t))) id <= 1)%nat.
Proof.
  intros H. apply unique_rows_one_row.
  revert d t H. induction xs as [|[e job] xs IH]; intros d t H; [exact H|].
  cbn [deliver_all fold_left]. unfold deliver at 2. cbn [fst snd].
  apply IH. now apply delivery_unique_rows.
Qed.

End UniquenessFacts.

(** ** Jobs whose fee recipient has no wallet *)

Section NoWalletFacts.

Import Store Pipeline.

(** X16. Whatever the pool does, and whether or not a row is stored already,
    a job whose fee recipient has no linked wallet never calls [deploy]: all
    it may do is create its row, write [wallet_missing] or [failed] to it, and
    post the wallet-required reply. *)
Lemma no_wallet_no_deploy cfg job e d t :
  let tweet := TweetMention.tweet_id (mention job) in
  linked_wallet cfg d (ParentTweetInfo.author_id (parentTweet job)) = None ->
  exists l,
    trace (snd (run (Worker.processDeploymentJob cfg job) e d t)) = (t ++ l)%list /\
    forall ev, In ev l ->
      ev = EvCreated tweet \/ ev = EvStatus tweet wallet_missing \/
      ev = EvStatus tweet failed \/ ev = EvReplyWalletRequired tweet.
Proof.
  intros tweet. job_unfold. fold tweet. explore.
  all: settle.
  all: intros H; try discriminate H.
  all: eexists; split; [repeat apply trace_ext_snoc; apply trace_ext_refl|].
  all: cbn [app]; intros ev Hev; cbn [In] in Hev.
  all: repeat (destruct Hev as [<-|Hev]; [tauto|]); contradiction.
Qed.

(** C3. With the SQL store, a job whose fee recipient has no linked wallet
    does not always leave the status [wallet_missing]. When the pool answers
    the existence check, the wallet lookup and the insertion, and rejects
    the write of [wallet_missing], the handler of the worker writes [failed]
    with the message of the rejection, no reply is posted, and the job throws
    the rejection. The row is now stored: every later delivery of the job
    whose existence check is answered is skipped as a duplicate and leaves
    the row at [failed]. *)
Theorem rejected_write_leaves_failed_for_a_missing_wallet
  cfg data e d t msg rest :
  let tweet := TweetMention.tweet_id (mention data) in
  let recipient := ParentTweetInfo.author_id (parentTweet data) in
  MOCK_DB cfg = false ->
  stored cfg d tweet = None ->
  linked_wallet cfg d recipient = None ->
  faults e = None :: None :: None :: Some msg :: None :: rest ->
  exists s,
    run (Worker.processDeploymentJob cfg data) e d t
      = (Thrown (pg_error msg), s) /\
    status <$> stored cfg (db s) tweet = Some failed /\
    error_message <$> stored cfg (db s) tweet = Some (Js.or_null (Some msg)) /\
    trace s = (t ++ [EvCreated tweet; EvStatus tweet failed])%list /\
    forall e' t',
      first_rejection cfg e' = None ->
      exists s',
        run (Worker.processDeploymentJob cfg data) e' (db s) t'
          = (Ok (Worker.skipped "duplicate"), s') /\
        db s' = db s /\ trace s' = t'.
Proof.
  intros tweet recipient Hm Hs Hw Hf.
  apply exists_row_false in Hs.
  destruct (created_fresh cfg (now e) (Worker.create_params data "") d Hs)
    as [Hc Hr].
  assert (R : forall s, rejection cfg e s = nth (queries s) (faults e) None).
  { intros s. unfold rejection. now rewrite Hm. }
  assert (Q : forall s, sent cfg s = mkSt (db s) (S (queries s)) (trace s)).
  { intros s. unfold sent. now rewrite Hm. }
  job_unfold. fold tweet recipient.
  store_step. rewrite R, Hf. cbn [queries nth]. store_step. rewrite Hs.
  store_step. rewrite R, Hf, !Q. cbn [queries nth]. store_step. rewrite Hw.
  store_step. rewrite R, Hf, !Q. cbn [queries nth db trace]. store_step. rewrite Hc.
  store_step. rewrite R, Hf, !Q. cbn [queries nth db trace]. store_step.
  rewrite R, Hf, !Q. cbn [queries nth db trace]. store_step.
  unfold pg_error at 1 2. cbn [instanceofError message].
  eexists. split; [reflexivity|]. cbn [db trace with_db].
  change (Database.deployTweetId (Worker.create_params data "")) with tweet in Hr.
  match goal with
  | |- context [stored cfg ?D tweet] => set (d1 := D) in *
  end.
  assert (S1 : stored cfg d1 tweet
               = Some (row_update cfg (now e) failed
                         (Some (Database.StatusData.mk None None None (Some msg)))
                         (new_row cfg (now e) (Worker.create_params data "") d))).
  { subst d1. rewrite stored_updated, Hr. reflexivity. }
  rewrite S1. split; [|split; [|split]].
  - simpl. now rewrite row_update_status.
  - simpl. unfold row_update, new_row. rewrite Hm. reflexivity.
  - rewrite <- !app_assoc. reflexivity.
  - intros e' t' He'.
    assert (X : exists_row cfg d1 tweet = true).
    { rewrite exists_row_stored. apply bool_decide_eq_true_2.
      rewrite S1. eauto. }
    clearbody d1.
    job_unfold. fold tweet. store_step. rewrite rejection_start, He'.
    store_step. rewrite X. eexists. split; [reflexivity|]. settle.
    split; reflexivity.
Qed.

End NoWalletFacts.

(** ** The words of the parser's specification *)

Section ParserSpecFacts.

Import ParserSpec.

Lemma prefix_ci_spec p s :
  prefix_ci p s = true <->
  exists mid post, s = mid ++ post /\ Js.toLowerCase mid = Js.toLowerCase p.
Proof.
  revert s. induction p as [|a p IH]; intros s.
  - split; [|reflexivity]. intros _. exists EmptyString, s. now split.
  - destruct s as [|b s]; cbn [prefix_ci].
    + split; [discriminate|]. intros (mid & post & E & L).
      destruct mid; [discriminate L|discriminate E].
    + rewrite andb_true_iff, IH, Ascii.eqb_eq. split.
      * intros (E & mid & post & -> & L).
        exists (String b mid), post. split; [reflexivity|].
        cbn [Js.toLowerCase]. now rewrite L, E.
      * intros (mid & post & E & L).
        destruct mid as [|c mid]; [discriminate L|].
        cbn [Js.toLowerCase] in L. injection E as -> ->. injection L as L1 L2.
        split; [now rewrite L1|]. now exists mid, post.
Qed.

(** [contains_ci s p] says that a part of [s] is [p], letter case aside. *)
Lemma contains_ci_spec s p :
  contains_ci s p = true <->
  exists pre mid post,
    s = pre ++ mid ++ post /\ Js.toLowerCase mid = Js.toLowerCase p.
Proof.
  induction s as [|a s IH]; cbn [contains_ci]; rewrite orb_true_iff, prefix_ci_spec.
  - split.
    + intros [(mid & post & E & L)|F]; [|discriminate F].
      now exists EmptyString, mid, post.
    + intros (pre & mid & post & E & L). left.
      destruct pre; [|discriminate E]. now exists mid, post.
  - rewrite IH. split.
    + intros [(mid & post & E & L)|(pre & mid & post & E & L)].
      * now exists EmptyString, mid, post.
      * exists (String a pre), mid, post. split; [|exact L].
        cbn. now rewrite E.
    + intros (pre & mid & post & E & L).
      destruct pre as [|c pre].
      * left. now exists mid, post.
      * right. injection E as -> E. now exists pre, mid, post.
Qed.

End ParserSpecFacts.

(** ** The users of the store: writing and reading back *)

Section UserStoreFacts.

Import Store Invariants.

Lemma Database_getUserByTwitterId_eq cfg twitterId e s :
  Database.getUserByTwitterId cfg twitterId e s =
  match rejection cfg e s with
  | Some msg => (Thrown (pg_error msg), sent cfg s)
  | None => (Ok (stored_user cfg (db s) twitterId), sent cfg s)
  end.
Proof.
  unfold Database.getUserByTwitterId, stored_user, rejection, sent.
  destruct cfg as [? ? [|] ?]; destruct s as [d q t];
    unfold bind, ret, get_db, pool_query; simpl; [reflexivity|].
  now destruct (nth q _ None).
Qed.

Lemma find_user_upsert_other u t rows id' :
  id' <> twitter_id u ->
  find (fun r => String.eqb (twitter_id (user r)) id')
       (Database.upsert_row u t rows) =
  find (fun r => String.eqb (twitter_id (user r)) id') rows.
Proof.
  intros N. unfold Database.upsert_row.
  assert (F : String.eqb (twitter_id u) id' = false).
  { apply String.eqb_neq. congruence. }
  destruct (existsb _ rows).
  - induction rows as [|x rows IH]; simpl; [reflexivity|].
    destruct (String.eqb (twitter_id (user x)) (twitter_id u)) eqn:E; simpl.
    + apply String.eqb_eq in E. rewrite F, E, F. exact IH.
    + destruct (String.eqb (twitter_id (user x)) id'); [reflexivity|exact IH].
  - apply find_app_other. simpl. exact F.
Qed.

Lemma upserted_ok cfg u t d u' :
  fst (upserted cfg u t d) = Ok u' ->
  u' = u /\
  stored_user cfg (snd (upserted cfg u t d)) (twitter_id u) = Some u /\
  forall id', id' <> twitter_id u ->
    stored_user cfg (snd (upserted cfg u t d)) id' = stored_user cfg d id'.
Proof.
  unfold upserted, stored_user. destruct (MOCK_DB cfg); cbn [fst snd].
  - intros [= <-]. split; [reflexivity|]. simpl. split.
    + apply lookup_insert_eq.
    + intros id' N. apply lookup_insert_ne. congruence.
  - destruct (Database.valid_wallet _); cbn [fst snd]; [|discriminate].
    intros [= <-]. split; [reflexivity|].
    unfold Database.select_user; simpl. split.
    + apply select_upsert.
    + intros id' N. now rewrite find_user_upsert_other.
Qed.

(** X1. When [upsertUser] returns, what it returns is the identity with the
    address in lower case, the key it was given and the time of the call; a
    later [getUserByTwitterId] of the identity answers that user, a later
    [getWalletByTwitterId] the lower-case address, and the lookups of every
    other identity answer as they did before. Both stores. *)
Theorem upsertUser_then_lookup cfg e d t twitterId walletAddress key u s' :
  run (Database.upsertUser cfg twitterId walletAddress key) e d t = (Ok u, s') ->
  u = mkUser twitterId (Js.toLowerCase walletAddress) key (now e) /\
  forall e' t', faults e' = [] ->
    fst (run (Database.getUserByTwitterId cfg twitterId) e' (db s') t')
      = Ok (Some u) /\
    fst (run (Database.getWalletByTwitterId cfg twitterId) e' (db s') t')
      = Ok (Js.or_null (Some (Js.toLowerCase walletAddress))) /\
    forall other, other <> twitterId ->
      fst (run (Database.getUserByTwitterId cfg other) e' (db s') t') =
      fst (run (Database.getUserByTwitterId cfg other) e' d t').
Proof.
  unfold run. rewrite Database_upsertUser_eq.
  destruct (rejection cfg e _); [discriminate|]. cbv zeta.
  set (v := mkUser twitterId (Js.toLowerCase walletAddress) key (now e)).
  intros H. injection H as H1 H2.
  destruct (upserted_ok cfg v (now e) d u H1) as (-> & Hs & Ho).
  split; [reflexivity|]. intros e' t' Hf. subst s'. cbn [db with_db].
  rewrite !Database_getUserByTwitterId_eq, Database_getWalletByTwitterId_eq.
  rewrite !rejection_nil by exact Hf. cbn [fst db].
  unfold linked_wallet. change twitterId with (twitter_id v) at 1 2.
  rewrite Hs. split; [reflexivity|]. split; [reflexivity|].
  intros other N. rewrite !Database_getUserByTwitterId_eq.
  rewrite !rejection_nil by exact Hf. cbn [fst db]. now rewrite Ho.
Qed.

Lemma upsertUser_then_lookup_witness :
  let rs := run (Database.upsertUser Scenario.live "42" Scenario.other_wallet
                   (Some "iv:key")) (Scenario.calm 7) Scenario.linked [] in
  rs = (Ok (mkUser "42" (Js.toLowerCase Scenario.other_wallet)
              (Some "iv:key") 7), snd rs) /\
  fst (run (Database.getUserByTwitterId Scenario.live "42") (Scenario.calm 9)
         (db (snd rs)) [])
    = Ok (Some (mkUser "42" (Js.toLowerCase Scenario.other_wallet)
                  (Some "iv:key") 7)).
Proof.
  split; [reflexivity|].
  refine (proj1 (proj2 (upsertUser_then_lookup Scenario.live (Scenario.calm 7)
                          Scenario.linked [] "42" Scenario.other_wallet
                          (Some "iv:key") _ _ _) (Scenario.calm 9) [] _));
    reflexivity.
Defined.

Lemma well_formed_lower walletAddress :
  Database.valid_wallet (Js.toLowerCase walletAddress) = true ->
  well_formed_address (Js.toLowerCase walletAddress).
Proof. intros H. split; [exact H|apply toLowerCase_idem]. Qed.

(** X2. With the SQL store, [upsertUser] keeps every stored address well
    formed (it passes [valid_wallet] and is in lower case), whatever it is
    given and whatever the pool does; and an address whose lower-case form
    fails [valid_wallet] is never stored: the call throws and the table of
    users is left as it was. *)
Theorem sql_upsertUser_keeps_addresses_well_formed
  cfg e s twitterId walletAddress key :
  MOCK_DB cfg = false ->
  well_formed_users (db s) ->
  let rs := Database.upsertUser cfg twitterId walletAddress key e s in
  well_formed_users (db (snd rs)) /\
  (Database.valid_wallet (Js.toLowerCase walletAddress) = false ->
   users (db (snd rs)) = users (db s) /\ exists x, fst rs = Thrown x).
Proof.
  intros M W. cbv zeta. rewrite Database_upsertUser_eq.
  destruct (rejection cfg e s) eqn:R; cbn [fst snd].
  - rewrite db_sent. split; [exact W|]. intros _. split; [reflexivity|eauto].
  - cbv zeta. unfold upserted. rewrite M. cbn [wallet_address].
    destruct (Database.valid_wallet (Js.toLowerCase walletAddress)) eqn:V;
      cbn [fst snd db with_db]; rewrite ?db_sent.
    + split; [|discriminate].
      unfold well_formed_users, Database.set_users in *. cbn [users].
      unfold Database.upsert_row. cbn [twitter_id].
      destruct (existsb _ (users (db s))).
      * apply Forall_forall. intros r Hr. apply list_elem_of_In in Hr.
        apply in_map_iff in Hr as (r0 & <- & Hr0).
        destruct (String.eqb _ twitterId); cbn [user wallet_address].
        -- now apply well_formed_lower.
        -- rewrite Forall_forall in W. apply W. now apply list_elem_of_In.
      * apply Forall_app. split; [exact W|].
        apply Forall_cons. split; [|apply Forall_nil_2].
        cbn [user wallet_address]. now apply well_formed_lower.
    + split; [exact W|]. intros _. split; [reflexivity|eauto].
Qed.

Lemma sql_upsertUser_keeps_addresses_well_formed_witness :
  MOCK_DB Scenario.live = false /\
  well_formed_users Scenario.linked /\
  Database.valid_wallet (Js.toLowerCase "0x12") = false /\
  let rs := Database.upsertUser Scenario.live "42" "0x12" None
              (Scenario.calm 7) (mkSt Scenario.linked 0 []) in
  well_formed_users (db (snd rs)) /\
  users (db (snd rs)) = users Scenario.linked /\ exists x, fst rs = Thrown x.
Proof.
  assert (W : well_formed_users Scenario.linked).
  { apply Forall_cons. split; [split; reflexivity|apply Forall_nil_2]. }
  split; [reflexivity|]. split; [exact W|]. split; [reflexivity|].
  destruct (sql_upsertUser_keeps_addresses_well_formed Scenario.live
              (Scenario.calm 7) (mkSt Scenario.linked 0 []) "42" "0x12" None
              eq_refl W) as [H1 H2].
  split; [exact H1|]. exact (H2 eq_refl).
Defined.

End UserStoreFacts.

(** ** The deployments of the store: writing and reading back *)

Section DeploymentRowFacts.

Import Store Pipeline Invariants.

Lemma Database_getDeploymentByTweetId_eq cfg deployTweetId e s :
  Database.getDeploymentByTweetId cfg deployTweetId e s =
  match rejection cfg e s with
  | Some msg => (Thrown (pg_error msg), sent cfg s)
  | None => (Ok (stored cfg (db s) deployTweetId), sent cfg s)
  end.
Proof.
  unfold Database.getDeploymentByTweetId, stored, rejection, sent.
  destruct cfg as [? ? [|] ?]; destruct s as [d q t];
    unfold bind, ret, get_db, pool_query; simpl; [reflexivity|].
  now destruct (nth q _ None).
Qed.

Lemma created_ok cfg t p d row :
  fst (created cfg t p d) = Ok row ->
  row = new_row cfg t p d /\
  stored cfg (snd (created cfg t p d)) (Database.deployTweetId p) = Some row.
Proof.
  intros H.
  destruct (exists_row cfg d (Database.deployTweetId p)) eqn:E.
  - unfold created in H. destruct (MOCK_DB cfg) eqn:M.
    + injection H as <-. unfold new_row, stored, created. rewrite M.
      split; [reflexivity|]. simpl. apply lookup_insert_eq.
    + rewrite E in H. discriminate H.
  - destruct (created_fresh cfg t p d E) as [H1 H2].
    rewrite H1 in H. injection H as <-. now split.
Qed.

(** X3. When [createDeployment] returns a row, the row carries the source
    message and the parties of the request, the status [pending] and no
    token address, pool or transaction hash; afterwards
    [getDeploymentByTweetId] of the source message answers that row and
    [deploymentExists] answers [true]. Both stores. *)
Theorem createDeployment_then_lookup cfg e d t params row s' :
  run (Database.createDeployment cfg params) e d t = (Ok row, s') ->
  (deploy_tweet_id row = Database.deployTweetId params /\
   parent_tweet_id row = Database.parentTweetId params /\
   deployer_twitter_id row = Database.deployerTwitterId params /\
   fee_recipient_twitter_id row = Database.feeRecipientTwitterId params /\
   fee_recipient_wallet row = Database.feeRecipientWallet params) /\
  (status row = pending /\ token_address row = None /\ pool_id row = None /\
   tx_hash row = None) /\
  forall e' t', faults e' = [] ->
    fst (run (Database.getDeploymentByTweetId cfg (Database.deployTweetId params))
           e' (db s') t') = Ok (Some row) /\
    fst (run (Database.deploymentExists cfg (Database.deployTweetId params))
           e' (db s') t') = Ok true.
Proof.
  unfold run. rewrite Database_createDeployment_eq.
  destruct (rejection cfg e _); [discriminate|].
  intros H. injection H as H1 H2.
  destruct (created_ok cfg (now e) params d row H1) as [-> Hs].
  split; [|split].
  - unfold new_row. destruct (MOCK_DB cfg); repeat split; reflexivity.
  - unfold new_row. destruct (MOCK_DB cfg); repeat split; reflexivity.
  - intros e' t' Hf. subst s'. cbn [db with_db].
    rewrite Database_getDeploymentByTweetId_eq, Database_deploymentExists_eq.
    rewrite !rejection_nil by exact Hf. cbn [fst db]. rewrite Hs.
    split; [reflexivity|]. now rewrite exists_row_stored, Hs.
Qed.

Lemma createDeployment_then_lookup_witness :
  let rs := run (Database.createDeployment Scenario.live Scenario.params)
                (Scenario.calm 5) Scenario.empty [] in
  (exists row, rs = (Ok row, snd rs) /\ status row = pending) /\
  fst (run (Database.deploymentExists Scenario.live Scenario.tweet)
         (Scenario.calm 6) (db (snd rs)) []) = Ok true.
Proof.
  split; [vm_compute; eexists; split; reflexivity|].
  refine (proj2 (proj2 (proj2 (createDeployment_then_lookup Scenario.live
            (Scenario.calm 5) Scenario.empty [] Scenario.params _ _ _))
            (Scenario.calm 6) [] _)); [cbv|]; reflexivity.
Defined.

Lemma map_unmatched id (g : Deployment -> Deployment) l :
  existsb (same_tweet id) l = false ->
  map (fun r => if same_tweet id r then g r else r) l = l.
Proof.
  induction l as [|x l IH]; simpl; [reflexivity|].
  intros H. apply orb_false_iff in H as [H1 H2].
  now rewrite H1, (IH H2).
Qed.

Lemma updated_missing cfg t id st data d :
  exists_row cfg d id = false -> updated cfg t id st data d = d.
Proof.
  unfold exists_row, updated. destruct (MOCK_DB cfg).
  - intros H. apply bool_decide_eq_false in H.
    destruct (mockDeployments d !! id); [|reflexivity].
    exfalso. apply H. eauto.
  - intros H. unfold Database.set_deployments.
    rewrite (map_unmatched id (Database.sql_update t st data)) by exact H.
    apply Database_eta.
Qed.

(** X4. [updateDeploymentStatus] for a source message that has no row
    neither throws nor changes anything: when the pool answers, it returns
    and every store is exactly what it was. Both stores. *)
Theorem updateDeploymentStatus_without_row_is_a_no_op cfg e d t id st data :
  faults e = [] ->
  fst (run (Database.deploymentExists cfg id) e d t) = Ok false ->
  exists s',
    run (Database.updateDeploymentStatus cfg id st data) e d t = (Ok tt, s') /\
    db s' = d.
Proof.
  intros Hf H. unfold run in *.
  rewrite Database_deploymentExists_eq, rejection_nil in H by exact Hf.
  cbn [fst db] in H. injection H as H.
  rewrite Database_updateDeploymentStatus_eq, rejection_nil by exact Hf.
  eexists. split; [reflexivity|]. cbn [db with_db].
  now apply updated_missing.
Qed.

Lemma updateDeploymentStatus_without_row_is_a_no_op_witness :
  faults (Scenario.calm 5) = [] /\
  fst (run (Database.deploymentExists Scenario.live "404") (Scenario.calm 5)
         Scenario.linked []) = Ok false /\
  exists s',
    run (Database.updateDeploymentStatus Scenario.live "404" failed None)
        (Scenario.calm 5) Scenario.linked [] = (Ok tt, s') /\
    db s' = Scenario.linked.
Proof.
  split; [reflexivity|]. split; [reflexivity|].
  apply updateDeploymentStatus_without_row_is_a_no_op; reflexivity.
Defined.

Lemma row_update_request cfg t st data r :
  request_of (row_update cfg t st data r) = request_of r.
Proof. unfold row_update. now destruct (MOCK_DB cfg). Qed.

Lemma row_update_columns cfg t st data r :
  token_address (row_update cfg t st data r)
    = Database.supplied data Database.StatusData.tokenAddress (token_address r) /\
  pool_id (row_update cfg t st data r)
    = Database.supplied data Database.StatusData.poolId (pool_id r) /\
  tx_hash (row_update cfg t st data r)
    = Database.supplied data Database.StatusData.txHash (tx_hash r).
Proof. unfold row_update. now destruct (MOCK_DB cfg). Qed.

(** X5. [updateDeploymentStatus] is a partial update. When it returns for a
    stored row, a later [getDeploymentByTweetId] answers a row with the new
    status and the same request columns (id, source and parent message,
    requester, fee recipient and its wallet); each of [token_address],
    [pool_id] and [tx_hash] holds the supplied value if one was supplied and
    non-empty, and what it held otherwise; with the SQL store the same goes
    for [error_message], and [deployed_at] is set to the time of the call
    exactly when the new status is [deployed]. The rows of other source
    messages are as before. *)
Theorem updateDeploymentStatus_then_lookup cfg e d t id st data r s' :
  Pipeline.stored cfg d id = Some r ->
  run (Database.updateDeploymentStatus cfg id st data) e d t = (Ok tt, s') ->
  exists r',
    (forall e' t', faults e' = [] ->
       fst (run (Database.getDeploymentByTweetId cfg id) e' (db s') t')
         = Ok (Some r')) /\
    status r' = st /\
    request_of r' = request_of r /\
    token_address r'
      = Database.supplied data Database.StatusData.tokenAddress (token_address r) /\
    pool_id r'
      = Database.supplied data Database.StatusData.poolId (pool_id r) /\
    tx_hash r'
      = Database.supplied data Database.StatusData.txHash (tx_hash r) /\
    (MOCK_DB cfg = false ->
       error_message r'
         = Database.supplied data Database.StatusData.errorMessage
             (error_message r) /\
       deployed_at r'
         = if decide (st = deployed) then Some (now e) else deployed_at r) /\
    forall other, other <> id ->
      Pipeline.stored cfg (db s') other = Pipeline.stored cfg d other.
Proof.
  intros Hs. unfold run. rewrite Database_updateDeploymentStatus_eq.
  destruct (rejection cfg e _); [discriminate|].
  intros H. injection H as <-. cbn [db with_db].
  exists (row_update cfg (now e) st data r).
  split; [|split; [|split; [|split; [|split; [|split; [|split]]]]]].
  - intros e' t' Hf. rewrite Database_getDeploymentByTweetId_eq.
    rewrite rejection_nil by exact Hf. cbn [fst db].
    now rewrite stored_updated, Hs.
  - apply row_update_status.
  - apply row_update_request.
  - apply row_update_columns.
  - apply row_update_columns.
  - apply row_update_columns.
  - intros M. unfold row_update. rewrite M. split; reflexivity.
  - intros other N. apply stored_updated_other. congruence.
Qed.

Lemma updateDeploymentStatus_then_lookup_witness :
  let d := db (snd (run (Database.createDeployment Scenario.live Scenario.params)
                        (Scenario.calm 5) Scenario.empty [])) in
  let r := sql_row 5 Scenario.params Scenario.empty in
  let data := Some (Database.StatusData.mk (Some "0xt") None (Some "") None) in
  let rs := run (Database.updateDeploymentStatus Scenario.live Scenario.tweet
                   deployed data) (Scenario.calm 8) d [] in
  Pipeline.stored Scenario.live d Scenario.tweet = Some r /\
  rs = (Ok tt, snd rs) /\
  exists r',
    (forall e' t', faults e' = [] ->
       fst (run (Database.getDeploymentByTweetId Scenario.live Scenario.tweet)
              e' (db (snd rs)) t') = Ok (Some r')) /\
    status r' = deployed /\
    request_of r' = request_of r /\
    token_address r'
      = Database.supplied data Database.StatusData.tokenAddress (token_address r) /\
    pool_id r'
      = Database.supplied data Database.StatusData.poolId (pool_id r) /\
    tx_hash r'
      = Database.supplied data Database.StatusData.txHash (tx_hash r) /\
    (MOCK_DB Scenario.live = false ->
       error_message r'
         = Database.supplied data Database.StatusData.errorMessage
             (error_message r) /\
       deployed_at r'
         = if decide (deployed = deployed) then Some (now (Scenario.calm 8))
           else deployed_at r) /\
    forall other, other <> Scenario.tweet ->
      Pipeline.stored Scenario.live (db (snd rs)) other
        = Pipeline.stored Scenario.live d other.
Proof.
  cbv zeta. split; [reflexivity|]. split; [reflexivity|].
  apply (updateDeploymentStatus_then_lookup Scenario.live (Scenario.calm 8)
           _ []); reflexivity.
Defined.

End DeploymentRowFacts.

(** ** The rate limiter: recording and checking *)

Section RateLimiterFacts.

Import Store.

Lemma select_rate_upsert id t rows :
  find (fun r => String.eqb (rl_twitter_id r) id)
       (Database.upsert_rate_limit id t rows) =
  Some (mkRateLimitRow id t
          match find (fun r => String.eqb (rl_twitter_id r) id) rows with
          | Some r => deploy_count_24h r + 1
          | None => 1
          end).
Proof.
  unfold Database.upsert_rate_limit.
  destruct (existsb _ rows) eqn:E.
  - induction rows as [|x rows IH]; simpl in *; [discriminate|].
    destruct (String.eqb (rl_twitter_id x) id) eqn:Ex; simpl.
    + now rewrite String.eqb_refl.
    + rewrite Ex. apply IH. exact E.
  - rewrite find_app_fresh by exact E. simpl. rewrite String.eqb_refl.
    rewrite find_existsb in E. apply bool_decide_eq_false in E.
    destruct (find _ rows); [exfalso; apply E; eauto|reflexivity].
Qed.

Lemma select_rate_upsert_other id t rows other :
  other <> id ->
  find (fun r => String.eqb (rl_twitter_id r) other)
       (Database.upsert_rate_limit id t rows) =
  find (fun r => String.eqb (rl_twitter_id r) other) rows.
Proof.
  intros N. unfold Database.upsert_rate_limit.
  assert (F : String.eqb id other = false) by (apply String.eqb_neq; congruence).
  destruct (existsb _ rows).
  - induction rows as [|x rows IH]; simpl; [reflexivity|].
    destruct (String.eqb (rl_twitter_id x) id) eqn:E; simpl.
    + apply String.eqb_eq in E. rewrite F, E, F. exact IH.
    + destruct (String.eqb (rl_twitter_id x) other); [reflexivity|exact IH].
  - apply find_app_other. simpl. exact F.
Qed.

Lemma last_attempt_attempted cfg t id d :
  last_attempt cfg (attempted cfg t id d) id = Some t.
Proof.
  unfold last_attempt, attempted. destruct (MOCK_DB cfg); simpl.
  - apply lookup_insert_eq.
  - unfold Database.select_rate_limit. simpl. now rewrite select_rate_upsert.
Qed.

Lemma last_attempt_attempted_other cfg t id d other :
  other <> id ->
  last_attempt cfg (attempted cfg t id d) other = last_attempt cfg d other.
Proof.
  intros N. unfold last_attempt, attempted. destruct (MOCK_DB cfg); simpl.
  - apply lookup_insert_ne. congruence.
  - unfold Database.select_rate_limit. simpl.
    now rewrite select_rate_upsert_other.
Qed.

(** X6. When [recordDeployAttempt] returns for an identity, a later
    [checkRateLimit] of that identity answers whether the time elapsed since
    the recording is at least the cooldown, and the check of every other
    identity answers as before; with the SQL store the counter
    [deploy_count_24h] of the identity is one more than it was (1 when it had
    no record). Both stores. *)
Theorem recordDeployAttempt_then_check cfg e d t twitterId s' :
  run (Database.recordDeployAttempt cfg twitterId) e d t = (Ok tt, s') ->
  (forall e' t' cooldownMs, faults e' = [] ->
     fst (run (Database.checkRateLimit cfg twitterId cooldownMs) e' (db s') t')
       = Ok (cooldownMs <=? now e' - now e) /\
     forall other, other <> twitterId ->
       fst (run (Database.checkRateLimit cfg other cooldownMs) e' (db s') t') =
       fst (run (Database.checkRateLimit cfg other cooldownMs) e' d t')) /\
  (MOCK_DB cfg = false ->
   deploy_count_24h <$> Database.select_rate_limit twitterId (db s') =
   Some match Database.select_rate_limit twitterId d with
        | Some r => deploy_count_24h r + 1
        | None => 1
        end).
Proof.
  unfold run. rewrite Database_recordDeployAttempt_eq.
  destruct (rejection cfg e _); [discriminate|].
  intros H. injection H as <-. cbn [db with_db]. split.
  - intros e' t' c Hf. rewrite !Database_checkRateLimit_eq.
    rewrite !rejection_nil by exact Hf. cbn [fst db]. unfold can_deploy.
    rewrite last_attempt_attempted. split; [reflexivity|].
    intros other N. rewrite !Database_checkRateLimit_eq.
    rewrite !rejection_nil by exact Hf. cbn [fst db]. unfold can_deploy.
    now rewrite last_attempt_attempted_other.
  - intros M. unfold attempted. rewrite M.
    unfold Database.select_rate_limit. simpl. now rewrite select_rate_upsert.
Qed.

Lemma recordDeployAttempt_then_check_witness :
  let rs := run (Database.recordDeployAttempt Scenario.live "123456789")
                (Scenario.calm 5000) Scenario.cooling [] in
  rs = (Ok tt, snd rs) /\
  fst (run (Database.checkRateLimit Scenario.live "123456789"
              Worker.RATE_LIMIT_COOLDOWN_MS) (Scenario.calm 3605000)
         (db (snd rs)) []) = Ok true /\
  fst (run (Database.checkRateLimit Scenario.live "123456789"
              Worker.RATE_LIMIT_COOLDOWN_MS) (Scenario.calm 3604999)
         (db (snd rs)) []) = Ok false /\
  deploy_count_24h <$> Database.select_rate_limit "123456789" (db (snd rs))
    = Some 2.
Proof.
  cbv zeta.
  pose proof (recordDeployAttempt_then_check Scenario.live (Scenario.calm 5000)
                Scenario.cooling [] "123456789" _ eq_refl) as [H1 H2].
  split; [reflexivity|]. split; [|split].
  - exact (proj1 (H1 (Scenario.calm 3605000) [] _ eq_refl)).
  - exact (proj1 (H1 (Scenario.calm 3604999) [] _ eq_refl)).
  - exact (H2 eq_refl).
Defined.

End RateLimiterFacts.

(** ** Whole runs of the worker *)

Section WorkerFacts.

Import Store Pipeline Invariants.

Variable cfg : Config.
Variable data : DeploymentJob.

Let tweet : string := TweetMention.tweet_id (mention data).
Let requester : string := TweetMention.author_id (mention data).
Let recipient : string := ParentTweetInfo.author_id (parentTweet data).

Lemma last_attempt_updated t id st sd d u :
  last_attempt cfg (updated cfg t id st sd d) u = last_attempt cfg d u.
Proof.
  unfold last_attempt, updated. destruct (MOCK_DB cfg); [|reflexivity].
  now destruct (mockDeployments d !! id).
Qed.

Lemma last_attempt_created t p d u :
  last_attempt cfg (snd (created cfg t p d)) u = last_attempt cfg d u.
Proof.
  unfold last_attempt, created. destruct (MOCK_DB cfg); [reflexivity|].
  now destruct (exists_row _ d _).
Qed.

(** X7. A job delivered again for a source message that has a row does
    nothing when the existence check is answered: it returns the [skipped]
    outcome with the reason [duplicate], every store is exactly what it was,
    and nothing is deployed, written or replied. Both stores. *)
Theorem redelivery_is_skipped e d t r :
  stored cfg d tweet = Some r ->
  first_rejection cfg e = None ->
  exists s,
    run (Worker.processDeploymentJob cfg data) e d t
      = (Ok (Worker.skipped "duplicate"), s) /\
    db s = d /\ trace s = t.
Proof.
  intros Hs Hc.
  assert (X : exists_row cfg d tweet = true).
  { rewrite exists_row_stored. apply bool_decide_eq_true_2. rewrite Hs. eauto. }
  job_unfold. fold tweet. store_step. rewrite rejection_start, Hc. store_step.
  rewrite X. eexists. split; [reflexivity|]. settle. split; reflexivity.
Qed.

(** What [deploy] answers under [MOCK_CHAIN] does not fit the columns of the
    SQL store: the token address has 44 characters. *)
Lemma mock_token_address_does_not_fit :
  let result := BlockchainDeployer.mock_result in
  Database.columns_fit
    (Some (Database.StatusData.mk (DeploymentResult.tokenAddress result)
             (DeploymentResult.poolId result)
             (DeploymentResult.txHash result) None)) = false /\
  String.length <$> DeploymentResult.tokenAddress result = Some 44%nat.
Proof. split; reflexivity. Qed.


(** X9. With [MOCK_CHAIN] off the worker never deploys: it calls [deploy]
    without a signer, so [deploy] fails before its first step. In every run,
    whatever the pool does, no call to the launch API or to the chain is
    made, no row is moved to [deployed], no success reply is posted and the
    outcome is never [deployed]; a run that reaches [deploy] and returns
    returns the [failed] outcome with the error of the missing signer. *)
Theorem worker_never_deploys_on_the_live_chain e d t :
  MOCK_CHAIN cfg = false ->
  let rs := run (Worker.processDeploymentJob cfg data) e d t in
  exists l,
    trace (snd rs) = (t ++ l)%list /\
    (forall ev, In ev l ->
       is_step ev = false /\ ev <> EvStatus tweet deployed /\
       ev <> EvReplySuccess tweet) /\
    (forall a p h, fst rs <> Ok (Worker.job_deployed a p h)) /\
    (forall r, In (EvDeploy tweet) l -> fst rs = Ok r ->
       r = Worker.job_failed
             (message BlockchainDeployer.undefined_signer)).
Proof.
  intros Hm rs. subst rs. job_unfold. fold tweet requester recipient.
  repeat
    (store_step;
     match goal with
     | |- context [Store.rejection ?c ?e ?s] =>
         let R := fresh "R" in destruct (Store.rejection c e s) eqn:R
     | |- context [if Store.exists_row ?c ?d ?i then _ else _] =>
         let R := fresh "X" in destruct (Store.exists_row c d i) eqn:R
     | |- context [match Store.linked_wallet ?c ?d ?i with _ => _ end] =>
         let R := fresh "W" in destruct (Store.linked_wallet c d i) eqn:R
     | |- context [negb (Store.can_deploy ?c ?d ?t ?i ?m)] =>
         let R := fresh "L" in destruct (Store.can_deploy c d t i m) eqn:R
     | |- context [match fst (Store.created ?c ?t ?p ?d) with _ => _ end] =>
         let R := fresh "C" in destruct (fst (Store.created c t p d)) eqn:R
     | |- context [Store.unsigned_result ?c] =>
         unfold Store.unsigned_result; rewrite Hm
     end;
     cbv beta iota;
     cbn [negb DeploymentResult.success DeploymentResult.error
          DeploymentResult.txHash DeploymentResult.tokenAddress
          DeploymentResult.poolId BlockchainDeployer.mock_result]).
  all: settle.
  all: eexists; split; [repeat apply trace_ext_snoc; apply trace_ext_refl|].
  all: cbn [app]; split; [|split].
  all: try (intros ev Hev; cbn [In] in Hev;
            repeat (destruct Hev as [<-|Hev];
                    [split; [reflexivity|split; discriminate]|]);
            contradiction).
  all: try (intros ? ? ?; discriminate).
  all: intros r Hd Hr; cbn [In] in Hd;
       repeat match type of Hd with
              | _ \/ _ => destruct Hd as [Hd|Hd]; [try discriminate Hd|]
              end;
       try contradiction; try discriminate Hr.
  all: injection Hr as <-; reflexivity.
Qed.

(** X10. One reply per outcome. A run that returns [wallet_missing] has
    posted the wallet-required reply and no other; one that returns
    [rate_limited] or [failed] has posted one failure reply, with the reason
    of that outcome; one that returns [deployed] has posted the success reply
    and no other; a run that is skipped or that throws has posted no reply.
    All replies answer the job's source message. Whatever the pool and the
    chain do. *)
Theorem one_reply_per_outcome e d t :
  let rs := run (Worker.processDeploymentJob cfg data) e d t in
  exists l,
    trace (snd rs) = (t ++ l)%list /\
    List.filter is_reply l =
      match fst rs with
      | Ok (Worker.skipped _) => []
      | Ok Worker.job_wallet_missing => [EvReplyWalletRequired tweet]
      | Ok Worker.rate_limited =>
          [EvReplyFailure tweet
             "Rate limited. Please wait before deploying again."]
      | Ok (Worker.job_failed _) =>
          [EvReplyFailure tweet
             "On-chain deployment failed. Please try again."]
      | Ok (Worker.job_deployed _ _ _) => [EvReplySuccess tweet]
      | Thrown _ => []
      end.
Proof.
  intros rs. subst rs. job_unfold. fold tweet requester recipient.
  explore.
  all: settle.
  all: eexists; split; [repeat apply trace_ext_snoc; apply trace_ext_refl|].
  all: reflexivity.
Qed.

(** X11. The only errors a run throws are the errors of rejected queries:
    when [processDeploymentJob] throws, the store is the SQL one and the
    error is the one the pool gave for a query of this run; the creation of
    the row never fails on its own, since it follows the existence check.
    So with the in-memory store, or when the pool answers every query, the
    run returns. *)
Theorem job_throws_only_a_rejected_query e d t :
  let rs := run (Worker.processDeploymentJob cfg data) e d t in
  (forall err, fst rs = Thrown err ->
     MOCK_DB cfg = false /\
     exists k msg, nth k (faults e) None = Some msg /\ err = pg_error msg) /\
  (MOCK_DB cfg = true \/ faults e = [] -> exists r, fst rs = Ok r).
Proof.
  intros rs.
  assert (G : forall err, fst rs = Thrown err ->
     MOCK_DB cfg = false /\
     exists k msg, nth k (faults e) None = Some msg /\ err = pg_error msg).
  { subst rs. job_unfold. fold tweet requester recipient.
    explore.
    all: settle.
    all: intros err H; try discriminate H; injection H as <-.
    all: try match goal with
         | C : fst (created cfg ?t ?p ?d) = Thrown _,
           X : exists_row cfg ?d _ = false |- _ =>
             exfalso; destruct (created_fresh cfg t p d X) as [Hc _];
             rewrite Hc in C; discriminate C
         end.
    all: match goal with
         | R : rejection cfg _ _ = Some ?m |- context [pg_error ?m] =>
             unfold rejection in R; destruct (MOCK_DB cfg);
             [discriminate R|]; split; [reflexivity|];
             eexists _, _; split; [exact R|reflexivity]
         end. }
  split; [exact G|].
  intros H. destruct (fst rs) as [r|err] eqn:E; [eauto|].
  destruct (G err eq_refl) as (M & k & msg & Hk & _).
  destruct H as [H|H]; [congruence|].
  rewrite H in Hk. now destruct k.
Qed.

End WorkerFacts.

Section WorkerExamples.

Import Store Pipeline Invariants Scenario.

Lemma redelivery_is_skipped_witness :
  let d := snd (created live 5 params empty) in
  stored live d tweet = Some (sql_row 5 params empty) /\
  first_rejection live (calm 9) = None /\
  exists s,
    run (Worker.processDeploymentJob live job) (calm 9) d []
      = (Ok (Worker.skipped "duplicate"), s) /\
    db s = d /\ trace s = [].
Proof.
  cbv zeta. split; [reflexivity|]. split; [reflexivity|].
  apply (redelivery_is_skipped live job (calm 9) _ []
           (sql_row 5 params empty)); reflexivity.
Defined.


Lemma worker_never_deploys_on_the_live_chain_witness :
  MOCK_CHAIN live = false /\
  exists l,
    trace (snd (run (Worker.processDeploymentJob live job) (calm 5000)
                  linked [])) = l /\
    (forall ev, In ev l ->
       is_step ev = false /\ ev <> EvStatus tweet deployed /\
       ev <> EvReplySuccess tweet) /\
    (forall a p h,
       fst (run (Worker.processDeploymentJob live job) (calm 5000) linked [])
         <> Ok (Worker.job_deployed a p h)) /\
    (forall r, In (EvDeploy tweet) l ->
       fst (run (Worker.processDeploymentJob live job) (calm 5000) linked [])
         = Ok r ->
       r = Worker.job_failed
             (Some "Cannot read properties of undefined (reading 'address')")).
Proof.
  split; [reflexivity|].
  apply (worker_never_deploys_on_the_live_chain
           live job (calm 5000) linked []); reflexivity.
Defined.

End WorkerExamples.

(** ** Consecutive runs *)

Section ConsecutiveRuns.

Import Store Pipeline Invariants.

Variable cfg : Config.

Lemma attempt_is_recorded data e d t :
  let rs := run (Worker.processDeploymentJob cfg data) e d t in
  (exists a p h, fst rs = Ok (Worker.job_deployed a p h)) \/
  (exists err, fst rs = Ok (Worker.job_failed err)) ->
  last_attempt cfg (db (snd rs)) (TweetMention.author_id (mention data))
    = Some (now e).
Proof.
  intros rs. subst rs. job_unfold. explore.
  all: settle.
  all: intros [(? & ? & ? & H)|(? & H)]; try discriminate H.
  all: rewrite last_attempt_updated; apply last_attempt_attempted.
Qed.

Lemma blocked_run data e d t w :
  faults e = [] ->
  stored cfg d (TweetMention.tweet_id (mention data)) = None ->
  linked_wallet cfg d (ParentTweetInfo.author_id (parentTweet data)) = Some w ->
  can_deploy cfg d (now e) (TweetMention.author_id (mention data))
    Worker.RATE_LIMIT_COOLDOWN_MS = false ->
  let rs := run (Worker.processDeploymentJob cfg data) e d t in
  fst rs = Ok Worker.rate_limited /\ db (snd rs) = d.
Proof.
  intros Hf Hs Hw Hl rs. subst rs. apply exists_row_false in Hs.
  job_unfold.
  store_step. rewrite rejection_nil by exact Hf. store_step. rewrite Hs.
  store_step. rewrite rejection_nil by exact Hf. store_step. rewrite Hw.
  store_step. rewrite rejection_nil by exact Hf. store_step. rewrite Hl.
  cbn [negb]. settle. split; reflexivity.
Qed.

Lemma admitted_run data e d t w :
  faults e = [] ->
  stored cfg d (TweetMention.tweet_id (mention data)) = None ->
  linked_wallet cfg d (ParentTweetInfo.author_id (parentTweet data)) = Some w ->
  can_deploy cfg d (now e) (TweetMention.author_id (mention data))
    Worker.RATE_LIMIT_COOLDOWN_MS = true ->
  In (EvDeploy (TweetMention.tweet_id (mention data)))
     (trace (snd (run (Worker.processDeploymentJob cfg data) e d t))).
Proof.
  intros Hf Hs Hw Hl. apply exists_row_false in Hs.
  destruct (created_fresh cfg (now e) (Worker.create_params data w) d Hs)
    as [Hc _].
  job_unfold.
  store_step. rewrite rejection_nil by exact Hf. store_step. rewrite Hs.
  store_step. rewrite rejection_nil by exact Hf. store_step. rewrite Hw.
  store_step. rewrite rejection_nil by exact Hf. store_step. rewrite Hl.
  cbn [negb].
  store_step. rewrite rejection_nil by exact Hf. store_step. rewrite Hc.
  repeat (store_step; rewrite rejection_nil by exact Hf).
  store_step. unfold unsigned_result.
  destruct (MOCK_CHAIN cfg); cbv beta iota;
    cbn [negb DeploymentResult.success DeploymentResult.error
         DeploymentResult.txHash DeploymentResult.tokenAddress
         DeploymentResult.poolId BlockchainDeployer.mock_result];
    repeat (store_step; rewrite rejection_nil by exact Hf); store_step;
    settle; rewrite !in_app_iff; cbn [In]; tauto.
Qed.

(** X12. The cooldown across two runs. After a run that went down the
    deployment path (it returned [deployed] or [failed]), a job of the same
    requester for another source message, with a linked fee recipient and
    with the pool answering, is turned away as [rate_limited] without any
    change to the stores as long as less than [RATE_LIMIT_COOLDOWN_MS] (one
    hour) has passed since the first run; from one hour on it is let through
    and [deploy] is called for it. Both stores. *)
Theorem requester_is_limited_for_an_hour first next e d t e' t' w :
  let rs := run (Worker.processDeploymentJob cfg first) e d t in
  let rs' := run (Worker.processDeploymentJob cfg next) e' (db (snd rs)) t' in
  (exists a p h, fst rs = Ok (Worker.job_deployed a p h)) \/
  (exists err, fst rs = Ok (Worker.job_failed err)) ->
  TweetMention.author_id (mention next) = TweetMention.author_id (mention first) ->
  faults e' = [] ->
  stored cfg (db (snd rs)) (TweetMention.tweet_id (mention next)) = None ->
  linked_wallet cfg (db (snd rs))
    (ParentTweetInfo.author_id (parentTweet next)) = Some w ->
  Worker.RATE_LIMIT_COOLDOWN_MS = 3600000 /\
  (now e' - now e < Worker.RATE_LIMIT_COOLDOWN_MS ->
   fst rs' = Ok Worker.rate_limited /\ db (snd rs') = db (snd rs)) /\
  (Worker.RATE_LIMIT_COOLDOWN_MS <= now e' - now e ->
   In (EvDeploy (TweetMention.tweet_id (mention next))) (trace (snd rs'))).
Proof.
  intros rs rs' Ho Ha Hf Hs Hw.
  pose proof (attempt_is_recorded first e d t Ho) as Hr. fold rs in Hr.
  rewrite <- Ha in Hr.
  split; [reflexivity|]. split; intros Ht.
  - apply (blocked_run next e' (db (snd rs)) t' w Hf Hs Hw).
    unfold can_deploy. rewrite Hr. apply Z.leb_gt. exact Ht.
  - apply (admitted_run next e' (db (snd rs)) t' w Hf Hs Hw).
    unfold can_deploy. rewrite Hr. apply Z.leb_le. exact Ht.
Qed.

Lemma run_events data e d t :
  exists l,
    trace (snd (run (Worker.processDeploymentJob cfg data) e d t))
      = (t ++ l)%list /\
    forall ev, In ev l ->
      subject ev = Some (TweetMention.tweet_id (mention data)) \/
      ev = EvAttempt (TweetMention.author_id (mention data)).
Proof.
  job_unfold. explore.
  all: settle.
  all: eexists; split; [repeat apply trace_ext_snoc; apply trace_ext_refl|].
  all: cbn [app]; intros ev Hev; cbn [In] in Hev.
  all: repeat (destruct Hev as [<-|Hev]; [cbn [subject]; tauto|]);
       contradiction.
Qed.

(** X13. A stored row is final. Once a source message has a row, no later
    delivery changes that row, and nothing more is done for the message (no
    creation, no status write, no call of [deploy], no reply), whatever the
    other jobs are and whatever the pool and the chain do, as long as the
    pool answers the existence check of each redelivery of the message
    itself. Both stores. *)
Theorem stored_row_is_final xs d t id r :
  stored cfg d id = Some r ->
  Forall (fun x => TweetMention.tweet_id (mention (snd x)) <> id \/
                   first_rejection cfg (fst x) = None) xs ->
  let w := deliver_all cfg xs (d, t) in
  stored cfg (fst w) id = Some r /\
  exists l, snd w = (t ++ l)%list /\
            forall ev, In ev l -> subject ev <> Some id.
Proof.
  intros Hs Hx w. subst w. revert d t Hs.
  induction Hx as [|[e job] xs Hj Hx IH]; intros d t Hs.
  - split; [exact Hs|]. exists []. split; [apply trace_ext_refl|].
    intros ev [].
  - cbn [deliver_all fold_left]. unfold deliver at 2 4. cbn [fst snd] in *.
    pose proof (delivery_keeps_row cfg e d t job id r Hs Hj) as Hk.
    destruct (IH _ (trace (snd (run (Worker.processDeploymentJob cfg job) e d t)))
                Hk) as (Hr & l2 & Hl2 & H2).
    split; [exact Hr|].
    destruct (run_events job e d t) as (l1 & Hl1 & H1).
    exists (l1 ++ l2)%list. split.
    + unfold deliver_all in Hl2. rewrite Hl2, Hl1. now rewrite app_assoc.
    + intros ev Hev. apply in_app_or in Hev as [Hev|Hev]; [|now apply H2].
      destruct (String.eqb_spec (TweetMention.tweet_id (mention job)) id)
        as [E|N].
      * exfalso. destruct Hj as [Hj|Hj]; [contradiction|].
        assert (X : exists_row cfg d (TweetMention.tweet_id (mention job)) = true).
        { rewrite exists_row_stored, E. apply bool_decide_eq_true_2.
          rewrite Hs. eauto. }
        revert Hl1. job_unfold. store_step. rewrite rejection_start, Hj.
        store_step. rewrite X. settle. intros Hl1.
        assert (l1 = []) as ->; [|contradiction].
        apply (app_inv_head t). now rewrite app_nil_r.
      * destruct (H1 ev Hev) as [S | ->]; [|discriminate].
        rewrite S. congruence.
Qed.

End ConsecutiveRuns.

Section ConsecutiveRunsExamples.

Import Store Pipeline Invariants Scenario Replay.

Lemma requester_is_limited_for_an_hour_witness :
  let rs := run (Worker.processDeploymentJob mocked job) (calm 1000) linked [] in
  let rs' := run (Worker.processDeploymentJob mocked second_job)
               (calm 3600999) (db (snd rs)) [] in
  let rs'' := run (Worker.processDeploymentJob mocked second_job)
                (calm 3601000) (db (snd rs)) [] in
  fst rs = Ok (Worker.job_deployed
                 (Some "0xMockTokenAddress12345678901234567890123456")
                 (Some "0xMockPoolId12345678901234567890123456789012")
                 (Some "0xMockTxHash12345678901234567890123456789012")) /\
  (fst rs' = Ok Worker.rate_limited /\ db (snd rs') = db (snd rs)) /\
  In (EvDeploy "1234567899") (trace (snd rs'')).
Proof.
  cbv zeta. split; [reflexivity|]. split.
  - apply (requester_is_limited_for_an_hour mocked job second_job
             (calm 1000) linked [] (calm 3600999) [] recipient_wallet);
      [left; eexists _, _, _; reflexivity|reflexivity..].
  - apply (requester_is_limited_for_an_hour mocked job second_job
             (calm 1000) linked [] (calm 3601000) [] recipient_wallet);
      [left; eexists _, _, _; reflexivity|reflexivity| reflexivity
      |reflexivity|reflexivity|discriminate].
Defined.

Lemma stored_row_is_final_witness :
  stored live with_row tweet = Some (sql_row 5 params empty) /\
  Forall (fun x => TweetMention.tweet_id (mention (snd x)) <> tweet \/
                   first_rejection live (fst x) = None) deliveries /\
  stored live (fst (deliver_all live deliveries (with_row, []))) tweet
    = Some (sql_row 5 params empty) /\
  exists l, snd (deliver_all live deliveries (with_row, [])) = l /\
            forall ev, In ev l -> subject ev <> Some tweet.
Proof.
  assert (F : Forall (fun x => TweetMention.tweet_id (mention (snd x)) <> tweet \/
                               first_rejection live (fst x) = None) deliveries).
  { repeat (constructor;
            [first [right; reflexivity | left; discriminate]|]).
    constructor. }
  split; [reflexivity|]. split; [exact F|].
  exact (stored_row_is_final live deliveries with_row [] tweet
           (sql_row 5 params empty) eq_refl F).
Defined.

Lemma one_row_per_source_message_witness :
  unique_rows empty /\
  (rows_for live (fst (deliver_all live deliveries (empty, []))) tweet <= 1)%nat.
Proof.
  assert (U : unique_rows empty) by constructor.
  split; [exact U|].
  exact (one_row_per_source_message live deliveries empty [] tweet U).
Defined.

Lemma no_wallet_no_deploy_witness :
  linked_wallet live empty "987654321" = None /\
  trace (snd (run (Worker.processDeploymentJob live job) (calm 7) empty []))
    = [EvCreated tweet; EvStatus tweet wallet_missing;
       EvReplyWalletRequired tweet] /\
  exists l,
    trace (snd (run (Worker.processDeploymentJob live job) (calm 7) empty []))
      = l /\
    forall ev, In ev l ->
      ev = EvCreated tweet \/ ev = EvStatus tweet wallet_missing \/
      ev = EvStatus tweet failed \/ ev = EvReplyWalletRequired tweet.
Proof.
  split; [reflexivity|]. split; [reflexivity|].
  exact (no_wallet_no_deploy live job (calm 7) empty [] eq_refl).
Defined.

Lemma rejected_write_leaves_failed_for_a_missing_wallet_witness :
  let msg := "Connection terminated unexpectedly" in
  MOCK_DB live = false /\
  stored live empty tweet = None /\
  linked_wallet live empty "987654321" = None /\
  faults (write_rejected 1000) = [None; None; None; Some msg; None] /\
  exists s,
    run (Worker.processDeploymentJob live job) (write_rejected 1000) empty []
      = (Thrown (pg_error msg), s) /\
    status <$> stored live (db s) tweet = Some failed /\
    error_message <$> stored live (db s) tweet = Some (Some msg) /\
    trace s = [EvCreated tweet; EvStatus tweet failed] /\
    forall e' t',
      first_rejection live e' = None ->
      exists s',
        run (Worker.processDeploymentJob live job) e' (db s) t'
          = (Ok (Worker.skipped "duplicate"), s') /\
        db s' = db s /\ trace s' = t'.
Proof.
  cbv zeta. do 4 (split; [reflexivity|]).
  exact (rejected_write_leaves_failed_for_a_missing_wallet
           live job (write_rejected 1000) empty []
           "Connection terminated unexpectedly" []
           eq_refl eq_refl eq_refl eq_refl).
Defined.

End ConsecutiveRunsExamples.

(** ** The steps of [deploy] *)

Section DeployerFacts.

Import Invariants.

Lemma or_else_not_empty o d : d <> "" -> Js.or_else o d <> "".
Proof.
  intros Hd. unfold Js.or_else. destruct o as [s|]; [|exact Hd].
  destruct (String.eqb_spec s ""); [exact Hd|assumption].
Qed.

(** X17. [deploy] with a signer, [MOCK_CHAIN] off. It never throws and
    touches no store. It takes its steps in the order login, payload,
    transaction, receipt, and stops at the first that throws: the
    transaction is submitted only when the login and the payload request
    have returned. The result is a success exactly when all four steps
    return, and then carries the hash of the submitted transaction and no
    error; any other result is a failure with a non-empty error message and
    no token address, pool or hash. *)
Theorem deploy_takes_its_steps_in_order cfg params sg e s :
  MOCK_CHAIN cfg = false ->
  exists r l,
    BlockchainDeployer.deploy cfg params (Some sg) e s
      = (Ok r, mkSt (db s) (queries s) (trace s ++ l)) /\
    (exists n, (1 <= n)%nat /\
               l = firstn n [EvLogin; EvGetPayload; EvCreateToken; EvWait]) /\
    (In EvCreateToken l ->
     login (chain e) = Returns tt /\
     exists pl, getTokenCreatePayload (chain e) = Returns pl) /\
    (DeploymentResult.success r = true <->
     exists pl h,
       login (chain e) = Returns tt /\
       getTokenCreatePayload (chain e) = Returns pl /\
       createToken (chain e) = Returns h /\
       wait (chain e) = Returns tt /\
       l = [EvLogin; EvGetPayload; EvCreateToken; EvWait] /\
       r = DeploymentResult.mk true (Some "0xPENDING_LOG_PARSE") (Some "0x0")
             (Some h) None) /\
    (DeploymentResult.success r = false ->
     exists msg, msg <> "" /\
                 r = DeploymentResult.mk false None None None (Some msg)).
Proof.
  intros Hm. unfold BlockchainDeployer.deploy. rewrite Hm.
  unfold try_catch, bind, ret, throw, emit, get_env, external.
  assert (U : "Unknown error" <> "") by discriminate.
  destruct (login (chain e)) as [[]|x1] eqn:E1; cbn.
  2:{ eexists _, [EvLogin]. split; [reflexivity|].
      split; [exists 1%nat; split; [lia|reflexivity]|].
      split; [cbn; intros [H|[]]; discriminate H|].
      split; [split; [discriminate|intros (? & ? & H & _); discriminate H]|].
      intros _. eexists. split; [|reflexivity]. now apply or_else_not_empty. }
  destruct (getTokenCreatePayload (chain e)) as [pl|x2] eqn:E2; cbn.
  2:{ eexists _, [EvLogin; EvGetPayload]. rewrite <- !app_assoc.
      split; [reflexivity|].
      split; [exists 2%nat; split; [lia|reflexivity]|].
      split; [cbn; intros [H|[H|[]]]; discriminate H|].
      split; [split; [discriminate|intros (? & ? & _ & H & _); discriminate H]|].
      intros _. eexists. split; [|reflexivity]. now apply or_else_not_empty. }
  destruct (createToken (chain e)) as [h|x3] eqn:E3; cbn.
  2:{ eexists _, [EvLogin; EvGetPayload; EvCreateToken]. rewrite <- !app_assoc.
      split; [reflexivity|].
      split; [exists 3%nat; split; [lia|reflexivity]|].
      split; [intros _; eauto|].
      split; [split; [discriminate|intros (? & ? & _ & _ & H & _); discriminate H]|].
      intros _. eexists. split; [|reflexivity]. now apply or_else_not_empty. }
  destruct (wait (chain e)) as [[]|x4] eqn:E4; cbn.
  2:{ eexists _, [EvLogin; EvGetPayload; EvCreateToken; EvWait].
      rewrite <- !app_assoc.
      split; [reflexivity|].
      split; [exists 4%nat; split; [lia|reflexivity]|].
      split; [intros _; eauto|].
      split; [split; [discriminate
                     |intros (? & ? & _ & _ & _ & H & _); discriminate H]|].
      intros _. eexists. split; [|reflexivity]. now apply or_else_not_empty. }
  eexists _, [EvLogin; EvGetPayload; EvCreateToken; EvWait].
  rewrite <- !app_assoc.
  split; [reflexivity|].
  split; [exists 4%nat; split; [lia|reflexivity]|].
  split; [intros _; eauto|].
  split; [|discriminate].
  split; [|reflexivity]. intros _. exists pl, h. repeat split; reflexivity.
Qed.

Lemma deploy_takes_its_steps_in_order_witness :
  MOCK_CHAIN Scenario.live = false /\
  exists r l,
    BlockchainDeployer.deploy Scenario.live Scenario.deploy_params
      (Some Scenario.signer) (mkEnv 1000 [] Scenario.receipt_times_out)
      (mkSt Scenario.empty 0 [])
      = (Ok r, mkSt Scenario.empty 0 l) /\
    l = [EvLogin; EvGetPayload; EvCreateToken; EvWait] /\
    r = DeploymentResult.mk false None None None (Some "timeout").
Proof.
  split; [reflexivity|].
  destruct (deploy_takes_its_steps_in_order Scenario.live Scenario.deploy_params
              Scenario.signer (mkEnv 1000 [] Scenario.receipt_times_out)
              (mkSt Scenario.empty 0 []) eq_refl) as (r & l & H & _).
  exists r, l. split; [exact H|].
  vm_compute in H. injection H as H1 H2. now subst.
Defined.

End DeployerFacts.

(** ** What the parser returns *)

Section ParserResultFacts.

Import Regex CommandParser.

(** [/^[class]+$/] on a whole string. *)
Lemma star_class_to_the_end p s c :
  run_re (Star true (Chr p)) s c
    (fun s' c' => run_re Eos s' c' (fun _ c'' => Some c''))
  = if Database.all_chars p s then Some c else None.
Proof.
  revert c. induction s as [|a s IH]; intros c; [reflexivity|].
  cbn [run_re] in IH. cbn [run_re String.length Database.all_chars].
  assert (L : (String.length s <? S (String.length s))%nat = true)
    by (apply Nat.ltb_lt; lia).
  rewrite L. destruct (p a); cbn [andb]; [|reflexivity].
  rewrite IH. now destruct (Database.all_chars p s).
Qed.

Lemma class_to_the_end p s :
  bool_decide (is_Some (match_here (Seq (Plus true (Chr p)) Eos) s))
  = negb (String.eqb s "") && Database.all_chars p s.
Proof.
  unfold match_here, Plus.
  change (run_re (Seq (Seq (Chr p) (Star true (Chr p))) Eos) s []
            (fun _ c => Some c))
    with (match s with
          | String a s' =>
              if p a
              then run_re (Star true (Chr p)) s' []
                     (fun s'' c' => run_re Eos s'' c' (fun _ c'' => Some c''))
              else None
          | EmptyString => None
          end).
  destruct s as [|a s]; [reflexivity|]. cbn [String.eqb negb andb Database.all_chars].
  destruct (p a); [|reflexivity]. rewrite star_class_to_the_end.
  now destruct (Database.all_chars p s).
Qed.

Lemma tickerSchema_spec s :
  tickerSchema s = true <->
  (1 <= String.length s <= 10)%nat /\ Database.all_chars is_alnum s = true.
Proof.
  unfold tickerSchema. rewrite class_to_the_end, !andb_true_iff.
  rewrite !Nat.leb_le. intuition.
  destruct s; [simpl in *; lia|reflexivity].
Qed.

Lemma nameSchema_spec s :
  nameSchema s = true <->
  (1 <= String.length s <= 50)%nat /\ Database.all_chars is_name_char s = true.
Proof.
  unfold nameSchema. rewrite class_to_the_end, !andb_true_iff.
  rewrite !Nat.leb_le. intuition.
  destruct s; [simpl in *; lia|reflexivity].
Qed.

Lemma upper_char_not_lower c : Js.is_lower (Js.upper_char c) = false.
Proof.
  destruct c as [[] [] [] [] [] [] [] []]; reflexivity.
Qed.

Lemma upper_char_idem c : Js.upper_char (Js.upper_char c) = Js.upper_char c.
Proof.
  destruct c as [[] [] [] [] [] [] [] []]; reflexivity.
Qed.

Lemma upper_char_not_sharp c :
  (nat_of_ascii c =? 223)%nat = false ->
  (nat_of_ascii (Js.upper_char c) =? 223)%nat = false.
Proof.
  destruct c as [[] [] [] [] [] [] [] []]; intros H;
    first [reflexivity | discriminate H].
Qed.

Lemma toUpperCase_idem s : Js.toUpperCase (Js.toUpperCase s) = Js.toUpperCase s.
Proof.
  induction s as [|c s IH]; [reflexivity|]. cbn [Js.toUpperCase].
  destruct (nat_of_ascii c =? 223)%nat eqn:E.
  - cbn [Js.toUpperCase]. rewrite IH. reflexivity.
  - cbn [Js.toUpperCase]. rewrite (upper_char_not_sharp c E), IH.
    now rewrite upper_char_idem.
Qed.

Lemma upper_alnum s :
  Database.all_chars is_alnum (Js.toUpperCase s) = true ->
  Database.all_chars (fun c => Js.is_upper c || Js.is_digit c)
    (Js.toUpperCase s) = true.
Proof.
  induction s as [|c s IH]; [reflexivity|].
  cbn [Js.toUpperCase]. destruct (nat_of_ascii c =? 223)%nat.
  - cbn [Database.all_chars]. rewrite !andb_true_iff.
    intros (_ & _ & H). repeat split; [reflexivity..|now apply IH].
  - cbn [Database.all_chars]. rewrite !andb_true_iff.
    intros [H1 H2]. split; [|now apply IH].
    unfold is_alnum in H1. rewrite upper_char_not_lower in H1.
    now rewrite orb_false_r in H1.
Qed.

Lemma trimEnd_idem s : Js.trimEnd (Js.trimEnd s) = Js.trimEnd s.
Proof.
  induction s as [|c s IH]; [reflexivity|]. cbn [Js.trimEnd].
  destruct (Js.trimEnd s) as [|c' r] eqn:E.
  - destruct (Js.is_space c) eqn:Ec; [reflexivity|].
    cbn [Js.trimEnd]. now rewrite Ec.
  - cbn [Js.trimEnd] in *. now rewrite IH.
Qed.

Lemma trimStart_trimEnd_trimStart s :
  Js.trimStart (Js.trimEnd (Js.trimStart s)) = Js.trimEnd (Js.trimStart s).
Proof.
  induction s as [|c s IH]; [reflexivity|]. cbn [Js.trimStart].
  destruct (Js.is_space c) eqn:Ec; [exact IH|].
  cbn [Js.trimEnd]. destruct (Js.trimEnd s);
    rewrite ?Ec; cbn [Js.trimStart]; now rewrite Ec.
Qed.

Lemma trim_idem s : Js.trim (Js.trim s) = Js.trim s.
Proof.
  unfold Js.trim. rewrite trimStart_trimEnd_trimStart. apply trimEnd_idem.
Qed.

Lemma trim_without_space p s :
  (forall c, p c = true -> Js.is_space c = false) ->
  Database.all_chars p s = true -> Js.trim s = s.
Proof.
  intros Hp H. unfold Js.trim.
  assert (S : Js.trimStart s = s).
  { destruct s as [|c s]; [reflexivity|]. cbn [Database.all_chars] in H.
    apply andb_true_iff in H as [H _]. cbn [Js.trimStart].
    now rewrite (Hp c H). }
  rewrite S. clear S. induction s as [|c s IH]; [reflexivity|].
  cbn [Database.all_chars] in H. apply andb_true_iff in H as [H1 H2].
  cbn [Js.trimEnd]. rewrite (IH H2). rewrite (Hp c H1).
  now destruct s.
Qed.

Lemma upper_or_digit_is_no_space c :
  Js.is_upper c || Js.is_digit c = true -> Js.is_space c = false.
Proof.
  destruct c as [[] [] [] [] [] [] [] []]; cbn; intros H;
    first [reflexivity | discriminate H].
Qed.

(** X18. [parse] returns only commands that pass the validation: when it
    returns a command, [validate] accepts it; the ticker has between 1 and 10
    characters, all of them upper-case letters or digits; the name has
    between 1 and 50 characters, all of them letters, digits, white space,
    [-], [_] or [.]; and neither has white space at its ends. *)
Theorem parse_returns_only_valid_commands this text c :
  parse this text = Some c ->
  validate c = true /\
  ((1 <= String.length (ticker c) <= 10)%nat /\
   Database.all_chars (fun x => Js.is_upper x || Js.is_digit x) (ticker c)
     = true) /\
  ((1 <= String.length (name c) <= 50)%nat /\
   Database.all_chars is_name_char (name c) = true) /\
  Js.trim (ticker c) = ticker c /\ Js.trim (name c) = name c.
Proof.
  unfold parse.
  destruct (negb (Js.includes _ ("@" ++ botUsername this)) || _); [discriminate|].
  set (found := match exec ticker_re text, exec name_re text with
                | Some tm, Some nm => _
                | _, _ => _
                end).
  assert (F : forall tk nm, found = Some (tk, nm) ->
                exists x y, tk = Js.toUpperCase (Js.trim x) /\ nm = Js.trim y).
  { subst found. intros tk nm.
    destruct (exec ticker_re text) as [tm|];
      [destruct (exec name_re text) as [nm'|]|];
      try (intros H; injection H as <- <-; eauto).
    all: destruct (exec simple_re text); [|discriminate];
         intros H; injection H as <- <-; eauto. }
  destruct found as [[tk nm]|]; [|discriminate].
  destruct (F tk nm eq_refl) as (x & y & -> & ->). clear F.
  destruct (negb (nonempty _)); [discriminate|].
  destruct (negb (nonempty (Js.trim y))); [discriminate|].
  destruct (tickerSchema _) eqn:T; [|discriminate].
  destruct (nameSchema _) eqn:N; [|discriminate].
  cbn [negb]. intros H. injection H as <-. cbn [ticker name].
  unfold validate. cbn [ticker name]. rewrite T, N.
  apply tickerSchema_spec in T as [T1 T2].
  apply nameSchema_spec in N as [N1 N2].
  split; [reflexivity|]. split; [split; [exact T1|now apply upper_alnum]|].
  split; [split; assumption|]. split; [|apply trim_idem].
  apply (trim_without_space (fun x => Js.is_upper x || Js.is_digit x));
    [exact upper_or_digit_is_no_space|now apply upper_alnum].
Qed.

Lemma parse_returns_only_valid_commands_witness :
  let text := "@MyBot deploy ticker: ojas
name: Ojas Narang  " in
  let c := mkDeployCommand "OJAS" "Ojas Narang" in
  parse (new "mybot") text = Some c /\
  validate c = true /\
  ((1 <= String.length (ticker c) <= 10)%nat /\
   Database.all_chars (fun x => Js.is_upper x || Js.is_digit x) (ticker c)
     = true) /\
  ((1 <= String.length (name c) <= 50)%nat /\
   Database.all_chars is_name_char (name c) = true) /\
  Js.trim (ticker c) = ticker c /\ Js.trim (name c) = name c.
Proof.
  cbv zeta. split; [reflexivity|].
  apply (parse_returns_only_valid_commands (new "mybot")
           "@MyBot deploy ticker: ojas
name: Ojas Narang  "). reflexivity.
Defined.

End ParserResultFacts.

(** ** What [decrypt] makes of malformed data *)

Section DecryptFacts.

Import WalletService.

Variable aes_256_cbc_decrypt : Buffer -> Buffer -> Buffer -> option Buffer.
Variable this : t.

(** X19. [decrypt] throws one error only, "Failed to decrypt data. Check
    ENCRYPTION_KEY.", and it throws it, whatever the cipher, for data without
    a colon, for data with an empty first or second field, and for data whose
    first field does not decode to 16 bytes. *)
Theorem decrypt_rejects_malformed_data :
  (forall data err,
     decrypt aes_256_cbc_decrypt this data = Thrown err ->
     err = decrypt_failed) /\
  (forall data,
     avoids ":" data = true ->
     decrypt aes_256_cbc_decrypt this data = Thrown decrypt_failed) /\
  (forall rest,
     decrypt aes_256_cbc_decrypt this (":" ++ rest) = Thrown decrypt_failed) /\
  (forall ivHex rest,
     avoids ":" ivHex = true ->
     decrypt aes_256_cbc_decrypt this (ivHex ++ "::" ++ rest)
       = Thrown decrypt_failed /\
     decrypt aes_256_cbc_decrypt this (ivHex ++ ":") = Thrown decrypt_failed) /\
  (forall ivHex rest,
     avoids ":" ivHex = true ->
     length (from_hex ivHex) <> 16%nat ->
     decrypt aes_256_cbc_decrypt this (ivHex ++ ":" ++ rest)
       = Thrown decrypt_failed).
Proof.
  split; [|split; [|split; [|split]]].
  - intros data err. unfold decrypt.
    destruct (negb (Js.truthy _) || negb (Js.truthy _));
      [congruence|].
    destruct (negb (length _ =? 16)%nat); [congruence|].
    destruct (Nat.odd _); [congruence|].
    destruct (aes_256_cbc_decrypt _ _ _); [discriminate|congruence].
  - intros data H. unfold decrypt. rewrite (split_avoids _ _ H).
    cbn. now rewrite orb_true_r.
  - intros rest. unfold decrypt. reflexivity.
  - intros ivHex rest H. unfold decrypt. split.
    + change (ivHex ++ "::" ++ rest) with (ivHex ++ String ":" (":" ++ rest)).
      rewrite (split_at _ _ _ H). cbn. now rewrite orb_true_r.
    + change (ivHex ++ ":") with (ivHex ++ String ":" "").
      rewrite (split_at _ _ _ H). cbn. now rewrite orb_true_r.
  - intros ivHex rest H L. unfold decrypt.
    change (ivHex ++ ":" ++ rest) with (ivHex ++ String ":" rest).
    rewrite (split_at _ _ _ H).
    destruct (split ":" rest) as [|b bs] eqn:E;
      [destruct rest; simpl in E; [discriminate|];
       destruct (Ascii.eqb _ _); [discriminate|];
       destruct (split ":" rest); discriminate|].
    cbn [lookup list_lookup].
    destruct (negb (Js.truthy (Some ivHex)) || negb (Js.truthy (Some b)));
      [reflexivity|].
    cbn [Js.or_else].
    destruct (String.eqb_spec ivHex "") as [->|_].
    + reflexivity.
    + apply Nat.eqb_neq in L. now rewrite L.
Qed.

(** X20. [decrypt] reads the first two fields only: whatever follows a
    second colon is ignored. *)
Theorem decrypt_ignores_later_fields ivHex encryptedText rest :
  avoids ":" ivHex = true ->
  avoids ":" encryptedText = true ->
  decrypt aes_256_cbc_decrypt this
    (ivHex ++ ":" ++ encryptedText ++ ":" ++ rest)
  = decrypt aes_256_cbc_decrypt this (ivHex ++ ":" ++ encryptedText).
Proof.
  intros H1 H2. unfold decrypt.
  change (ivHex ++ ":" ++ encryptedText ++ ":" ++ rest)
    with (ivHex ++ String ":" (encryptedText ++ String ":" rest)).
  change (ivHex ++ ":" ++ encryptedText)
    with (ivHex ++ String ":" encryptedText).
  rewrite !(split_at _ _ _ H1), (split_at _ _ _ H2), (split_avoids _ _ H2).
  reflexivity.
Qed.

End DecryptFacts.

Lemma decrypt_ignores_later_fields_witness :
  let ivHex := WalletService.toString_hex Scenario.some_iv in
  WalletService.avoids ":" ivHex = true /\
  WalletService.avoids ":" "00307834" = true /\
  WalletService.decrypt Scenario.framing_decrypt Scenario.wallet_service
    (ivHex ++ ":" ++ "00307834" ++ ":" ++ "ignored:fields")
  = Ok "0x4".
Proof.
  cbv zeta. split; [reflexivity|]. split; [reflexivity|].
  rewrite (decrypt_ignores_later_fields Scenario.framing_decrypt
             Scenario.wallet_service _ "00307834" "ignored:fields");
    reflexivity.
Defined.

(** ** Linking a wallet over the API *)

Section WalletLinkFacts.

Import Store Invariants WalletLink.

Variable cfg : Config.

Ltac link_step :=
  cbv beta iota zeta delta [run try_catch bind ret external get_env throw];
  cbn [fst snd].

Lemma truthy_Some o : Js.truthy o = true -> o = Some (Js.or_else o "") /\ Js.or_else o "" <> "".
Proof.
  destruct o as [x|]; [|discriminate]. cbn.
  destruct (String.eqb_spec x ""); [discriminate|]. now split.
Qed.

Lemma or_else_Some x : x <> "" -> Js.or_else (Some x) "" = x.
Proof. intros H. cbn. now destruct (String.eqb_spec x ""). Qed.

Lemma truthy_Some_iff x : x <> "" -> Js.truthy (Some x) = true.
Proof. intros H. cbn. now destruct (String.eqb_spec x ""). Qed.

Lemma is_hex_lower c :
  Database.is_hex c = true -> Database.is_hex (Js.lower_char c) = true.
Proof.
  destruct c as [[] [] [] [] [] [] [] []]; cbn; intros H;
    first [reflexivity | discriminate H].
Qed.

Lemma all_hex_lower r :
  Database.all_chars Database.is_hex r = true ->
  Database.all_chars Database.is_hex (Js.toLowerCase r) = true.
Proof.
  induction r as [|c r IH]; [reflexivity|].
  cbn [Database.all_chars Js.toLowerCase]. rewrite !andb_true_iff.
  intros [H1 H2]. split; [now apply is_hex_lower|now apply IH].
Qed.

Lemma length_toLowerCase r : String.length (Js.toLowerCase r) = String.length r.
Proof. induction r as [|c r IH]; [reflexivity|]. cbn. now rewrite IH. Qed.

Lemma valid_wallet_lower a :
  Database.valid_wallet a = true ->
  Database.valid_wallet (Js.toLowerCase a) = true.
Proof.
  destruct a as [|c0 [|c1 r]]; try discriminate.
  cbn [Database.valid_wallet Js.toLowerCase]. rewrite !andb_true_iff.
  intros [[[H0 H1] H2] H3].
  apply Ascii.eqb_eq in H0, H1. subst c0 c1.
  rewrite length_toLowerCase. repeat split; try assumption; try reflexivity.
  now apply all_hex_lower.
Qed.

Lemma valid_wallet_truthy a :
  Database.valid_wallet a = true -> Js.or_null (Some a) = Some a.
Proof. destruct a; [discriminate|reflexivity]. Qed.

(** X21. [POST /verify] never throws, and it links a wallet only against a
    live challenge: when it answers with the linked identity, the signature
    verification succeeded, a challenge was pending for this identity and
    the verified address, its nonce is the nonce of the verified message and
    it had not expired; the identity is then stored with the lower-case
    address and no custodial key, and the challenge is removed. With any
    other answer the database is what it was, and the pending challenges are
    what they were, or one of them has been removed. Both stores. *)
Theorem verify_links_only_against_a_live_challenge
  siwe message signature twitterId ns e d t :
  let rs := run (verify cfg siwe message signature twitterId ns) e d t in
  exists resp ns',
    fst rs = Ok (resp, ns') /\
    match resp with
    | JsonLinked id wallet =>
        exists r entry,
          twitterId = Some id /\
          verifySignature siwe = Returns r /\
          success r = true /\ error r = false /\
          ns !! key_of id (address (data r)) = Some entry /\
          nonce entry = data_nonce (data r) /\
          now e <= expiresAt entry /\
          wallet = Js.toLowerCase (address (data r)) /\
          ns' = delete (key_of id (address (data r))) ns /\
          stored_user cfg (db (snd rs)) id = Some (mkUser id wallet None (now e))
    | _ => db (snd rs) = d /\ (ns' = ns \/ exists k, ns' = delete k ns)
    end.
Proof.
  intros rs. subst rs. unfold verify.
  destruct (negb (Js.truthy message) || negb (Js.truthy signature)
            || negb (Js.truthy twitterId)) eqn:B.
  { eexists _, _. split; [reflexivity|]. cbn. auto. }
  apply orb_false_iff in B as [_ B]. apply negb_false_iff in B.
  destruct (truthy_Some _ B) as [Hid _].
  set (id := Js.or_else twitterId "") in *.
  link_step.
  destruct (parseMessage siwe) as [[]|x]; link_step;
    [|eexists _, _; split; [reflexivity|]; cbn; auto].
  destruct (verifySignature siwe) as [r|x] eqn:V; link_step;
    [|eexists _, _; split; [reflexivity|]; cbn; auto].
  destruct (negb (success r) || error r) eqn:S; link_step;
    [eexists _, _; split; [reflexivity|]; cbn; auto|].
  apply orb_false_iff in S as [S1 S2]. apply negb_false_iff in S1.
  destruct (ns !! key_of id (address (data r))) as [entry|] eqn:L; link_step;
    [|eexists _, _; split; [reflexivity|]; cbn; auto].
  destruct (negb (String.eqb (nonce entry) (data_nonce (data r)))) eqn:N;
    link_step; [eexists _, _; split; [reflexivity|]; cbn; auto|].
  apply negb_false_iff, String.eqb_eq in N.
  destruct (expiresAt entry <? now e) eqn:X; link_step;
    [eexists _, _; split; [reflexivity|]; cbn; eauto|].
  apply Z.ltb_ge in X.
  rewrite Database_upsertUser_eq.
  destruct (rejection cfg e _); link_step;
    [eexists _, _; split; [reflexivity|]; cbn; rewrite db_sent; auto|].
  cbn [db].
  destruct (upserted cfg (mkUser id (Js.toLowerCase (address (data r))) None (now e))
              (now e) d) as [[u|x] d'] eqn:U; link_step.
  - destruct (upserted_ok cfg _ _ _ _ (f_equal fst U)) as (-> & Hu & _).
    rewrite U in Hu. cbn [snd twitter_id] in Hu.
    eexists _, _. split; [reflexivity|]. cbn [twitter_id wallet_address].
    exists r, entry. repeat split; try assumption; try reflexivity.
  - eexists _, _. split; [reflexivity|]. cbn [db with_db]. split; [|auto].
    revert U. unfold upserted.
    destruct (MOCK_DB cfg); [discriminate|].
    destruct (Database.valid_wallet _); [discriminate|]. now intros [= _ <-].
Qed.

(** X22. From the challenge to the link. After [POST /challenge] for an
    identity and a well-formed address, a [POST /verify] for that identity
    whose signature verification succeeds for that address and the issued
    nonce links the wallet when it comes within five minutes: it answers
    with the identity and the lower-case address, which is then the wallet
    the resolver finds and the address [GET /status] reports, verified at
    the time of the request. When it comes later it answers 401 "Challenge
    expired", links nothing and drops the challenge. This holds whether or
    not the challenge message itself could be built. Both stores, the pool
    answering. *)
Theorem challenge_then_verify
  siwe siwe' id a message signature T ns e d t :
  id <> "" -> message <> "" -> signature <> "" ->
  Database.valid_wallet a = true ->
  parseMessage siwe' = Returns tt ->
  verifySignature siwe'
    = Returns (mkSiweResponse true (mkSiweData a (generateNonce siwe)) false) ->
  faults e = [] ->
  let ns1 := snd (challenge siwe T (Some id) (Some a) ns) in
  let rs := run (verify cfg siwe' (Some message) (Some signature) (Some id) ns1)
              e d t in
  challenge_lifetime = 300000 /\
  (now e <= T + challenge_lifetime ->
   fst rs = Ok (JsonLinked id (Js.toLowerCase a), delete (key_of id a) ns1) /\
   linked_wallet cfg (db (snd rs)) id = Some (Js.toLowerCase a) /\
   forall e' t', faults e' = [] ->
     fst (run (status cfg id) e' (db (snd rs)) t')
       = Ok (JsonStatus (Some (Js.toLowerCase a)) (Some (now e)))) /\
  (T + challenge_lifetime < now e ->
   fst rs = Ok (Json401 "Challenge expired", delete (key_of id a) ns1) /\
   db (snd rs) = d).
Proof.
  intros Hid Hm Hs Ha Hp Hv Hf ns1 rs.
  assert (Ha' : a <> "") by (intros ->; discriminate Ha).
  assert (E1 : ns1 = <[key_of id a :=
                         mkNonceEntry (generateNonce siwe) (T + challenge_lifetime)]> ns).
  { subst ns1. unfold challenge.
    rewrite !truthy_Some_iff by assumption. cbn [negb orb].
    rewrite !or_else_Some by assumption. rewrite Ha. cbn [negb].
    now destruct (prepareMessage siwe). }
  assert (L : ns1 !! key_of id a
              = Some (mkNonceEntry (generateNonce siwe) (T + challenge_lifetime))).
  { rewrite E1. apply lookup_insert_eq. }
  split; [reflexivity|].
  subst rs. unfold verify.
  rewrite !truthy_Some_iff by assumption. cbn [negb orb].
  rewrite or_else_Some by assumption.
  link_step.
  rewrite Hp. link_step. rewrite Hv. link_step.
  cbn [success error negb orb data address data_nonce].
  rewrite L. cbn [nonce expiresAt]. rewrite String.eqb_refl. cbn [negb].
  link_step.
  split; intros Ht.
  - apply Z.ltb_ge in Ht. rewrite Ht.
    rewrite Database_upsertUser_eq, rejection_nil by exact Hf. link_step.
    assert (U : upserted cfg (mkUser id (Js.toLowerCase a) None (now e)) (now e) d
                = (Ok (mkUser id (Js.toLowerCase a) None (now e)),
                   snd (upserted cfg (mkUser id (Js.toLowerCase a) None (now e))
                          (now e) d))).
    { unfold upserted. destruct (MOCK_DB cfg); [reflexivity|].
      cbn [wallet_address]. now rewrite (valid_wallet_lower _ Ha). }
    cbn [db]. rewrite U. cbn [fst snd twitter_id wallet_address].
    split; [reflexivity|]. cbn [db with_db].
    destruct (upserted_ok cfg _ _ _ _ (f_equal fst U)) as (_ & Hu & _).
    cbn [twitter_id] in Hu. split.
    + unfold linked_wallet. rewrite Hu.
      cbn [fmap option_fmap option_map wallet_address].
      apply valid_wallet_truthy. now apply valid_wallet_lower.
    + intros e' t' Hf'. unfold status. link_step.
      rewrite Database_getUserByTwitterId_eq, rejection_nil by exact Hf'.
      cbn [db]. now rewrite Hu.
  - apply Z.ltb_lt in Ht. rewrite Ht. split; reflexivity.
Qed.

Lemma linked_inv siwe message signature twitterId ns e d t id wallet ns' s' :
  run (verify cfg siwe message signature twitterId ns) e d t
    = (Ok (JsonLinked id wallet, ns'), s') ->
  exists r,
    (Js.truthy message = true /\ Js.truthy signature = true /\
     Js.truthy twitterId = true /\ Js.or_else twitterId "" = id) /\
    parseMessage siwe = Returns tt /\
    verifySignature siwe = Returns r /\
    success r = true /\ error r = false /\
    ns' = delete (key_of id (address (data r))) ns.
Proof.
  unfold verify.
  destruct (Js.truthy message); [|discriminate].
  destruct (Js.truthy signature); [|discriminate].
  destruct (Js.truthy twitterId); [|discriminate].
  cbn [negb orb]. set (i := Js.or_else twitterId "").
  link_step.
  destruct (parseMessage siwe) as [[]|x]; link_step; [|discriminate].
  destruct (verifySignature siwe) as [r|x]; link_step; [|discriminate].
  destruct (success r) eqn:S1; destruct (error r) eqn:S2;
    cbn [negb orb]; link_step; try discriminate.
  destruct (ns !! key_of i (address (data r))) as [entry|]; link_step;
    [|discriminate].
  destruct (negb (String.eqb (nonce entry) (data_nonce (data r))));
    link_step; [discriminate|].
  destruct (expiresAt entry <? now e); link_step; [discriminate|].
  rewrite Database_upsertUser_eq.
  destruct (rejection cfg e _); link_step; [discriminate|].
  destruct (upserted cfg _ (now e) _) as [[u|x] d'] eqn:U; link_step;
    [|discriminate].
  destruct (upserted_ok cfg _ _ _ _ (f_equal fst U)) as (-> & _).
  cbn [twitter_id wallet_address]. intros [= <- _ <- _].
  exists r. repeat split; first [reflexivity | assumption].
Qed.

(** X23. A challenge is used once. After [POST /verify] has linked a wallet,
    the same request sent again, verified by the library as before, is
    answered 401 "Invalid or expired nonce": it sends no query, and changes
    neither the database nor the pending challenges. Both stores. *)
Theorem a_challenge_is_single_use
  siwe message signature twitterId ns e d t id wallet ns' s' :
  run (verify cfg siwe message signature twitterId ns) e d t
    = (Ok (JsonLinked id wallet, ns'), s') ->
  forall e' t',
    run (verify cfg siwe message signature twitterId ns') e' (db s') t'
    = (Ok (Json401 "Invalid or expired nonce", ns'), mkSt (db s') 0 t').
Proof.
  intros H e' t'.
  destruct (linked_inv _ _ _ _ _ _ _ _ _ _ _ _ H)
    as (r & (M & S & T & I) & P & V & S1 & S2 & ->).
  unfold verify. rewrite M, S, T, I. cbn [negb orb]. link_step.
  rewrite P. link_step. rewrite V. link_step. rewrite S1, S2.
  cbn [negb orb].
  assert (Z : delete (key_of id (address (data r))) ns
              !! key_of id (address (data r)) = None)
    by apply lookup_delete_eq.
  now rewrite Z.
Qed.

(** X24. A new challenge replaces the pending one. When a second
    [POST /challenge] is made for the same identity and address, a
    [POST /verify] of a message that carries the nonce of the first
    challenge is answered 401 "Invalid or expired nonce", even when its
    signature is valid, and nothing is linked. *)
Theorem a_new_challenge_replaces_the_pending_one
  siwe1 siwe2 siwe' id a T1 T2 message signature ns e d t :
  id <> "" -> message <> "" -> signature <> "" ->
  Database.valid_wallet a = true ->
  generateNonce siwe2 <> generateNonce siwe1 ->
  parseMessage siwe' = Returns tt ->
  verifySignature siwe'
    = Returns (mkSiweResponse true (mkSiweData a (generateNonce siwe1)) false) ->
  let ns1 := snd (challenge siwe1 T1 (Some id) (Some a) ns) in
  let ns2 := snd (challenge siwe2 T2 (Some id) (Some a) ns1) in
  run (verify cfg siwe' (Some message) (Some signature) (Some id) ns2) e d t
  = (Ok (Json401 "Invalid or expired nonce", ns2), mkSt d 0 t).
Proof.
  intros Hid Hm Hs Ha Hn Hp Hv ns1 ns2.
  assert (Ha' : a <> "") by (intros ->; discriminate Ha).
  assert (L : ns2 !! key_of id a
              = Some (mkNonceEntry (generateNonce siwe2) (T2 + challenge_lifetime))).
  { subst ns2. unfold challenge at 1.
    rewrite !truthy_Some_iff by assumption. cbn [negb orb].
    rewrite !or_else_Some by assumption. rewrite Ha. cbn [negb].
    destruct (prepareMessage siwe2); apply lookup_insert_eq. }
  unfold verify.
  rewrite !truthy_Some_iff by assumption. cbn [negb orb].
  rewrite or_else_Some by assumption. link_step.
  rewrite Hp. link_step. rewrite Hv. link_step.
  cbn [success error negb orb data address data_nonce].
  rewrite L. cbn [nonce].
  apply String.eqb_neq in Hn. now rewrite Hn.
Qed.

End WalletLinkFacts.

Section WalletLinkExamples.

Import Store WalletLink LinkExamples.

Lemma challenge_then_verify_witness :
  let a := Scenario.other_wallet in
  let rs := run (verify Scenario.live (siwe "n2" a "n1") (Some "message")
                   (Some "0xsignature") (Some "987654321") pending)
              (Scenario.calm 301000) Scenario.empty [] in
  let rs' := run (verify Scenario.live (siwe "n2" a "n1") (Some "message")
                    (Some "0xsignature") (Some "987654321") pending)
               (Scenario.calm 301001) Scenario.empty [] in
  (fst rs = Ok (JsonLinked "987654321" "0x5c952063c7fc8610ffdb798152d69f0b9550762b",
                delete (key_of "987654321" a) pending) /\
   linked_wallet Scenario.live (db (snd rs)) "987654321"
     = Some "0x5c952063c7fc8610ffdb798152d69f0b9550762b") /\
  (fst rs' = Ok (Json401 "Challenge expired",
                 delete (key_of "987654321" a) pending) /\
   db (snd rs') = Scenario.empty).
Proof.
  cbv zeta. split.
  - destruct (challenge_then_verify Scenario.live (siwe "n1" "" "")
                (siwe "n2" Scenario.other_wallet "n1") "987654321"
                Scenario.other_wallet "message" "0xsignature" 1000 ∅
                (Scenario.calm 301000) Scenario.empty [])
      as (_ & H & _); try reflexivity; try discriminate.
    destruct H as (H1 & H2 & _); [discriminate|]. split; [exact H1|exact H2].
  - destruct (challenge_then_verify Scenario.live (siwe "n1" "" "")
                (siwe "n2" Scenario.other_wallet "n1") "987654321"
                Scenario.other_wallet "message" "0xsignature" 1000 ∅
                (Scenario.calm 301001) Scenario.empty [])
      as (_ & _ & H); try reflexivity; try discriminate.
    apply H. reflexivity.
Defined.

Lemma a_challenge_is_single_use_witness :
  let a := Scenario.other_wallet in
  let rs := run (verify Scenario.mocked (siwe "n2" a "n1") (Some "message")
                   (Some "0xsignature") (Some "987654321") pending)
              (Scenario.calm 2000) Scenario.empty [] in
  fst rs = Ok (JsonLinked "987654321" "0x5c952063c7fc8610ffdb798152d69f0b9550762b",
               delete (key_of "987654321" a) pending) /\
  fst (run (verify Scenario.mocked (siwe "n2" a "n1") (Some "message")
              (Some "0xsignature") (Some "987654321")
              (delete (key_of "987654321" a) pending))
         (Scenario.calm 2001) (db (snd rs)) [])
  = Ok (Json401 "Invalid or expired nonce",
        delete (key_of "987654321" a) pending).
Proof.
  cbv zeta. split; [reflexivity|].
  rewrite (a_challenge_is_single_use Scenario.mocked
             (siwe "n2" Scenario.other_wallet "n1") (Some "message")
             (Some "0xsignature") (Some "987654321") pending
             (Scenario.calm 2000) Scenario.empty []
             "987654321" "0x5c952063c7fc8610ffdb798152d69f0b9550762b"
             _ _ eq_refl).
  reflexivity.
Defined.

Lemma a_new_challenge_replaces_the_pending_one_witness :
  let a := Scenario.other_wallet in
  let ns2 := snd (challenge (siwe "n2" "" "") 1500 (Some "987654321") (Some a)
                    pending) in
  run (verify Scenario.live (siwe "n3" a "n1") (Some "message")
         (Some "0xsignature") (Some "987654321") ns2)
      (Scenario.calm 2000) Scenario.empty []
  = (Ok (Json401 "Invalid or expired nonce", ns2), mkSt Scenario.empty 0 []).
Proof.
  cbv zeta.
  apply (a_new_challenge_replaces_the_pending_one Scenario.live
           (siwe "n1" "" "") (siwe "n2" "" "")
           (siwe "n3" Scenario.other_wallet "n1") "987654321"
           Scenario.other_wallet 1000 1500 "message" "0xsignature" ∅
           (Scenario.calm 2000) Scenario.empty []);
    first [reflexivity | discriminate].
Defined.

End WalletLinkExamples.

(** ** The fields of a deploy message *)

Section DeployMessageFacts.

Import WalletService XListener.









End DeployMessageFacts.

(** ** The direct-message commands *)

Section DirectMessageFacts.

Import Store Invariants WalletService XListener.

Variable aes_256_cbc_encrypt : Buffer -> Buffer -> Buffer -> Buffer.
Variable aes_256_cbc_decrypt : Buffer -> Buffer -> Buffer -> option Buffer.
Variable cfg : Config.
Variable walletService : WalletService.t.
Variable ethers : Ethers.

Ltac dm_step :=
  cbv beta iota zeta delta
    [run try_catch bind ret external get_env throw getWallet];
  cbn [fst snd].

Lemma upserted_thrown u t d x :
  fst (upserted cfg u t d) = Thrown x -> snd (upserted cfg u t d) = d.
Proof.
  unfold upserted. destruct (MOCK_DB cfg); [discriminate|].
  now destruct (Database.valid_wallet _).
Qed.

Lemma deploy_makes_steps_only params signer e s :
  exists r l,
    BlockchainDeployer.deploy cfg params signer e s
      = (Ok r, mkSt (db s) (queries s) (trace s ++ l)) /\
    Forall (fun ev => is_step ev = true) l.
Proof.
  unfold BlockchainDeployer.deploy.
  destruct (MOCK_CHAIN cfg).
  { exists BlockchainDeployer.mock_result, []. rewrite app_nil_r.
    split; [now destruct s|constructor]. }
  unfold try_catch, bind, ret, throw, emit, get_env, external.
  destruct signer as [sg|]; cbn.
  2:{ eexists _, []. rewrite app_nil_r. split; [now destruct s|constructor]. }
  destruct (login (chain e)) as [[]|x1]; cbn.
  2:{ eexists _, [EvLogin]. split; [reflexivity|]. repeat constructor. }
  destruct (getTokenCreatePayload (chain e)) as [pl|x2]; cbn.
  2:{ eexists _, [EvLogin; EvGetPayload]. rewrite <- !app_assoc.
      split; [reflexivity|]. repeat constructor. }
  destruct (createToken (chain e)) as [h|x3]; cbn.
  2:{ eexists _, [EvLogin; EvGetPayload; EvCreateToken]. rewrite <- !app_assoc.
      split; [reflexivity|]. repeat constructor. }
  destruct (wait (chain e)) as [[]|x4]; cbn;
    eexists _, [EvLogin; EvGetPayload; EvCreateToken; EvWait];
    rewrite <- !app_assoc; (split; [reflexivity|]); repeat constructor.
Qed.

(** X26. A deploy by direct message needs a funded custodial wallet, and
    leaves no record. [handleDeployCommand] never throws and never changes
    the database: no row is created and no attempt is recorded, whatever the
    outcome. It announces a deployment, and [deploy] is called, only when
    the message gives a name, a symbol and an image, the sender has a stored
    custodial key that decrypts to a key ethers accepts, and the balance of
    that wallet is at least 0.015 BNB; the only calls logged are the steps
    of [deploy]. Every message it sends goes to the sender. *)
Theorem dm_deploy_needs_a_funded_custodial_wallet senderId text e d t :
  let rs := run (handleDeployCommand aes_256_cbc_decrypt cfg walletService
                   ethers senderId text) e d t in
  let params := parse_params text in
  exists dms l,
    fst rs = Ok dms /\
    db (snd rs) = d /\
    trace (snd rs) = (t ++ l)%list /\
    Forall (fun ev => is_step ev = true) l /\
    dms <> [] /\ Forall (fun m => fst m = senderId) dms /\
    (l <> [] \/ (exists symbol, In (senderId, DmDeploying symbol) dms) ->
     (Js.truthy (params !! "name") = true /\
      Js.truthy (params !! "symbol") = true /\
      Js.truthy (params !! "image") = true) /\
     exists u key privateKey wallet balance,
       stored_user cfg d senderId = Some u /\
       private_key_encrypted u = Some key /\
       decrypt aes_256_cbc_decrypt walletService key = Ok privateKey /\
       newWallet ethers privateKey = Returns wallet /\
       getBalance ethers (BlockchainDeployer.address wallet) = Returns balance /\
       required_balance <= balance).
Proof.
  intros rs params. subst rs. unfold handleDeployCommand. fold params.
  assert (Q : forall (dm : Dm) s,
            db s = d -> trace s = t ->
            (forall symbol, dm <> DmDeploying symbol) ->
            exists dms l,
              Ok [(senderId, dm)] = Ok dms /\ db s = d /\
              trace s = (t ++ l)%list /\
              Forall (fun ev => is_step ev = true) l /\
              dms <> [] /\ Forall (fun m => fst m = senderId) dms /\
              (l <> [] \/ (exists symbol, In (senderId, DmDeploying symbol) dms) ->
               (Js.truthy (params !! "name") = true /\
                Js.truthy (params !! "symbol") = true /\
                Js.truthy (params !! "image") = true) /\
               exists u key privateKey wallet balance,
                 stored_user cfg d senderId = Some u /\
                 private_key_encrypted u = Some key /\
                 decrypt aes_256_cbc_decrypt walletService key = Ok privateKey /\
                 newWallet ethers privateKey = Returns wallet /\
                 getBalance ethers (BlockchainDeployer.address wallet)
                   = Returns balance /\
                 required_balance <= balance)).
  { intros dm s Hd Ht Hn. exists [(senderId, dm)], [].
    split; [reflexivity|]. split; [exact Hd|].
    split; [now rewrite app_nil_r|]. split; [constructor|].
    split; [discriminate|]. split; [repeat constructor|].
    intros [H|[symbol [H|[]]]]; [congruence|].
    injection H as H. now destruct (Hn symbol). }
  destruct (Js.truthy (params !! "name")) eqn:P1; cbn [negb orb];
    [|dm_step; apply Q; [reflexivity..|discriminate]].
  destruct (Js.truthy (params !! "symbol")) eqn:P2; cbn [negb orb];
    [|dm_step; apply Q; [reflexivity..|discriminate]].
  destruct (Js.truthy (params !! "image")) eqn:P3; cbn [negb orb];
    [|dm_step; apply Q; [reflexivity..|discriminate]].
  dm_step. rewrite Database_getUserByTwitterId_eq.
  destruct (rejection cfg e _); dm_step;
    [apply Q; [now rewrite db_sent|now rewrite trace_sent|discriminate]|].
  cbn [db].
  destruct (stored_user cfg d senderId) as [u|] eqn:U; dm_step;
    [|apply Q; [now rewrite db_sent|now rewrite trace_sent|discriminate]].
  destruct (private_key_encrypted u) as [key|] eqn:K; cbn [Js.truthy negb];
    [|dm_step; apply Q; [now rewrite db_sent|now rewrite trace_sent|discriminate]].
  destruct (String.eqb_spec key "") as [->|Hk]; cbn [negb]; dm_step;
    [apply Q; [now rewrite db_sent|now rewrite trace_sent|discriminate]|].
  rewrite (or_else_Some _ Hk).
  destruct (decrypt aes_256_cbc_decrypt walletService key) as [pk|x] eqn:D;
    dm_step;
    [|apply Q; [now rewrite db_sent|now rewrite trace_sent|discriminate]].
  destruct (newWallet ethers pk) as [wallet|x] eqn:W; dm_step;
    [|apply Q; [now rewrite db_sent|now rewrite trace_sent|discriminate]].
  destruct (getBalance ethers (BlockchainDeployer.address wallet))
    as [balance|x] eqn:B; dm_step;
    [|apply Q; [now rewrite db_sent|now rewrite trace_sent|discriminate]].
  destruct (balance <? required_balance) eqn:R; dm_step;
    [apply Q; [now rewrite db_sent|now rewrite trace_sent|discriminate]|].
  apply Z.ltb_ge in R.
  match goal with
  | |- context [BlockchainDeployer.deploy cfg ?p ?sg e ?s] =>
      destruct (deploy_makes_steps_only p sg e s) as (r & l & -> & Hl)
  end.
  dm_step.
  destruct (DeploymentResult.success r); dm_step;
    eexists _, l; (split; [reflexivity|]); cbn [db trace];
    rewrite db_sent, trace_sent;
    (split; [reflexivity|]); (split; [reflexivity|]); (split; [exact Hl|]);
    (split; [discriminate|]); (split; [repeat constructor|]);
    intros _; (split; [repeat split; reflexivity|]);
    exists u, key, pk, wallet, balance;
    repeat split; first [reflexivity | assumption].
Qed.

(** X27. The [start] command. [handleStartCommand] never throws. It never
    replaces a custodial key: a sender who has one keeps the stored record,
    and is told the stored address when the lookup is answered. When it
    announces a generated wallet, the sender's record holds the lower-case
    form of the announced address, the key [encrypt] made of the generated
    private key, and the time of the run. In every case the records of the
    other identities are what they were. Both stores. *)
Theorem start_never_replaces_a_custodial_key senderId e d t :
  let rs := run (handleStartCommand aes_256_cbc_encrypt cfg walletService
                   ethers senderId) e d t in
  exists dm,
    fst rs = Ok [(senderId, dm)] /\
    (forall u, stored_user cfg d senderId = Some u ->
               Js.truthy (private_key_encrypted u) = true ->
               db (snd rs) = d /\
               (Pipeline.first_rejection cfg e = None ->
                dm = DmAlreadyHasWallet (wallet_address u))) /\
    (forall address, dm = DmWalletGenerated address ->
       address = fst (createRandom ethers) /\
       stored_user cfg (db (snd rs)) senderId
       = Some (mkUser senderId (Js.toLowerCase address)
                 (Some (encrypt aes_256_cbc_encrypt walletService
                          (randomBytes ethers) (snd (createRandom ethers))))
                 (now e))) /\
    (forall other, other <> senderId ->
       stored_user cfg (db (snd rs)) other = stored_user cfg d other).
Proof.
  intros rs. subst rs. unfold handleStartCommand.
  rewrite <- (rejection_start cfg e d t).
  dm_step. rewrite Database_getUserByTwitterId_eq.
  destruct (rejection cfg e _) eqn:R0; dm_step.
  { eexists. split; [reflexivity|]. rewrite db_sent. cbn [db].
    split; [intros u _ _; split; [reflexivity|discriminate]|].
    split; [discriminate|reflexivity]. }
  cbn [db].
  destruct (stored_user cfg d senderId) as [u|] eqn:U;
    [destruct (Js.truthy (private_key_encrypted u)) eqn:K|]; dm_step.
  { eexists. split; [reflexivity|]. rewrite db_sent. cbn [db].
    split; [intros u' [= <-] _; split; reflexivity|].
    split; [discriminate|reflexivity]. }
  all: rewrite Database_upsertUser_eq.
  all: destruct (rejection cfg e (sent cfg _)); dm_step.
  all: rewrite ?db_sent; cbn [db].
  all: try (eexists; split; [reflexivity|]; rewrite ?db_sent; cbn [db];
            split; [intros ? H Ht;
                    first [discriminate H | injection H as <-; congruence]|];
            split; [discriminate|reflexivity]).
  all: destruct (upserted cfg _ (now e) d) as [[u'|x] d'] eqn:V; dm_step.
  all: cbn [db with_db].
  all: try (destruct (upserted_ok cfg _ _ _ _ (f_equal fst V)) as (_ & Hs & Ho);
            rewrite V in Hs, Ho; cbn [snd twitter_id] in Hs, Ho;
            eexists; split; [reflexivity|];
            split; [intros ? H Ht;
                    first [discriminate H | injection H as <-; congruence]|];
            split; [intros a [= <-]; split; [reflexivity|exact Hs]|exact Ho]).
  all: pose proof (upserted_thrown _ _ _ _ (f_equal fst V)) as Hd;
       rewrite V in Hd; cbn [snd] in Hd; subst d';
       eexists; split; [reflexivity|];
       split; [intros ? H Ht;
               first [discriminate H | injection H as <-; congruence]|];
       split; [discriminate|reflexivity].
Qed.

End DirectMessageFacts.

(** ** Polling for tweets *)

Section PollingFacts.

Import Polling.

Lemma ascii_compare_trans a b c :
  Ascii.compare a b = Lt -> Ascii.compare b c = Lt -> Ascii.compare a c = Lt.
Proof.
  unfold Ascii.compare. rewrite !N.compare_lt_iff. apply N.lt_trans.
Qed.

Lemma string_compare_trans a b c :
  String.compare a b = Lt -> String.compare b c = Lt -> String.compare a c = Lt.
Proof.
  revert b c. induction a as [|x a IH]; intros [|y b] [|z c]; simpl;
    try discriminate; try reflexivity.
  destruct (Ascii.compare x y) eqn:E1; try discriminate;
    destruct (Ascii.compare y z) eqn:E2; try discriminate; intros H1 H2.
  - apply Ascii.compare_eq_iff in E1, E2. subst.
    assert (R : Ascii.compare z z = Eq)
      by (unfold Ascii.compare; apply N.compare_refl).
    rewrite R. now apply (IH b c).
  - apply Ascii.compare_eq_iff in E1. subst. now rewrite E2.
  - apply Ascii.compare_eq_iff in E2. subst. now rewrite E1.
  - now rewrite (ascii_compare_trans _ _ _ E1 E2).
Qed.

Lemma ltb_trans a b c :
  String.ltb a b = true -> String.ltb b c = true -> String.ltb a c = true.
Proof.
  unfold String.ltb.
  destruct (String.compare a b) eqn:E1; try discriminate.
  destruct (String.compare b c) eqn:E2; try discriminate.
  now rewrite (string_compare_trans _ _ _ E1 E2).
Qed.

Lemma leb_false_ltb a b : String.leb a b = false -> String.ltb b a = true.
Proof.
  unfold String.leb, String.ltb. rewrite (String.compare_antisym a b).
  now destruct (String.compare b a).
Qed.

Lemma ltb_irrefl a : String.ltb a a = false.
Proof.
  unfold String.ltb.
  assert (R : String.compare a a = Eq).
  { induction a as [|x a IH]; [reflexivity|]. simpl.
    assert (R : Ascii.compare x x = Eq)
      by (unfold Ascii.compare; apply N.compare_refl).
    now rewrite R. }
  now rewrite R.
Qed.

Variable cfg : Config.
Variable api : Api.
Variable this : t.

Lemma handler_returns tweet e s :
  exists s', handleTwitterApiIoTweet cfg api this tweet e s = (Ok tt, s').
Proof.
  unfold handleTwitterApiIoTweet, try_catch, ret.
  destruct (_ e s) as [[[]|x] s']; eauto.
Qed.

Lemma last_default {A} (l : list A) (d d' : A) :
  l <> [] -> List.last l d = List.last l d'.
Proof.
  induction l as [|x l IH]; [congruence|]. intros _. cbn [List.last].
  destruct l; [reflexivity|]. now apply IH.
Qed.

Lemma seen_cons lastSeen tw hs :
  seen lastSeen (tw :: hs) = seen (Some (id tw)) hs.
Proof.
  unfold seen. cbn [map List.last].
  destruct hs as [|x hs]; [reflexivity|]. now apply last_default.
Qed.

Lemma poll_tweets_eq tweets lastSeen e s :
  poll_tweets cfg api this tweets lastSeen e s
  = bind (for_each (handleTwitterApiIoTweet cfg api this)
            (handled this tweets lastSeen))
         (fun _ => ret (seen lastSeen (handled this tweets lastSeen))) e s.
Proof.
  revert lastSeen s. induction tweets as [|tw rest IH]; intros lastSeen s;
    [reflexivity|].
  cbn [poll_tweets handled].
  destruct (Js.truthy lastSeen && String.leb (id tw) (Js.or_else lastSeen ""));
    [apply IH|].
  destruct (negb (Js.includes _ _)); [apply IH|].
  cbn [for_each]. rewrite seen_cons. unfold bind.
  destruct (handler_returns tw e s) as [s' ->].
  rewrite IH. reflexivity.
Qed.

Lemma handled_above tweets last :
  last <> "" ->
  Forall (fun tw => id tw <> "") tweets ->
  Forall (fun tw => String.ltb last (id tw) = true)
    (handled this tweets (Some last)).
Proof.
  intros Hl Ht. revert last Hl.
  induction Ht as [|tw rest Hn Ht IH]; intros last Hl; [constructor|].
  cbn [handled Js.truthy Js.or_else].
  apply String.eqb_neq in Hl. rewrite Hl. cbn [negb andb].
  destruct (String.leb (id tw) last) eqn:E;
    [apply IH; now apply String.eqb_neq|].
  destruct (negb (Js.includes _ _)); [apply IH; now apply String.eqb_neq|].
  apply leb_false_ltb in E. constructor; [exact E|].
  eapply Forall_impl; [apply (IH _ Hn)|].
  intros tw' H. cbn beta in H. now apply (ltb_trans _ _ _ E).
Qed.

Lemma handled_sorted tweets lastSeen :
  Forall (fun tw => id tw <> "") tweets ->
  StronglySorted (fun a b => String.ltb (id a) (id b) = true)
    (handled this tweets lastSeen).
Proof.
  intros Ht. revert lastSeen.
  induction Ht as [|tw rest Hn Ht IH]; intros lastSeen; [constructor|].
  cbn [handled].
  destruct (Js.truthy lastSeen && _); [apply IH|].
  destruct (negb (Js.includes _ _)); [apply IH|].
  constructor; [apply IH|]. now apply handled_above.
Qed.

Lemma handled_mention tweets lastSeen :
  Forall (mentions_bot this) (handled this tweets lastSeen).
Proof.
  revert lastSeen. induction tweets as [|tw rest IH]; intros lastSeen;
    [constructor|].
  cbn [handled].
  destruct (Js.truthy lastSeen && _); [apply IH|].
  destruct (Js.includes _ _) eqn:E; cbn [negb]; [|apply IH].
  constructor; [exact E|apply IH].
Qed.

Lemma handled_app tweets tweets' lastSeen :
  handled this (tweets ++ tweets') lastSeen
  = (handled this tweets lastSeen
     ++ handled this tweets' (seen lastSeen (handled this tweets lastSeen)))%list.
Proof.
  revert lastSeen. induction tweets as [|tw rest IH]; intros lastSeen;
    [reflexivity|].
  cbn [app handled].
  destruct (Js.truthy lastSeen && _); [apply IH|].
  destruct (negb (Js.includes _ _)); [apply IH|].
  cbn [app]. rewrite IH, seen_cons. reflexivity.
Qed.

Lemma handled_set v tweets lastSeen :
  handled (set_lastSeenTweetId v this) tweets lastSeen
  = handled this tweets lastSeen.
Proof.
  revert lastSeen. induction tweets as [|tw rest IH]; intros lastSeen;
    [reflexivity|].
  cbn [handled set_lastSeenTweetId botUsername]. now rewrite !IH.
Qed.

(** X28. No tweet is handled twice. A poll hands to
    [handleTwitterApiIoTweet], one after the other, the tweets of the
    listing that mention the bot and whose id is above the last id handled,
    and it never throws once the listing is there. When the ids are not
    empty, the ids handled are strictly increasing in the order of strings:
    a tweet listed after one with a larger id is skipped, and every id
    handled is above the id the listener had recorded. The next poll starts
    from the last id handled, so the ids handled over consecutive polls are
    strictly increasing too, and no id is handled twice. *)
Theorem no_tweet_is_handled_twice tweets e d t :
  twitterApiIoClient this = true ->
  getTweets api = Returns tweets ->
  Forall (fun tw => id tw <> "") tweets ->
  let hs := handled this tweets (lastSeenTweetId this) in
  let this' := set_lastSeenTweetId (seen (lastSeenTweetId this) hs) this in
  (exists s',
     run (for_each (handleTwitterApiIoTweet cfg api this) hs) e d t = (Ok tt, s') /\
     run (pollTwitterApiIo cfg api this) e d t = (Ok this', s')) /\
  Forall (mentions_bot this) hs /\
  StronglySorted (fun a b => String.ltb (id a) (id b) = true) hs /\
  (forall last, lastSeenTweetId this = Some last -> last <> "" ->
     Forall (fun tw => String.ltb last (id tw) = true) hs) /\
  (forall tweets', Forall (fun tw => id tw <> "") tweets' ->
     handled this (tweets ++ tweets') (lastSeenTweetId this)
     = (hs ++ handled this' tweets' (lastSeenTweetId this'))%list /\
     StronglySorted (fun a b => String.ltb (id a) (id b) = true)
       (hs ++ handled this' tweets' (lastSeenTweetId this')) /\
     NoDup (map id (hs ++ handled this' tweets' (lastSeenTweetId this')))).
Proof.
  intros Hc Hg Hn hs this'.
  split; [|split; [|split; [|split]]].
  - assert (R : forall l s, exists s',
              for_each (handleTwitterApiIoTweet cfg api this) l e s = (Ok tt, s')).
    { induction l as [|x l IH]; intros s; [eexists; reflexivity|].
      cbn [for_each]. unfold bind.
      destruct (handler_returns x e s) as [s1 ->]. apply IH. }
    destruct (R hs (mkSt d 0 t)) as [s' Hs']. exists s'. split; [exact Hs'|].
    unfold run, pollTwitterApiIo. rewrite Hc. cbn [negb].
    unfold bind at 1. rewrite Hg. cbn [external ret].
    destruct tweets as [|tw rest].
    + cbn in *. injection Hs' as <-. subst this'. now destruct this.
    + cbn [length Nat.eqb]. unfold bind at 1. rewrite poll_tweets_eq.
      unfold bind at 1. fold hs. unfold run in Hs'. rewrite Hs'. reflexivity.
  - apply handled_mention.
  - now apply handled_sorted.
  - intros last Hl Hne. subst hs. rewrite Hl. now apply handled_above.
  - intros tweets' Hn'.
    assert (E : handled this (tweets ++ tweets') (lastSeenTweetId this)
                = (hs ++ handled this' tweets' (lastSeenTweetId this'))%list).
    { rewrite handled_app. subst this'. now rewrite handled_set. }
    split; [exact E|].
    assert (S : StronglySorted (fun a b => String.ltb (id a) (id b) = true)
                  (hs ++ handled this' tweets' (lastSeenTweetId this'))).
    { rewrite <- E. apply handled_sorted. apply Forall_app. now split. }
    split; [exact S|].
    clear E. induction S as [|a l S IH F]; [constructor|].
    cbn [map]. apply NoDup_cons. split; [|exact IH].
    intros Hin. apply list_elem_of_In, in_map_iff in Hin as (b & Hb & Hin).
    rewrite Forall_forall in F. specialize (F b).
    assert (Fb : String.ltb (id a) (id b) = true).
    { apply F. now apply list_elem_of_In. }
    rewrite Hb, ltb_irrefl in Fb. discriminate.
Qed.

End PollingFacts.

Lemma no_tweet_is_handled_twice_witness :
  let this := Polling.new "mybot" true in
  let hs := Polling.handled this PollExamples.listing None in
  Polling.twitterApiIoClient this = true /\
  Polling.getTweets PollExamples.api = Returns PollExamples.listing /\
  Forall (fun tw => Polling.id tw <> "") PollExamples.listing /\
  map Polling.id hs = ["1234567890"; "1234567899"] /\
  StronglySorted (fun a b => String.ltb (Polling.id a) (Polling.id b) = true) hs /\
  exists s',
    run (Polling.pollTwitterApiIo Scenario.mocked PollExamples.api this)
        (Scenario.calm 1000) Scenario.linked []
    = (Ok (Polling.set_lastSeenTweetId (Some "1234567899") this), s').
Proof.
  cbv zeta.
  assert (F : Forall (fun tw => Polling.id tw <> "") PollExamples.listing)
    by (repeat constructor; discriminate).
  destruct (no_tweet_is_handled_twice Scenario.mocked PollExamples.api
              (Polling.new "mybot" true) PollExamples.listing
              (Scenario.calm 1000) Scenario.linked [] eq_refl eq_refl F)
    as ((s' & _ & H1) & _ & H2 & _).
  split; [reflexivity|]. split; [reflexivity|]. split; [exact F|].
  split; [reflexivity|]. split; [exact H2|]. exists s'. exact H1.
Defined.

(** ** The token contract *)

Section SimpleTokenFacts.

Import SimpleToken.

Lemma sum_insert_fresh (m : gmap address Z) k v :
  m !! k = None -> sum_of (<[k:=v]> m) = v + sum_of m.
Proof.
  intros H. unfold sum_of.
  rewrite map_fold_insert_L; [reflexivity|intros; lia|exact H].
Qed.

Lemma sum_delete (m : gmap address Z) k x :
  m !! k = Some x -> sum_of m = x + sum_of (delete k m).
Proof.
  intros H. unfold sum_of.
  rewrite (map_fold_delete_L _ _ k x m); [reflexivity|intros; lia|exact H].
Qed.

Lemma sum_insert (m : gmap address Z) k v :
  sum_of (<[k:=v]> m) = v + sum_of m - default 0 (m !! k).
Proof.
  destruct (m !! k) as [x|] eqn:E; cbn [default from_option Datatypes.id].
  - rewrite <- insert_delete_eq, sum_insert_fresh by apply lookup_delete_eq.
    rewrite (sum_delete m k x E). lia.
  - rewrite sum_insert_fresh by exact E. lia.
Qed.

Lemma sum_nonneg (m : gmap address Z) :
  map_Forall (fun _ v => 0 <= v) m -> 0 <= sum_of m.
Proof.
  induction m as [|k v m Hk IH] using map_ind.
  - intros _. unfold sum_of. rewrite map_fold_empty. lia.
  - intros H. apply map_Forall_insert in H as [Hv Hm]; [|exact Hk].
    rewrite sum_insert_fresh by exact Hk. specialize (IH Hm). lia.
Qed.

Lemma nonneg_lookup (m : gmap address Z) k :
  map_Forall (fun _ v => 0 <= v) m -> 0 <= default 0 (m !! k).
Proof.
  intros H. destruct (m !! k) as [x|] eqn:E; cbn; [|lia]. exact (H k x E).
Qed.

Lemma nonneg_delete (m : gmap address Z) k :
  map_Forall (fun _ v => 0 <= v) m ->
  map_Forall (fun _ v => 0 <= v) (delete k m).
Proof.
  intros H i x Hi. destruct (decide (k = i)) as [->|N].
  - now rewrite lookup_delete_eq in Hi.
  - rewrite lookup_delete_ne in Hi by exact N. exact (H i x Hi).
Qed.

Lemma sum_split (m : gmap address Z) k :
  sum_of m = default 0 (m !! k) + sum_of (delete k m).
Proof.
  destruct (m !! k) as [x|] eqn:E; cbn [default from_option Datatypes.id].
  - now apply sum_delete.
  - now rewrite delete_id.
Qed.

(** Two holders together hold no more than the sum. *)
Lemma pair_bound (m : gmap address Z) a b :
  map_Forall (fun _ v => 0 <= v) m -> a <> b ->
  default 0 (m !! a) + default 0 (m !! b) <= sum_of m.
Proof.
  intros H N. rewrite (sum_split m a), (sum_split (delete a m) b).
  rewrite lookup_delete_ne by exact N.
  pose proof (sum_nonneg _ (nonneg_delete _ b (nonneg_delete _ a H))). lia.
Qed.

Lemma single_bound (m : gmap address Z) a :
  map_Forall (fun _ v => 0 <= v) m -> default 0 (m !! a) <= sum_of m.
Proof.
  intros H. rewrite (sum_split m a).
  pose proof (sum_nonneg _ (nonneg_delete _ a H)). lia.
Qed.

Lemma wrap_small x : 0 <= x <= MAX_UINT256 -> wrap x = x.
Proof. unfold wrap, MAX_UINT256. intros H. apply Z.mod_small. lia. Qed.

Lemma transfer_conserves st from to amount v st' logs :
  conserved st -> uint256 amount ->
  _transfer st from to amount = Returned v st' logs ->
  v = true /\ conserved st' /\
  totalSupply st' = totalSupply st /\ allowance st' = allowance st /\
  logs = [Transfer from to amount] /\
  amount <= balance st from /\
  (from <> to ->
   balance st' from = balance st from - amount /\
   balance st' to = balance st to + amount) /\
  (from = to -> balance st' from = balance st from) /\
  (forall other, other <> from -> other <> to ->
                 balance st' other = balance st other).
Proof.
  intros (Hs & Hp & Hc & Hal) Ha. unfold _transfer.
  destruct (from =? 0); [discriminate|].
  destruct (to =? 0); [discriminate|].
  destruct (balance st from <? amount) eqn:B; [discriminate|].
  apply Z.ltb_ge in B. cbv zeta. intros [= <- <- <-].
  unfold conserved, circulating, balance in *.
  cbn [set_balanceOf balanceOf totalSupply allowance name symbol] in *.
  pose proof (nonneg_lookup _ from Hp) as Hf.
  pose proof (single_bound _ from Hp) as Hf'.
  assert (W1 : wrap (default 0 (balanceOf st !! from) - amount)
               = default 0 (balanceOf st !! from) - amount).
  { apply wrap_small. unfold uint256 in *. lia. }
  rewrite W1.
  destruct (decide (from = to)) as [<-|N].
  - rewrite lookup_insert_eq. cbn [default from_option Datatypes.id].
    assert (W2 : wrap (default 0 (balanceOf st !! from) - amount + amount)
                 = default 0 (balanceOf st !! from)).
    { replace (default 0 (balanceOf st !! from) - amount + amount)
        with (default 0 (balanceOf st !! from)) by lia.
      apply wrap_small. unfold uint256 in *. lia. }
    rewrite W2, insert_insert_eq.
    split; [reflexivity|]. split.
    { split; [exact Hs|]. split; [|split; [|exact Hal]].
      - apply map_Forall_insert_2; [exact Hf|exact Hp].
      - rewrite sum_insert. lia. }
    split; [reflexivity|]. split; [reflexivity|]. split; [reflexivity|].
    split; [exact B|]. split; [congruence|].
    split; [intros _; now rewrite lookup_insert_eq|].
    intros other H1 _. rewrite lookup_insert_ne by congruence. reflexivity.
  - rewrite lookup_insert_ne by exact N.
    pose proof (nonneg_lookup _ to Hp) as Ht.
    pose proof (pair_bound _ from to Hp N) as Hb.
    assert (W2 : wrap (default 0 (balanceOf st !! to) + amount)
                 = default 0 (balanceOf st !! to) + amount).
    { apply wrap_small. unfold uint256 in *. lia. }
    rewrite W2.
    split; [reflexivity|]. split.
    { split; [exact Hs|]. split; [|split; [|exact Hal]].
      - apply map_Forall_insert_2; [unfold uint256 in Ha; lia|].
        apply map_Forall_insert_2; [lia|exact Hp].
      - rewrite !sum_insert. rewrite lookup_insert_ne by exact N. lia. }
    split; [reflexivity|]. split; [reflexivity|]. split; [reflexivity|].
    split; [exact B|]. split.
    { intros _. rewrite lookup_insert_ne by congruence.
      rewrite !lookup_insert_eq. cbn. lia. }
    split; [congruence|].
    intros other H1 H2. rewrite !lookup_insert_ne by congruence. reflexivity.
Qed.

Lemma conserved_allowance st k v :
  conserved st -> uint256 v ->
  conserved (set_allowance (<[k:=v]> (allowance st)) st).
Proof.
  intros (Hs & Hp & Hc & Hal) Hv. split; [exact Hs|]. split; [exact Hp|].
  split; [exact Hc|]. cbn. now apply map_Forall_insert_2.
Qed.

Lemma allowed_uint256 st owner spender :
  conserved st -> uint256 (allowed st owner spender).
Proof.
  intros (_ & _ & _ & Hal). unfold allowed.
  destruct (allowance st !! (owner, spender)) as [x|] eqn:E; cbn.
  - exact (Hal _ _ E).
  - unfold uint256, MAX_UINT256. lia.
Qed.

(** X29. The token conserves its supply. The constructor gives the whole
    supply to the recipient. After that, every call with a [uint256] amount
    either reverts or returns [true] and leaves the total supply and the sum
    of all balances as they were, with no balance negative: the unchecked
    subtraction and addition of [_transfer] never wrap. A transfer that
    returns moves exactly the amount from the holder, who had at least that
    much, to the receiver (nothing changes when the two are the same), and
    touches no other balance; a [transferFrom] that returns was covered by
    the allowance, which it lowers by the amount unless it is the maximal
    one; [approve] moves no balance. So no sequence of calls creates or
    destroys tokens. *)
Theorem token_supply_is_conserved _name _symbol _totalSupply _recipient :
  uint256 _totalSupply ->
  let st0 := fst (constructor _name _symbol _totalSupply _recipient) in
  (conserved st0 /\ balance st0 _recipient = _totalSupply) /\
  (forall st sender c,
     conserved st -> well_typed c ->
     match call st sender c with
     | Reverted _ => True
     | Returned v st' logs =>
         v = true /\ conserved st' /\ totalSupply st' = totalSupply st /\
         match c with
         | CallApprove spender amount =>
             balanceOf st' = balanceOf st /\
             allowed st' sender spender = amount
         | CallTransfer to amount =>
             amount <= balance st sender /\
             (sender <> to ->
              balance st' sender = balance st sender - amount /\
              balance st' to = balance st to + amount) /\
             (sender = to -> balance st' sender = balance st sender) /\
             (forall other, other <> sender -> other <> to ->
                            balance st' other = balance st other) /\
             allowance st' = allowance st
         | CallTransferFrom from to amount =>
             amount <= balance st from /\
             amount <= allowed st from sender /\
             allowed st' from sender
             = (if allowed st from sender =? MAX_UINT256
                then MAX_UINT256 else allowed st from sender - amount) /\
             (from <> to ->
              balance st' from = balance st from - amount /\
              balance st' to = balance st to + amount) /\
             (from = to -> balance st' from = balance st from) /\
             (forall other, other <> from -> other <> to ->
                            balance st' other = balance st other)
         end
     end) /\
  (forall calls,
     Forall (fun c => well_typed (snd c)) calls ->
     conserved (after st0 calls) /\
     totalSupply (after st0 calls) = _totalSupply).
Proof.
  intros Hs st0.
  assert (C0 : conserved st0).
  { subst st0. unfold conserved, circulating. cbn.
    split; [exact Hs|]. split; [|split; [|apply map_Forall_empty]].
    - apply map_Forall_singleton. unfold uint256 in Hs. lia.
    - rewrite <- insert_empty, sum_insert_fresh by apply lookup_empty.
      unfold sum_of. rewrite map_fold_empty. lia. }
  assert (Step : forall st sender c,
     conserved st -> well_typed c ->
     match call st sender c with
     | Reverted _ => True
     | Returned v st' logs =>
         v = true /\ conserved st' /\ totalSupply st' = totalSupply st /\
         match c with
         | CallApprove spender amount =>
             balanceOf st' = balanceOf st /\
             allowed st' sender spender = amount
         | CallTransfer to amount =>
             amount <= balance st sender /\
             (sender <> to ->
              balance st' sender = balance st sender - amount /\
              balance st' to = balance st to + amount) /\
             (sender = to -> balance st' sender = balance st sender) /\
             (forall other, other <> sender -> other <> to ->
                            balance st' other = balance st other) /\
             allowance st' = allowance st
         | CallTransferFrom from to amount =>
             amount <= balance st from /\
             amount <= allowed st from sender /\
             allowed st' from sender
             = (if allowed st from sender =? MAX_UINT256
                then MAX_UINT256 else allowed st from sender - amount) /\
             (from <> to ->
              balance st' from = balance st from - amount /\
              balance st' to = balance st to + amount) /\
             (from = to -> balance st' from = balance st from) /\
             (forall other, other <> from -> other <> to ->
                            balance st' other = balance st other)
         end
     end).
  { intros st sender [to amount|spender amount|from to amount] Hc Hw;
      cbn [call well_typed] in *.
    - unfold transfer.
      destruct (_transfer st sender to amount) as [|v st' logs] eqn:E;
        [exact I|].
      destruct (transfer_conserves _ _ _ _ _ _ _ Hc Hw E)
        as (-> & C & T & A & _ & B & H1 & H2 & H3).
      split; [reflexivity|]. split; [exact C|]. split; [exact T|].
      split; [exact B|]. split; [exact H1|]. split; [exact H2|].
      split; [exact H3|exact A].
    - unfold approve. split; [reflexivity|].
      split; [now apply conserved_allowance|].
      split; [reflexivity|]. split; [reflexivity|].
      unfold allowed. cbn. now rewrite lookup_insert_eq.
    - unfold transferFrom.
      destruct (allowed st from sender =? MAX_UINT256) eqn:M; cbn [negb].
      + destruct (_transfer st from to amount) as [|v st' logs] eqn:E;
          [exact I|].
        destruct (transfer_conserves _ _ _ _ _ _ _ Hc Hw E)
          as (-> & C & T & A & _ & B & H1 & H2 & H3).
        apply Z.eqb_eq in M.
        split; [reflexivity|]. split; [exact C|]. split; [exact T|].
        split; [exact B|].
        split; [rewrite M; unfold uint256 in Hw; lia|].
        split; [unfold allowed in *; rewrite A; exact M|].
        split; [exact H1|]. split; [exact H2|exact H3].
      + destruct (allowed st from sender <? amount) eqn:L; [exact I|].
        apply Z.ltb_ge in L.
        pose proof (allowed_uint256 st from sender Hc) as Hu.
        assert (W : wrap (allowed st from sender - amount)
                    = allowed st from sender - amount).
        { apply wrap_small. unfold uint256 in *. lia. }
        assert (Hv : uint256 (wrap (allowed st from sender - amount))).
        { rewrite W. unfold uint256 in *. lia. }
        match goal with
        | |- match _transfer ?s _ _ _ with _ => _ end =>
            destruct (_transfer s from to amount) as [|v st' logs] eqn:E;
            [exact I|];
            destruct (transfer_conserves s _ _ _ _ _ _
                        (conserved_allowance st _ _ Hc Hv) Hw E)
              as (-> & C & T & A & _ & B & H1 & H2 & H3)
        end.
        cbn [set_allowance totalSupply allowance] in T, A.
        unfold balance in *. cbn [set_allowance balanceOf] in *.
        split; [reflexivity|]. split; [exact C|]. split; [exact T|].
        split; [exact B|]. split; [exact L|].
        split; [|split; [exact H1|]; split; [exact H2|exact H3]].
        unfold allowed at 1. rewrite A, lookup_insert_eq.
        cbn [default from_option Datatypes.id]. exact W. }
  split; [split; [exact C0|]|split; [exact Step|]].
  - subst st0. unfold balance. cbn. now rewrite lookup_singleton_eq.
  - intros calls Hw.
    assert (G : forall st, conserved st ->
                conserved (after st calls) /\
                totalSupply (after st calls) = totalSupply st).
    { induction Hw as [|[sender c] calls Hc Hw IH]; intros st Hst;
        [now split|].
      unfold after. cbn [fold_left fst snd]. fold (after).
      pose proof (Step st sender c Hst Hc) as S.
      destruct (call st sender c) as [|v st' logs]; [now apply IH|].
      destruct S as (_ & C & T & _).
      destruct (IH st' C) as [C' T']. split; [exact C'|].
      unfold after in T'. congruence. }
    exact (G st0 C0).
Qed.

End SimpleTokenFacts.

Lemma token_supply_is_conserved_witness :
  let supply := 1000000000 * 10 ^ 18 in
  let calls := [(1001, SimpleToken.CallTransfer 2002 500);
                (1001, SimpleToken.CallApprove 3003 100);
                (3003, SimpleToken.CallTransferFrom 1001 2002 60);
                (3003, SimpleToken.CallTransferFrom 1001 2002 60)] in
  let st := SimpleToken.after
              (fst (SimpleToken.constructor "Ojas Narang" "OJAS" supply 1001))
              calls in
  SimpleToken.uint256 supply /\
  Forall (fun c => SimpleToken.well_typed (snd c)) calls /\
  SimpleToken.conserved st /\
  SimpleToken.totalSupply st = supply.
Proof.
  cbv zeta.
  assert (U : SimpleToken.uint256 (1000000000 * 10 ^ 18))
    by (unfold SimpleToken.uint256, SimpleToken.MAX_UINT256; lia).
  assert (F : Forall (fun c => SimpleToken.well_typed (snd c))
                [(1001, SimpleToken.CallTransfer 2002 500);
                 (1001, SimpleToken.CallApprove 3003 100);
                 (3003, SimpleToken.CallTransferFrom 1001 2002 60);
                 (3003, SimpleToken.CallTransferFrom 1001 2002 60)])
    by (repeat constructor;
        unfold SimpleToken.uint256, SimpleToken.MAX_UINT256; cbn; lia).
  split; [exact U|]. split; [exact F|].
  exact (proj2 (proj2 (token_supply_is_conserved "Ojas Narang" "OJAS"
                         (1000000000 * 10 ^ 18) 1001 U)) _ F).
Defined.

(** ** Linking a wallet by direct message *)

Section DirectMessageLinkFacts.

Import Store Regex WalletService XListener.

Variable aes_256_cbc_encrypt : Buffer -> Buffer -> Buffer -> Buffer.
Variable aes_256_cbc_decrypt : Buffer -> Buffer -> Buffer -> option Buffer.
Variable cfg : Config.
Variable walletService : WalletService.t.
Variable ethers : Ethers.

Ltac dm_step :=
  cbv beta iota zeta delta
    [run try_catch bind ret external get_env throw getWallet];
  cbn [fst snd].


End DirectMessageLinkFacts.

